(** * Run-partitioned feature pipeline: a shallow embedding

    The two Python modules of the repository, [main.py] and
    [feature_engineering.py], are embedded function by function.

    - A float64 cell is a primitive binary64 float ([PrimFloat.float]);
      [NaN] is the "unobserved" marker of pandas.
    - A pandas [Series] is a list of cells, a [DataFrame] a time column
      (nanoseconds since the epoch) plus an ordered list of named float
      columns.
    - A [KeyError] or an [OverflowError] is [None] in the [option] monad.
    - The column labels of a frame are taken to be distinct: [df[c]] is the
      column of that name.
    - [datetime.timestamp] is a parameter of [add_engineered_features].
    - The dask bag runs under its default scheduler, the process pool:
      every call of a transform works on an unpickled copy of the frame.
    - A Python function that assigns columns into its argument returns the
      argument frame as it is left, paired with the value it returns. *)

From Stdlib Require Import Floats ZArith NArith List Bool String Ascii Lia
  Permutation DecimalString Sorted.
From Stdlib Require Uint63.
Import ListNotations.

Local Open Scope string_scope.
Local Open Scope list_scope.

(** ** The error monad of the embedding *)

Definition bind {A B : Type} (m : option A) (k : A -> option B) : option B :=
  match m with
  | Some a => k a
  | None => None
  end.

Notation "x <- m ;; k" := (bind m (fun x => k))
  (at level 61, m at next level, right associativity).
Notation "' p <- m ;; k" := (bind m (fun x => let p := x in k))
  (at level 61, p pattern, m at next level, right associativity).

Fixpoint mapM {A B : Type} (f : A -> option B) (l : list A) : option (list B) :=
  match l with
  | [] => Some []
  | a :: r => b <- f a ;; bs <- mapM f r ;; Some (b :: bs)
  end.

Fixpoint foldM {A S : Type} (f : S -> A -> option S) (l : list A) (s : S) : option S :=
  match l with
  | [] => Some s
  | a :: r => s' <- f s a ;; foldM f r s'
  end.

(** ** Python strings *)

Module Py.

(** [s.startswith(p)] *)
Definition startswith (s p : string) : bool := String.prefix p s.

(** [s.endswith(p)] *)
Definition endswith (s p : string) : bool :=
  (String.length p <=? String.length s)%nat &&
  String.eqb
    (String.substring (String.length s - String.length p) (String.length p) s) p.

(** [s[1:]] *)
Definition tail (s : string) : string :=
  match s with
  | EmptyString => EmptyString
  | String _ r => r
  end.

(** [str(n)] for a non-negative integer *)
Definition str_of_N (n : N) : string := NilZero.string_of_uint (N.to_uint n).

(** The ASCII characters [str.isspace] holds for. *)
Definition is_space (c : ascii) : bool :=
  let n := nat_of_ascii c in
  (n =? 32)%nat || ((9 <=? n)%nat && (n <=? 13)%nat) ||
  ((28 <=? n)%nat && (n <=? 31)%nat).

Fixpoint lstrip (s : string) : string :=
  match s with
  | EmptyString => EmptyString
  | String c r => if is_space c then lstrip r else s
  end.

Fixpoint rstrip (s : string) : string :=
  match s with
  | EmptyString => EmptyString
  | String c r =>
      match rstrip r with
      | EmptyString => if is_space c then EmptyString else String c EmptyString
      | r' => String c r'
      end
  end.

(** [s.strip()] *)
Definition strip (s : string) : string := rstrip (lstrip s).

(** [x in l] for a list of strings *)
Definition mem (x : string) (l : list string) : bool := existsb (String.eqb x) l.

End Py.

(** ** The pandas operations the program calls *)

Module Pandas.

Local Open Scope float_scope.

Definition Series := list float.

(** [s.shift(1)]: every value moves one row down, the first row is NaN. *)
Definition shift1 (s : Series) : Series :=
  match s with
  | [] => []
  | _ :: _ => nan :: removelast s
  end.

Fixpoint map2 {A B C : Type} (f : A -> B -> C) (a : list A) (b : list B) : list C :=
  match a, b with
  | x :: a', y :: b' => f x y :: map2 f a' b'
  | _, _ => []
  end.

(** [a - b] and [a / b] on two series of one frame (same index). *)
Definition series_sub (a b : Series) : Series := map2 PrimFloat.sub a b.
Definition series_div (a b : Series) : Series := map2 PrimFloat.div a b.

(** [s.fillna(v)] *)
Definition fillna (v : float) (s : Series) : Series :=
  map (fun x => if is_nan x then v else x) s.

(** *** Sums

    numpy adds the elements of a contiguous axis pairwise
    ([pairwise_sum] of its [add] loop): fewer than 8 elements one after
    the other; up to 128 elements in eight interleaved partial sums that
    are combined as a tree, the remainder added one by one; more than 128
    elements as the sum of the two halves, the first a multiple of 8
    long. *)

Definition Acc8 : Type :=
  (float * float * float * float * float * float * float * float)%type.

Fixpoint pairwise_unrolled (r : Acc8) (a : list float) : float :=
  let '(r0, r1, r2, r3, r4, r5, r6, r7) := r in
  match a with
  | a0 :: a1 :: a2 :: a3 :: a4 :: a5 :: a6 :: a7 :: rest =>
      pairwise_unrolled
        (r0 + a0, r1 + a1, r2 + a2, r3 + a3, r4 + a4, r5 + a5, r6 + a6, r7 + a7)
        rest
  | _ =>
      fold_left PrimFloat.add a
        (((r0 + r1) + (r2 + r3)) + ((r4 + r5) + (r6 + r7)))
  end.

Definition pairwise_block (a : list float) : float :=
  match a with
  | r0 :: r1 :: r2 :: r3 :: r4 :: r5 :: r6 :: r7 :: rest =>
      pairwise_unrolled (r0, r1, r2, r3, r4, r5, r6, r7) rest
  | _ => fold_left PrimFloat.add a 0
  end.

Definition PW_BLOCKSIZE : nat := 128.

(** The recursion halves the length, so a fuel of the length is never
    used up. *)
Fixpoint pairwise_sum_fuel (fuel : nat) (a : list float) : float :=
  let n := List.length a in
  match fuel with
  | S fuel' =>
      if (PW_BLOCKSIZE <? n)%nat then
        let n2 := (n / 2)%nat in
        let n2 := (n2 - n2 mod 8)%nat in
        pairwise_sum_fuel fuel' (firstn n2 a) + pairwise_sum_fuel fuel' (skipn n2 a)
      else pairwise_block a
  | O => pairwise_block a
  end.

Definition pairwise_sum (a : list float) : float :=
  pairwise_sum_fuel (List.length a) a.

(** [ndarray.sum()] along a contiguous axis: the identity 0 plus the
    pairwise sum. *)
Definition np_sum (a : list float) : float := 0 + pairwise_sum a.

(** [s.sum()] of a series ([skipna=True]): an unobserved value is set to 0
    and the array is summed. *)
Definition nansum (vs : list float) : float := np_sum (fillna 0 vs).

(** The cells of row [i] of the columns [cs]. *)
Definition row_values (cs : list Series) (i : nat) : list float :=
  map (fun c => nth i c nan) cs.

(** [frame.sum(1)] on the columns [cs] of a frame of [n] rows.  The rows of
    the block are summed pairwise where a row is contiguous in memory: in a
    frame of one row, and in the copy pandas takes to set the unobserved
    cells to 0.  Otherwise numpy walks the block column by column and adds
    every column to the running sums, left to right.  The two orders are
    the same below 8 columns. *)

Definition sum_axis1 (cs : list Series) (n : nat) : Series :=
  let contiguous := (n =? 1)%nat || existsb (existsb is_nan) cs in
  map (fun i =>
         let vs := fillna 0 (row_values cs i) in
         if contiguous then np_sum vs else fold_left PrimFloat.add vs 0)
      (seq 0 n).

(** [s.ffill()]: an unobserved cell takes the last observed value above it. *)
Fixpoint ffill_from (last : option float) (s : Series) : Series :=
  match s with
  | [] => []
  | x :: r =>
      if is_nan x then
        match last with
        | Some v => v :: ffill_from last r
        | None => x :: ffill_from None r
        end
      else x :: ffill_from (Some x) r
  end.

Definition ffill (s : Series) : Series := ffill_from None s.

(** [s.bfill()]: an unobserved cell takes the next observed value below it. *)
Fixpoint bfill (s : Series) : Series :=
  match s with
  | [] => []
  | x :: r =>
      let r' := bfill r in
      if is_nan x then
        match r' with
        | y :: _ => y :: r'
        | [] => [x]
        end
      else x :: r'
  end.

Record DataFrame := mkDF {
  df_time : list Z;
  df_cols : list (string * Series)
}.

Definition nrows (df : DataFrame) : nat := List.length (df_time df).

(** [df.columns] *)
Definition columns (df : DataFrame) : list string :=
  "time" :: map fst (df_cols df).

Fixpoint lookup (c : string) (l : list (string * Series)) : option Series :=
  match l with
  | [] => None
  | (k, v) :: r => if String.eqb k c then Some v else lookup c r
  end.

(** [df[c]] for a float column; a missing name is a KeyError. *)
Definition get_col (df : DataFrame) (c : string) : option Series :=
  lookup c (df_cols df).

Fixpoint assign (c : string) (s : Series) (l : list (string * Series))
  : list (string * Series) :=
  match l with
  | [] => [(c, s)]
  | (k, v) :: r => if String.eqb k c then (k, s) :: r else (k, v) :: assign c s r
  end.

(** [df[c] = s]: an existing column is overwritten where it stands, a new
    one is appended. *)
Definition set_col (df : DataFrame) (c : string) (s : Series) : DataFrame :=
  mkDF (df_time df) (assign c s (df_cols df)).

(** [df[['time', *cols]]]: a new frame. *)
Definition select (df : DataFrame) (cols : list string) : option DataFrame :=
  cs <- mapM (fun c => s <- get_col df c ;; Some (c, s)) cols ;;
  Some (mkDF (df_time df) cs).

(** [df.ffill().bfill()] leaves the time column (no missing stamp) as it is. *)
Definition frame_ffill (df : DataFrame) : DataFrame :=
  mkDF (df_time df) (map (fun c => (fst c, ffill (snd c))) (df_cols df)).
Definition frame_bfill (df : DataFrame) : DataFrame :=
  mkDF (df_time df) (map (fun c => (fst c, bfill (snd c))) (df_cols df)).

(** *** [pd.merge(left, right)]: inner join on all common columns *)

(** Join keys compare as pandas hashes them: NaN matches NaN. *)
Definition key_eq (x y : float) : bool := (is_nan x && is_nan y) || (x =? y).

Definition cell (df : DataFrame) (c : string) (i : nat) : float :=
  match get_col df c with
  | Some s => nth i s nan
  | None => nan
  end.

Definition common_cols (l r : DataFrame) : list string :=
  filter (fun c => Py.mem c (map fst (df_cols r))) (map fst (df_cols l)).

Definition row_match (l r : DataFrame) (keys : list string) (i j : nat) : bool :=
  Z.eqb (nth i (df_time l) 0%Z) (nth j (df_time r) 0%Z) &&
  forallb (fun k => key_eq (cell l k i) (cell r k j)) keys.

Definition merge_pairs (l r : DataFrame) (keys : list string) : list (nat * nat) :=
  flat_map
    (fun i => map (pair i) (filter (row_match l r keys i) (seq 0 (nrows r))))
    (seq 0 (nrows l)).

Definition merge (l r : DataFrame) : DataFrame :=
  let keys := common_cols l r in
  let ps := merge_pairs l r keys in
  mkDF
    (map (fun p => nth (fst p) (df_time l) 0%Z) ps)
    (map (fun c => (fst c, map (fun p => nth (fst p) (snd c) nan) ps)) (df_cols l)
     ++ map (fun c => (fst c, map (fun p => nth (snd p) (snd c) nan) ps))
          (filter (fun c => negb (Py.mem (fst c) keys)) (df_cols r))).

End Pandas.

(** ** main.py *)

Module Main.

Import Pandas.
Local Open Scope float_scope.

Inductive dtype := datetime64_ns_UTC | float64 | category | uint64.

Definition column_dtypes : list (string * dtype) :=
  [ ("time", datetime64_ns_UTC);
    ("value", float64);
    ("field", category);
    ("robot_id", uint64);
    ("run_uuid", uint64);
    ("sensor_type", category) ].

Fixpoint dtype_of (c : string) (l : list (string * dtype)) : option dtype :=
  match l with
  | [] => None
  | (k, d) :: r => if String.eqb k c then Some d else dtype_of c r
  end.

(** Width in bits of an integer dtype. *)
Definition int_bits (d : dtype) : option N :=
  match d with
  | uint64 => Some 64%N
  | _ => None
  end.

(** A row of the long-format table.  The identifiers of the raw table are
    Python integers of any size. *)
Record Measurement := mkMeasurement {
  time : Z;
  value : float;
  field : string;
  robot_id : N;
  run_uuid : N;
  sensor_type : string
}.

(** [astype] of one integer cell: a Python integer that does not fit the
    fixed-width target raises OverflowError.  The casts of the time, value,
    field and sensor_type columns keep the cell as it is. *)
Definition astype_int (d : option dtype) (v : N) : option N :=
  match d with
  | Some uint64 => if (v <? 2 ^ 64)%N then Some v else None
  | _ => Some v
  end.

Definition preprocess_df (df : list Measurement) : option (list Measurement) :=
  mapM (fun r =>
          rid <- astype_int (dtype_of "robot_id" column_dtypes) (robot_id r) ;;
          uid <- astype_int (dtype_of "run_uuid" column_dtypes) (run_uuid r) ;;
          Some (mkMeasurement (time r) (value r) (field r) rid uid (sensor_type r)))
       df.

(** *** [pivot_table(index='time', columns=['field','robot_id'], values='value')] *)

Definition Key : Type := string * N.

Definition key_of (r : Measurement) : Key := (field r, robot_id r).

Definition key_compare (a b : Key) : comparison :=
  match String.compare (fst a) (fst b) with
  | Eq => N.compare (snd a) (snd b)
  | c => c
  end.

Definition same_group (t : Z) (k : Key) (r : Measurement) : bool :=
  Z.eqb (time r) t && String.eqb (field r) (fst k) && N.eqb (robot_id r) (snd k).

(** The values of the rows of one (time, field, robot_id) group, in row order. *)
Definition group_values (df : list Measurement) (t : Z) (k : Key) : list float :=
  map value (filter (same_group t k) df).

Definition float_of_nat (n : nat) : float := of_uint63 (Uint63.of_Z (Z.of_nat n)).

Definition count_obs (vs : list float) : nat :=
  List.length (filter (fun x => negb (is_nan x)) vs).

(** One step of the compensated (Kahan) sum of the group mean of pandas;
    a compensation that is NaN, as after an infinite value, is reset. *)
Definition kahan_step (st : float * float) (val : float) : float * float :=
  let '(sumx, compensation) := st in
  let y := val - compensation in
  let t := sumx + y in
  let c := t - sumx - y in
  (t, if is_nan c then 0 else c).

Definition kahan_sum (vs : list float) : float :=
  fst (fold_left kahan_step vs (0, 0)).

(** The default [aggfunc] of [pivot_table]: the mean of the observed values
    of the group, their compensated sum in row order over their number; NaN
    when there is none. *)
Definition mean (vs : list float) : float :=
  match count_obs vs with
  | O => nan
  | n => kahan_sum (filter (fun x => negb (is_nan x)) vs) / float_of_nat n
  end.

Fixpoint insert_uniq {A : Type} (cmp : A -> A -> comparison) (x : A) (l : list A)
  : list A :=
  match l with
  | [] => [x]
  | y :: r =>
      match cmp x y with
      | Lt => x :: l
      | Eq => l
      | Gt => y :: insert_uniq cmp x r
      end
  end.

(** Sorted distinct labels of an axis of the pivot. *)
Definition sort_uniq {A : Type} (cmp : A -> A -> comparison) (l : list A) : list A :=
  fold_right (insert_uniq cmp) [] l.

(** A group whose aggregate is NaN is dropped ([dropna=True]). *)
Definition group_kept (df : list Measurement) (r : Measurement) : bool :=
  negb (is_nan (mean (group_values df (time r) (key_of r)))).

Record Pivot := mkPivot {
  pv_index : list Z;
  pv_columns : list (Key * Series)
}.

Definition pivot_table (df : list Measurement) : Pivot :=
  let obs := filter (group_kept df) df in
  let times := sort_uniq Z.compare (map time obs) in
  let keys := sort_uniq key_compare (map key_of obs) in
  mkPivot times
    (map (fun k => (k, map (fun t => mean (group_values df t k)) times)) keys).

(** ['_'.join(map(str, col)).strip()] *)
Definition flat_name (k : Key) : string :=
  Py.strip (fst k ++ "_" ++ Py.str_of_N (snd k))%string.

(** The index of the pivot is already sorted, so [sort_index] keeps it;
    [reset_index] makes it the [time] column. *)
Definition convert_to_features (df : list Measurement) : DataFrame :=
  let wide_df := pivot_table df in
  mkDF (pv_index wide_df)
       (map (fun c => (flat_name (fst c), snd c)) (pv_columns wide_df)).

Definition match_timestamps_with_measurements (df : DataFrame) : DataFrame :=
  frame_bfill (frame_ffill df).

(** [s.unique()]: distinct values in order of first appearance. *)
Fixpoint unique_from (seen : list N) (l : list N) : list N :=
  match l with
  | [] => []
  | x :: r =>
      if existsb (N.eqb x) seen then unique_from seen r
      else x :: unique_from (x :: seen) r
  end.

Definition unique (l : list N) : list N := unique_from [] l.

(** [data[k] = v] on a Python dict, which keeps insertion order. *)
Fixpoint dict_set {V : Type} (k : N) (v : V) (d : list (N * V)) : list (N * V) :=
  match d with
  | [] => [(k, v)]
  | (k', v') :: r => if N.eqb k' k then (k', v) :: r else (k', v') :: dict_set k v r
  end.

Fixpoint dict_get {V : Type} (k : N) (d : list (N * V)) : option V :=
  match d with
  | [] => None
  | (k', v') :: r => if N.eqb k' k then Some v' else dict_get k r
  end.

Definition get_dfs_by_run_uuid (df : list Measurement)
  : list (N * list Measurement) :=
  fold_left
    (fun data uuid =>
       let data_df := filter (fun r => N.eqb (run_uuid r) uuid) df in
       dict_set uuid data_df data)
    (unique (map run_uuid df)) [].

End Main.

(** ** feature_engineering.py *)

Module FeatureEngineering.

Import Pandas.
Local Open Scope float_scope.

(** [df[cols].pow(2).sum(1).pow(0.5)]: the row-wise sum skips NaN, and the
    power 0.5 is the correctly rounded square root. *)
Definition get_vector_total (df : DataFrame) (cols : list string) : option Series :=
  cs <- mapM (get_col df) cols ;;
  let squares := map (map (fun x => x * x)) cs in
  Some (map PrimFloat.sqrt (sum_axis1 squares (nrows df))).

(** [((df[col] - df[col].shift(1)) / df['dt']).fillna(0)] *)
Definition get_variable_change_over_time (df : DataFrame) (col : string)
  : option Series :=
  x <- get_col df col ;;
  dt <- get_col df "dt" ;;
  Some (fillna 0 (series_div (series_sub x (shift1 x)) dt)).

(** [(df[col] - df[col].shift(1)).fillna(0)] *)
Definition get_variable_change (df : DataFrame) (col : string) : option Series :=
  x <- get_col df col ;;
  Some (fillna 0 (series_sub x (shift1 x))).

(** The two group lists of a transform, [*1cols] and [*2cols]. *)
Definition Groups : Type := list string * list string.

Definition classify (cur : string) (g : Groups) : Groups :=
  if Py.endswith cur "1" then (fst g ++ [cur], snd g)
  else if Py.endswith cur "2" then (fst g, snd g ++ [cur])
  else g.

(** [if cols: df[name] = get_vector_total(df, cols); cols.append(name)] *)
Definition add_total (name : string) (df : DataFrame) (cols : list string)
  : option (DataFrame * list string) :=
  match cols with
  | [] => Some (df, cols)
  | _ :: _ =>
      s <- get_vector_total df cols ;;
      Some (set_col df name s, cols ++ [name])
  end.

Definition is_force_col (col : string) : bool :=
  Py.startswith col "fx" || Py.startswith col "fy" || Py.startswith col "fz".

Definition is_position_col (col : string) : bool :=
  Py.startswith col "x" || Py.startswith col "y" || Py.startswith col "z".

Definition is_velocity_col (col : string) : bool :=
  Py.startswith col "vx" || Py.startswith col "vy" || Py.startswith col "vz".

(** ['f' + str(col)[1:]] *)
Definition force_name (col : string) : string := ("f" ++ Py.tail col)%string.

Definition force_step (g : Groups) (col : string) : Groups :=
  if is_force_col col then classify (force_name col) g else g.

(** Returns the argument frame as the call leaves it, and the frame the
    call returns. *)
Definition add_total_force_features (df : DataFrame)
  : option (DataFrame * DataFrame) :=
  let g := fold_left force_step (columns df) ([], []) in
  '(df1, f1cols) <- add_total "f1" df (fst g) ;;
  '(df2, f2cols) <- add_total "f2" df1 (snd g) ;;
  out <- select df2 (f1cols ++ f2cols) ;;
  Some (df2, out).

Definition velocity_step (st : DataFrame * Groups) (col : string)
  : option (DataFrame * Groups) :=
  if is_position_col col then
    let cur_vcol := ("v" ++ col)%string in
    s <- get_variable_change_over_time (fst st) col ;;
    Some (set_col (fst st) cur_vcol s, classify cur_vcol (snd st))
  else Some st.

Definition add_velocity_features (df : DataFrame)
  : option (DataFrame * DataFrame) :=
  st <- foldM velocity_step (columns df) (df, ([], [])) ;;
  '(df1, v1cols) <- add_total "v1" (fst st) (fst (snd st)) ;;
  '(df2, v2cols) <- add_total "v2" df1 (snd (snd st)) ;;
  out <- select df2 (v1cols ++ v2cols) ;;
  Some (df2, out).

Definition position_step (st : DataFrame * Groups) (col : string)
  : option (DataFrame * Groups) :=
  if is_position_col col then
    let cur_dcol := ("d" ++ col)%string in
    s <- get_variable_change (fst st) col ;;
    Some (set_col (fst st) cur_dcol s, classify cur_dcol (snd st))
  else Some st.

Definition add_position_change_features (df : DataFrame)
  : option (DataFrame * DataFrame) :=
  st <- foldM position_step (columns df) (df, ([], [])) ;;
  '(df1, d1cols) <- add_total "d1" (fst st) (fst (snd st)) ;;
  '(df2, d2cols) <- add_total "d2" df1 (snd (snd st)) ;;
  out <- select df2 (d1cols ++ d2cols) ;;
  Some (df2, out).

(** ['a' + str(col)[1:]] *)
Definition acceleration_name (col : string) : string :=
  ("a" ++ Py.tail col)%string.

Definition acceleration_step (st : DataFrame * Groups) (col : string)
  : option (DataFrame * Groups) :=
  if is_velocity_col col then
    let cur_acol := acceleration_name col in
    s <- get_variable_change_over_time (fst st) col ;;
    Some (set_col (fst st) cur_acol s, classify cur_acol (snd st))
  else Some st.

(** Returns its argument, which it has extended in place. *)
Definition add_acceleration_features (df : DataFrame) : option DataFrame :=
  st <- foldM acceleration_step (columns df) (df, ([], [])) ;;
  '(df1, _) <- add_total "a1" (fst st) (fst (snd st)) ;;
  '(df2, _) <- add_total "a2" df1 (snd (snd st)) ;;
  Some df2.

(** [db.from_sequence(funcs).map(lambda func: func(df))], computed by the
    process pool: every call is pickled with the frame it closes over, so
    [func] runs on a copy of [df]; the frame the call leaves behind is
    dropped with the worker's copy, and only the frame the call returns
    comes back. *)
Definition bag_map
    (funcs : list (DataFrame -> option (DataFrame * DataFrame)))
    (df : DataFrame) : option (list DataFrame) :=
  mapM (fun func => r <- func df ;; Some (snd r)) funcs.

Section Engineered.

(** [datetime.timestamp]: seconds since the epoch of a time stamp. *)
Variable timestamp : Z -> float.

Definition add_engineered_features (df : DataFrame) : option DataFrame :=
  let df0 := set_col df "timestamp" (map timestamp (df_time df)) in
  ts <- get_col df0 "timestamp" ;;
  let df1 := set_col df0 "dt" (series_sub ts (shift1 ts)) in
  r <- bag_map
         [add_velocity_features; add_total_force_features;
          add_position_change_features] df1 ;;
  match r with
  | [vdf; adf; pdf] =>
      let vadf := merge vdf adf in
      let vapdf := merge vadf pdf in
      add_acceleration_features (merge df1 vapdf)
  | _ => None
  end.

End Engineered.

End FeatureEngineering.

(** ** Predicates used to state and prove the properties *)

Module Aux.

(** A float that is not NaN and carries the sign bit [s]. *)
Definition sf_sign_ok (s : bool) (x : spec_float) : Prop :=
  match x with
  | S754_zero s' | S754_infinity s' | S754_finite s' _ _ => s' = s
  | S754_nan => False
  end.

(** The row belongs to run [k]. *)
Definition has_run (k : N) (r : Main.Measurement) : bool := N.eqb (Main.run_uuid r) k.

(** No cell of the series is unobserved. *)
Definition no_nan (s : list float) : bool := forallb (fun x => negb (is_nan x)) s.

(** Every cell of the series is unobserved. *)
Definition all_nan (s : list float) : bool := forallb is_nan s.

(** Unobserved cells first, observed cells after them. *)
Fixpoint nan_prefix (s : list float) : bool :=
  match s with
  | [] => true
  | x :: r => if is_nan x then nan_prefix r else no_nan r
  end.

End Aux.

(** ** Relations between frames *)

Module Frames.

Import Pandas FeatureEngineering.

(** The float column names of a frame, in order. *)
Definition names (df : DataFrame) : list string := map fst (df_cols df).

(** Every column has one cell per row. *)
Definition wf (df : DataFrame) : Prop :=
  Forall (fun c => List.length (snd c) = nrows df) (df_cols df).

(** [df'] is [df] after assignments to columns named in [W]: same rows, the
    old column names first and in their order, every column outside [W]
    untouched. *)
Definition ext (W : string -> bool) (df df' : DataFrame) : Prop :=
  df_time df' = df_time df /\
  wf df' /\
  (exists extra, names df' = names df ++ extra /\ Forall (fun c => W c = true) extra) /\
  (forall c, W c = false -> get_col df' c = get_col df c).

(** [out] is a selection of columns of [ref]. *)
Definition sel (out ref : DataFrame) : Prop :=
  df_time out = df_time ref /\
  wf out /\
  forall c s, get_col out c = Some s -> get_col ref c = Some s.

(** Columns of the same name hold the same cells in both frames. *)
Definition agrees (l r : DataFrame) : Prop :=
  forall k s s', get_col l k = Some s -> get_col r k = Some s' -> s = s'.

(** The shape shared by the per-column loops of the velocity, position and
    acceleration transforms. *)
Definition derive_step (P : string -> bool) (R : string -> string)
    (F : DataFrame -> string -> option Series)
    (st : DataFrame * Groups) (col : string) : option (DataFrame * Groups) :=
  if P col then
    s <- F (fst st) col ;;
    Some (set_col (fst st) (R col) s, classify (R col) (snd st))
  else Some st.

(** The shape shared by the velocity and the position transform: the loop,
    the two magnitudes, the selection. *)
Definition derive_transform (P : string -> bool) (R : string -> string)
    (F : DataFrame -> string -> option Series) (n1 n2 : string)
    (df : DataFrame) : option (DataFrame * DataFrame) :=
  st <- foldM (derive_step P R F) (columns df) (df, ([], [])) ;;
  '(df1, c1) <- add_total n1 (fst st) (fst (snd st)) ;;
  '(df2, c2) <- add_total n2 df1 (snd (snd st)) ;;
  out <- select df2 (c1 ++ c2) ;;
  Some (df2, out).

(** The names a transform files under group 1 and under group 2. *)
Definition group1 (ns : list string) : list string :=
  filter (fun n => Py.endswith n "1") ns.

Definition group2 (ns : list string) : list string :=
  filter (fun n => negb (Py.endswith n "1") && Py.endswith n "2") ns.

(** A group list after [add_total]: the magnitude name comes last. *)
Definition with_total (name : string) (cols : list string) : list string :=
  match cols with
  | [] => []
  | _ :: _ => cols ++ [name]
  end.

(** The columns of the output of a transform that derives [ns]. *)
Definition grouped (n1 n2 : string) (ns : list string) : list string :=
  with_total n1 (group1 ns) ++ with_total n2 (group2 ns).

(** The frame after stage 1: the [timestamp] and [dt] columns are set. *)
Definition with_clock (timestamp : Z -> float) (df : DataFrame) : DataFrame :=
  let ts := map timestamp (df_time df) in
  set_col (set_col df "timestamp" ts) "dt" (series_sub ts (shift1 ts)).

(** The three transforms of stage 2, in the order of the bag. *)
Definition stage2_transforms : list (DataFrame -> option (DataFrame * DataFrame)) :=
  [add_velocity_features; add_total_force_features; add_position_change_features].

(** The columns stage 2 derives from the columns of the input frame. *)
Definition velocity_names (df : DataFrame) : list string :=
  map (String.append "v") (filter is_position_col (names df)).

Definition delta_names (df : DataFrame) : list string :=
  map (String.append "d") (filter is_position_col (names df)).

Definition force_cols (df : DataFrame) : list string :=
  filter is_force_col (names df).

(** The names each stage may assign. *)
Definition W_time (c : string) : bool :=
  String.eqb c "timestamp" || String.eqb c "dt".

Definition W_velocity (c : string) : bool := Py.startswith c "v".

Definition W_force (c : string) : bool := String.eqb c "f1" || String.eqb c "f2".

Definition W_delta (c : string) : bool :=
  Py.startswith c "d" && negb (String.eqb c "dt").

Definition W_acceleration (c : string) : bool := Py.startswith c "a".

Definition W_stage2 (c : string) : bool :=
  W_velocity c || W_force c || W_delta c.

(** The magnitude names of the non-empty groups of [ns]. *)
Definition totals (n1 n2 : string) (ns : list string) : list string :=
  match group1 ns with [] => [] | _ :: _ => [n1] end ++
  match group2 ns with [] => [] | _ :: _ => [n2] end.

(** The columns the deriver adds to a frame with the columns of [df]: the
    two clock columns, the grouped velocities with their magnitudes, the
    force magnitudes, the grouped position deltas with theirs, and the
    accelerations of every velocity column of the merged frame with
    theirs. *)
Definition derived_names (df : DataFrame) : list string :=
  let V := grouped "v1" "v2" (velocity_names df) in
  let A := map acceleration_name (filter is_velocity_col (names df ++ V)) in
  ["timestamp"; "dt"] ++ V ++ totals "f1" "f2" (force_cols df) ++
  grouped "d1" "d2" (delta_names df) ++ A ++ totals "a1" "a2" A.

End Frames.

(** ** Reading a cell of the pivot *)

Module Pivots.

Import Pandas Main.

Definition key_eqb (a b : Key) : bool :=
  String.eqb (fst a) (fst b) && N.eqb (snd a) (snd b).

Fixpoint index_of (t : Z) (l : list Z) : option nat :=
  match l with
  | [] => None
  | x :: r => if Z.eqb x t then Some O else option_map S (index_of t r)
  end.

Fixpoint lookup_key (k : Key) (l : list (Key * Series)) : option Series :=
  match l with
  | [] => None
  | (k', s) :: r => if key_eqb k' k then Some s else lookup_key k r
  end.

(** The cell of the pivot in the row of time [t] and the column of key [k]. *)
Definition pivot_cell (p : Pivot) (t : Z) (k : Key) : option float :=
  s <- lookup_key k (pv_columns p) ;;
  i <- index_of t (pv_index p) ;;
  nth_error s i.

End Pivots.

(** ** Concrete frames and tables used as test inputs *)

Module Examples.

Import Pandas Main.
Local Open Scope float_scope.

Definition frame_two_rows : DataFrame :=
  mkDF [0%Z; 1%Z] [("x_1", [7; 9]); ("dt", [5; 1])].

(** Two rows with the same time stamp: [dt] is 0 on the second. *)
Definition frame_zero_dt : DataFrame :=
  mkDF [0%Z; 0%Z] [("x_1", [1; 3]); ("dt", [nan; 0])].

(** A tiny force value and an unobserved one. *)
Definition frame_tiny_force : DataFrame :=
  mkDF [0%Z; 1%Z] [("fx_1", [0x1p-600; nan])].

(** The force vector (3, 4, 0), then the zero vector. *)
Definition frame_force_345 : DataFrame :=
  mkDF [0%Z; 1%Z] [("fx_1", [3; 0]); ("fy_1", [4; 0]); ("fz_1", [0; 0])].

(** One measurement of a run whose id needs 65 bits, and one that fits 64. *)
Definition row_wide_run : Measurement :=
  mkMeasurement 0 1 "x" 1 (2 ^ 64) "encoder".

Definition row_narrow_run : Measurement :=
  mkMeasurement 0 1 "x" 1 (2 ^ 64 - 1) "encoder".

(** A clock for the examples: the time stamp read as whole seconds. *)
Definition seconds (t : Z) : float := PrimFloat.of_uint63 (Uint63.of_Z t).

(** A run with a measured position [x] and a measured field named [vx] of
    the same robot. *)
Definition frame_collision : DataFrame :=
  mkDF [0%Z; 1%Z] [("x_1", [1; 2]); ("vx_1", [5; 5])].

(** A run with two position axes, two force axes and a position column of
    a third robot. *)
Definition frame_run : DataFrame :=
  mkDF [0%Z; 1%Z; 2%Z]
       [("x_1", [1; 2; 4]); ("y_1", [0; 0; 3]);
        ("fx_1", [3; 3; 3]); ("fy_1", [4; 4; 4]); ("x_3", [1; 1; 1])].

(** Three measurements of one (time, field, robot) cell, in two orders. *)
Definition cell_rows_a : list Measurement :=
  [ mkMeasurement 0 1e16 "x" 1 7 "encoder";
    mkMeasurement 0 1 "x" 1 7 "encoder";
    mkMeasurement 0 (-1e16) "x" 1 7 "encoder" ].

Definition cell_rows_b : list Measurement :=
  [ mkMeasurement 0 1e16 "x" 1 7 "encoder";
    mkMeasurement 0 (-1e16) "x" 1 7 "encoder";
    mkMeasurement 0 1 "x" 1 7 "encoder" ].

(** Two measurements of one cell: 1, then 3. *)
Definition cell_rows_13 : list Measurement :=
  [ mkMeasurement 0 1 "x" 1 7 "encoder";
    mkMeasurement 0 3 "x" 1 7 "encoder" ].

End Examples.


(** ** main.py, continued: the run summary and the pipeline of [main] *)

Module Pipeline.

Import Pandas Main FeatureEngineering.
Local Open Scope float_scope.

(** [s.min()] and [s.max()] of the time column; [None] is NaT, the result
    on a column without rows. *)
Definition series_min (l : list Z) : option Z :=
  match l with
  | [] => None
  | t :: r => Some (fold_left Z.min r t)
  end.

Definition series_max (l : list Z) : option Z :=
  match l with
  | [] => None
  | t :: r => Some (fold_left Z.max r t)
  end.

Record RunStats := mkRunStats {
  stats_run_uuid : N;
  run_start_time : string;
  run_end_time : string;
  total_run_time : float;
  total_distance_1 : float;
  total_distance_2 : float
}.

(** [df[name].abs().sum() if name in df.columns else 0] *)
Definition total_distance (df : DataFrame) (name : string) : option float :=
  if Py.mem name (columns df) then
    s <- get_col df name ;;
    Some (nansum (map PrimFloat.abs s))
  else Some 0.


Section Run.

(** [datetime.timestamp], [Timedelta.total_seconds] on a number of
    nanoseconds, and [Timestamp.isoformat]. *)
Variable timestamp : Z -> float.
Variable total_seconds : Z -> float.
Variable isoformat : Z -> string.

(** [isoformat] of a time stamp or of NaT. *)
Definition isoformat_or_nat (t : option Z) : string :=
  match t with
  | Some z => isoformat z
  | None => "NaT"
  end.

Definition calculate_run_stats (input_data : N * DataFrame) : option RunStats :=
  let run_uuid := fst input_data in
  let run_uuid_df := snd input_data in
  let start_time := series_min (df_time run_uuid_df) in
  let end_time := series_max (df_time run_uuid_df) in
  let run_time :=
    match start_time, end_time with
    | Some a, Some b => total_seconds (b - a)
    | _, _ => nan
    end in
  d1 <- total_distance run_uuid_df "d1" ;;
  d2 <- total_distance run_uuid_df "d2" ;;
  Some (mkRunStats run_uuid (isoformat_or_nat start_time)
          (isoformat_or_nat end_time) run_time d1 d2).



End Run.

End Pipeline.

(** ** More test inputs *)

Module MoreExamples.

Import Pandas Main.
Local Open Scope float_scope.

(** A frame with gaps: a column observed in the middle only, one observed
    nowhere. *)
Definition frame_gaps : DataFrame :=
  mkDF [0%Z; 1%Z; 2%Z; 3%Z]
       [("x_1", [nan; 2; nan; 5]); ("y_1", [nan; nan; nan; nan])].

(** A frame after stage 1, with one position column. *)
Definition frame_clocked : DataFrame :=
  mkDF [0%Z; 1%Z; 2%Z]
       [("x_1", [1; 2; 4]); ("y_2", [0; 0; 3]); ("dt", [nan; 1; 1])].

(** A frame with velocity columns and [dt]. *)
Definition frame_velocity : DataFrame :=
  mkDF [0%Z; 1%Z; 2%Z]
       [("vx_1", [0; 1; 2]); ("vy_1", [0; 0; 3]); ("dt", [nan; 1; 1])].

(** A frame with a distance column. *)
Definition frame_distance : DataFrame :=
  mkDF [5%Z; 7%Z; 6%Z] [("d1", [0; 1; nan])].

(** A run whose measured fields include names that begin with [d], [a] and
    [v] without being derived columns. *)
Definition frame_depth : DataFrame :=
  mkDF [0%Z; 1%Z; 2%Z]
       [("x_1", [1; 2; 4]); ("y_2", [0; 0; 3]); ("fx_1", [3; 3; 3]);
        ("depth_1", [5; 6; 7]); ("angle_1", [1; 1; 1]); ("volt_2", [9; 9; 9])].

(** Measurements of two runs. *)
Definition table_two_runs : list Measurement :=
  [ mkMeasurement 10 1 "x" 1 7 "encoder";
    mkMeasurement 20 2 "x" 1 8 "encoder";
    mkMeasurement 30 3 "y" 1 7 "encoder" ].

End MoreExamples.
(** * Properties *)

Import Pandas Main FeatureEngineering Aux Frames Pivots Examples.
Local Open Scope float_scope.

(** ** Facts on binary64 arithmetic *)

Section FloatFacts.

Lemma SFeqb_refl (x : spec_float) : x <> S754_nan -> SFeqb x x = true.
Proof.
  destruct x as [s|s| |s m e]; intros H; try congruence; unfold SFeqb; simpl.
  - reflexivity.
  - destruct s; reflexivity.
  - destruct s; rewrite Z.compare_refl, Pos.compare_cont_refl; reflexivity.
Qed.

Lemma is_nan_Prim2SF (x : float) : is_nan x = true <-> Prim2SF x = S754_nan.
Proof.
  unfold is_nan. rewrite FloatAxioms.eqb_spec. split.
  - intros H. destruct (Prim2SF x) eqn:E; try reflexivity;
      rewrite SFeqb_refl in H by discriminate; discriminate.
  - intros ->. reflexivity.
Qed.

Lemma Prim2SF_inj (x y : float) : Prim2SF x = Prim2SF y -> x = y.
Proof.
  intros H. rewrite <- (SF2Prim_Prim2SF x), <- (SF2Prim_Prim2SF y), H. reflexivity.
Qed.

Lemma eqb_zero_Prim2SF (d : float) :
  (d =? 0) = true -> exists s, Prim2SF d = S754_zero s.
Proof.
  rewrite FloatAxioms.eqb_spec. change (Prim2SF 0) with (S754_zero false).
  destruct (Prim2SF d) as [s|s| |s m e]; unfold SFeqb; simpl; intros H;
    try discriminate; try (destruct s; discriminate).
  exists s; reflexivity.
Qed.

Lemma shr_1_nonneg mrs : (0 <= shr_m mrs)%Z -> (0 <= shr_m (shr_1 mrs))%Z.
Proof.
  destruct mrs as [m r s]; simpl. destruct m as [|p|p]; simpl; try lia.
  - destruct p; simpl; lia.
Qed.

Lemma iter_pos_inv {A : Type} (P : A -> Prop) (f : A -> A) :
  (forall a, P a -> P (f a)) -> forall p a, P a -> P (SpecFloat.iter_pos f p a).
Proof.
  intros Hf p. induction p as [p IH|p IH|]; intros a Ha; simpl; auto.
Qed.

Lemma shr_fexp_nonneg m e l :
  (0 <= m)%Z -> (0 <= shr_m (fst (shr_fexp prec emax m e l)))%Z.
Proof.
  intros Hm. unfold shr_fexp, shr.
  assert (H0 : (0 <= shr_m (shr_record_of_loc m l))%Z).
  { destruct l as [|[| |]]; simpl; exact Hm. }
  destruct (_ - e)%Z; simpl; auto.
  apply (iter_pos_inv (fun r => (0 <= shr_m r)%Z)); auto using shr_1_nonneg.
Qed.

Lemma round_nearest_even_nonneg m l :
  (0 <= m)%Z -> (0 <= round_nearest_even m l)%Z.
Proof.
  intros Hm. destruct l as [|[| |]]; simpl; try lia.
  destruct (Z.even m); lia.
Qed.

Lemma binary_round_aux_sign s m e l :
  (0 <= m)%Z -> sf_sign_ok s (binary_round_aux prec emax s m e l).
Proof.
  intros Hm. unfold binary_round_aux.
  pose proof (shr_fexp_nonneg m e l Hm) as H1.
  destruct (shr_fexp prec emax m e l) as [mrs' e'] eqn:E1. simpl in H1.
  pose proof (shr_fexp_nonneg _ e' loc_Exact
                (round_nearest_even_nonneg _ (loc_of_shr_record mrs') H1)) as H2.
  destruct (shr_fexp prec emax (round_nearest_even _ _) e' loc_Exact)
    as [mrs'' e''] eqn:E2. simpl in H2.
  destruct (shr_m mrs'') as [|p|p]; [exact eq_refl | | lia].
  destruct (e'' <=? emax - prec)%Z; exact eq_refl.
Qed.

Lemma binary_round_sign s m e : sf_sign_ok s (binary_round prec emax s m e).
Proof.
  unfold binary_round. destruct (shl_align _ _ _) as [mz ez].
  apply binary_round_aux_sign. lia.
Qed.

Lemma SFmul_self_sign x :
  x <> S754_nan -> sf_sign_ok false (SF64mul x x).
Proof.
  destruct x as [s|s| |s m e]; intros H; simpl; try congruence;
    try exact eq_refl; try (destruct s; exact eq_refl).
  replace (xorb s s) with false by (destruct s; reflexivity).
  apply binary_round_aux_sign. lia.
Qed.

Lemma SFadd_sign x y :
  sf_sign_ok false x -> sf_sign_ok false y -> sf_sign_ok false (SF64add x y).
Proof.
  destruct x as [s|s| |s m e], y as [s'|s'| |s' m' e']; simpl;
    intros Hx Hy; subst; try contradiction; try exact eq_refl.
  unfold SF64add, SFadd, cond_Zopp.
  destruct (shl_align m _ _) as [a ?], (shl_align m' _ _) as [b ?].
  apply binary_round_sign.
Qed.

Lemma SFsqrt_sign x : sf_sign_ok false x -> sf_sign_ok false (SF64sqrt x).
Proof.
  destruct x as [s|s| |s m e]; simpl; intros Hx; subst; try contradiction;
    try exact eq_refl.
  unfold SFsqrt_core_binary.
  set (m' := match _ with Z0 => _ | Zpos _ => _ | Zneg _ => _ end).
  pose proof (Z.sqrtrem_sqrt m') as Hq. pose proof (Z.sqrt_nonneg m') as Hn.
  destruct (Z.sqrtrem m') as [q r]. simpl in Hq. subst q.
  apply binary_round_aux_sign. exact Hn.
Qed.

End FloatFacts.

Lemma is_zero_Prim2SF (d : float) :
  is_zero d = true <-> exists s, Prim2SF d = S754_zero s.
Proof.
  split.
  - apply eqb_zero_Prim2SF.
  - intros [s Hs]. unfold is_zero. rewrite FloatAxioms.eqb_spec, Hs. reflexivity.
Qed.

Lemma is_nan_false_Prim2SF (x : float) :
  is_nan x = false <-> Prim2SF x <> S754_nan.
Proof.
  rewrite <- is_nan_Prim2SF. destruct (is_nan x); split; congruence.
Qed.

Lemma sub_nan_r (x : float) : is_nan (x - nan) = true.
Proof.
  apply is_nan_Prim2SF. rewrite sub_spec.
  change (Prim2SF nan) with S754_nan. destruct (Prim2SF x); reflexivity.
Qed.

Lemma div_nan_l (n d : float) : is_nan n = true -> is_nan (n / d) = true.
Proof.
  intros H. apply is_nan_Prim2SF in H. apply is_nan_Prim2SF.
  rewrite div_spec, H. reflexivity.
Qed.

(** Division by a zero: NaN for a zero or NaN numerator, an infinity for
    every other one. *)
Lemma div_by_zero (n d : float) :
  (d =? 0) = true ->
  (is_nan n || is_zero n = true /\ is_nan (n / d) = true) \/
  (is_nan n || is_zero n = false /\ is_nan (n / d) = false /\
   is_infinity (n / d) = true).
Proof.
  intros Hd. apply eqb_zero_Prim2SF in Hd. destruct Hd as [s Hs].
  destruct (Prim2SF n) as [sn|sn| |sn m e] eqn:En.
  - left. split.
    + replace (is_zero n) with true; [apply orb_true_r|].
      symmetry. apply is_zero_Prim2SF. eauto.
    + apply is_nan_Prim2SF. rewrite div_spec, En, Hs. reflexivity.
  - right. assert (Hq : Prim2SF (n / d) = S754_infinity (xorb sn s)).
    { rewrite div_spec, En, Hs. reflexivity. }
    repeat split.
    + apply orb_false_iff. split.
      * apply is_nan_false_Prim2SF. congruence.
      * destruct (is_zero n) eqn:Z; [|reflexivity].
        apply is_zero_Prim2SF in Z. destruct Z; congruence.
    + apply is_nan_false_Prim2SF. congruence.
    + unfold is_infinity. rewrite FloatAxioms.eqb_spec, abs_spec, Hq. reflexivity.
  - left. split.
    + replace (is_nan n) with true; [reflexivity|].
      symmetry. apply is_nan_Prim2SF. exact En.
    + apply is_nan_Prim2SF. rewrite div_spec, En. reflexivity.
  - right. assert (Hq : Prim2SF (n / d) = S754_infinity (xorb sn s)).
    { rewrite div_spec, En, Hs. reflexivity. }
    repeat split.
    + apply orb_false_iff. split.
      * apply is_nan_false_Prim2SF. congruence.
      * destruct (is_zero n) eqn:Z; [|reflexivity].
        apply is_zero_Prim2SF in Z. destruct Z; congruence.
    + apply is_nan_false_Prim2SF. congruence.
    + unfold is_infinity. rewrite FloatAxioms.eqb_spec, abs_spec, Hq. reflexivity.
Qed.

(** ** Facts on series *)

Lemma nth_error_map2 {A B C : Type} (f : A -> B -> C) (a : list A) (b : list B)
    (i : nat) (x : A) (y : B) :
  nth_error a i = Some x -> nth_error b i = Some y ->
  nth_error (map2 f a b) i = Some (f x y).
Proof.
  revert b i. induction a as [|x' a IH]; intros [|y' b] [|i]; simpl;
    intros Ha Hb; try discriminate.
  - congruence.
  - apply IH; assumption.
Qed.

Lemma nth_error_removelast {A : Type} (l : list A) (i : nat) :
  S i < List.length l -> nth_error (removelast l) i = nth_error l i.
Proof.
  revert i. induction l as [|a l IH]; intros i H; simpl in *; [lia|].
  destruct l as [|b l]; [simpl in H; lia|].
  destruct i as [|i]; [reflexivity|].
  simpl. apply IH. simpl in *. lia.
Qed.

Lemma nth_error_shift1 (s : Series) (i : nat) :
  i < List.length s ->
  nth_error (shift1 s) i =
  match i with
  | O => Some nan
  | S j => nth_error s j
  end.
Proof.
  destruct s as [|a s]; simpl; [lia|]. intros H.
  destruct i as [|j]; [reflexivity|].
  change (nth_error (removelast (a :: s)) j = nth_error (a :: s) j).
  apply nth_error_removelast. simpl. lia.
Qed.

Lemma nth_error_Some_lt {A : Type} (l : list A) (i : nat) (x : A) :
  nth_error l i = Some x -> i < List.length l.
Proof. intros H. apply nth_error_Some. congruence. Qed.

Lemma nth_error_fillna (v : float) (s : Series) (i : nat) (x : float) :
  nth_error s i = Some x ->
  nth_error (fillna v s) i = Some (if is_nan x then v else x).
Proof. intros H. unfold fillna. rewrite nth_error_map, H. reflexivity. Qed.

(** Every row of the normalized delta is the quotient of the step by [dt],
    with NaN replaced by 0. *)
Lemma change_over_time_row (df : DataFrame) (col : string) (x dts : Series)
    (i : nat) (xi di : float) :
  get_col df col = Some x ->
  get_col df "dt" = Some dts ->
  nth_error x i = Some xi ->
  nth_error dts i = Some di ->
  exists s p,
    get_variable_change_over_time df col = Some s /\
    nth_error (shift1 x) i = Some p /\
    nth_error s i =
      Some (if is_nan ((xi - p) / di) then 0 else (xi - p) / di).
Proof.
  intros Hx Hd Hxi Hdi. unfold get_variable_change_over_time.
  rewrite Hx, Hd. simpl.
  assert (Hp : exists p, nth_error (shift1 x) i = Some p).
  { rewrite nth_error_shift1 by (eapply nth_error_Some_lt; eauto).
    destruct i as [|j]; [eauto|].
    destruct (nth_error x j) eqn:E; [eauto|].
    apply nth_error_None in E. apply nth_error_Some_lt in Hxi. lia. }
  destruct Hp as [p Hp]. eexists; exists p. split; [reflexivity|]. split; [exact Hp|].
  apply nth_error_fillna. unfold series_div, series_sub.
  apply nth_error_map2; [|exact Hdi]. apply nth_error_map2; assumption.
Qed.

(** ** Temporal delta *)

(** C7: on the first row the temporal delta is 0, whatever the column holds
    and whatever the first entry of [dt] is; the call succeeds as soon as the
    two columns exist. *)
Theorem temporal_delta_first_row_zero
    (df : DataFrame) (col : string) (x0 d0 : float) (xs ds : Series) :
  get_col df col = Some (x0 :: xs) ->
  get_col df "dt" = Some (d0 :: ds) ->
  exists s,
    get_variable_change_over_time df col = Some s /\
    nth_error s 0 = Some 0.
Proof.
  intros Hx Hd.
  destruct (change_over_time_row df col _ _ 0 x0 d0 Hx Hd eq_refl eq_refl)
    as (s & p & Hs & Hp & Hr).
  exists s. split; [exact Hs|]. rewrite Hr.
  simpl in Hp. injection Hp as <-.
  rewrite (div_nan_l _ d0 (sub_nan_r x0)). reflexivity.
Qed.

Lemma temporal_delta_first_row_zero_witness :
  exists s,
    get_variable_change_over_time frame_two_rows "x_1" = Some s /\
    nth_error s 0 = Some 0.
Proof.
  apply (temporal_delta_first_row_zero frame_two_rows "x_1" 7 5 [9] [1]);
    reflexivity.
Defined.

(** C2 (as stated, refuted): on the second row of [frame_zero_dt] the value
    of [dt] is 0 and the normalized delta is [+infinity], not 0. *)
Lemma temporal_delta_zero_dt_counterexample :
  get_col frame_zero_dt "dt" = Some [nan; 0] /\
  get_variable_change_over_time frame_zero_dt "x_1" = Some [0; infinity] /\
  (infinity =? 0) = false.
Proof. repeat split. Qed.

(** C2 (amended): on a row whose [dt] is 0 the normalized delta is 0 when
    the step from the previous row is 0 or NaN (the first row included), and
    an infinity for every other step. *)
Theorem temporal_delta_zero_dt
    (df : DataFrame) (col : string) (x dts : Series) (i : nat) (xi di : float) :
  get_col df col = Some x ->
  get_col df "dt" = Some dts ->
  nth_error x i = Some xi ->
  nth_error dts i = Some di ->
  (di =? 0) = true ->
  exists s p r,
    get_variable_change_over_time df col = Some s /\
    nth_error (shift1 x) i = Some p /\
    nth_error s i = Some r /\
    (is_nan (xi - p) || is_zero (xi - p) = true -> r = 0) /\
    (is_nan (xi - p) || is_zero (xi - p) = false -> is_infinity r = true).
Proof.
  intros Hx Hd Hxi Hdi Hz.
  destruct (change_over_time_row df col x dts i xi di Hx Hd Hxi Hdi)
    as (s & p & Hs & Hp & Hr).
  exists s, p, (if is_nan ((xi - p) / di) then 0 else (xi - p) / di).
  repeat split; [exact Hs | exact Hp | exact Hr | |].
  - intros Hstep.
    destruct (div_by_zero (xi - p) di Hz) as [[_ Hn]|[Hc _]].
    + rewrite Hn. reflexivity.
    + congruence.
  - intros Hstep.
    destruct (div_by_zero (xi - p) di Hz) as [[Hc _]|[_ [Hn Hi]]].
    + congruence.
    + rewrite Hn. exact Hi.
Qed.

Lemma temporal_delta_zero_dt_witness :
  exists s p r,
    get_variable_change_over_time frame_zero_dt "x_1" = Some s /\
    nth_error (shift1 [1; 3]) 1 = Some p /\
    nth_error s 1 = Some r /\
    (is_nan (3 - p) || is_zero (3 - p) = true -> r = 0) /\
    (is_nan (3 - p) || is_zero (3 - p) = false -> is_infinity r = true).
Proof.
  apply (temporal_delta_zero_dt frame_zero_dt "x_1" [1; 3] [nan; 0] 1 3 0);
    reflexivity.
Defined.

(** ** Vector magnitude *)

Lemma square_sign (x : float) :
  sf_sign_ok false (Prim2SF (x * x)) \/ is_nan (x * x) = true.
Proof.
  destruct (Prim2SF x) eqn:E.
  1,2,4: left; rewrite mul_spec; apply SFmul_self_sign; rewrite E; discriminate.
  right. apply is_nan_Prim2SF. rewrite mul_spec, E. reflexivity.
Qed.

Lemma skipna_sign (v : float) :
  sf_sign_ok false (Prim2SF v) \/ is_nan v = true ->
  sf_sign_ok false (Prim2SF (if is_nan v then 0 else v)).
Proof.
  intros [H|H].
  - destruct (is_nan v) eqn:E; [exact eq_refl | exact H].
  - rewrite H. exact eq_refl.
Qed.

Lemma nth_map_seq {A : Type} (f : nat -> A) (n i : nat) (d : A) :
  i < n -> nth i (map f (seq 0 n)) d = f i.
Proof.
  intros H. rewrite (nth_indep _ d (f 0%nat)) by (rewrite length_map, length_seq; exact H).
  rewrite map_nth, seq_nth by exact H. reflexivity.
Qed.

(** A property of floats that holds of 0 and is kept by addition holds of
    every sum numpy forms, in whatever order it adds. *)
Section SumClosed.

Variable P : float -> Prop.
Hypothesis P_zero : P 0.
Hypothesis P_add : forall x y, P x -> P y -> P (x + y).

Lemma fold_add_closed (vs : list float) (acc : float) :
  P acc -> Forall P vs -> P (fold_left PrimFloat.add vs acc).
Proof.
  revert acc. induction vs as [|v vs IH]; intros acc Ha Hv; simpl; [exact Ha|].
  inversion Hv as [|? ? Hv1 Hv2]; subst. apply IH; [|exact Hv2].
  apply P_add; assumption.
Qed.

Lemma pairwise_unrolled_closed (n : nat) :
  forall (a : list float) (r0 r1 r2 r3 r4 r5 r6 r7 : float),
    (List.length a <= n)%nat ->
    P r0 -> P r1 -> P r2 -> P r3 -> P r4 -> P r5 -> P r6 -> P r7 ->
    Forall P a ->
    P (pairwise_unrolled (r0, r1, r2, r3, r4, r5, r6, r7) a).
Proof.
  induction n as [|n IH]; intros a r0 r1 r2 r3 r4 r5 r6 r7 Hn
    H0 H1 H2 H3 H4 H5 H6 H7 Ha.
  - destruct a; [|simpl in Hn; lia]. simpl. auto.
  - destruct a as [|a0 [|a1 [|a2 [|a3 [|a4 [|a5 [|a6 [|a7 rest]]]]]]]];
      try (cbn [pairwise_unrolled]; apply fold_add_closed; auto).
    cbn [pairwise_unrolled].
    repeat match goal with
           | H : Forall P (_ :: _) |- _ =>
               let Hx := fresh "Hx" in
               inversion H as [|? ? Hx ?]; subst; clear H
           end.
    apply IH; auto. simpl in Hn. lia.
Qed.

Lemma pairwise_block_closed (a : list float) :
  Forall P a -> P (pairwise_block a).
Proof.
  intros Ha. unfold pairwise_block.
  destruct a as [|a0 [|a1 [|a2 [|a3 [|a4 [|a5 [|a6 [|a7 rest]]]]]]]];
    try (apply fold_add_closed; auto).
  repeat match goal with
         | H : Forall P (_ :: _) |- _ =>
             let Hx := fresh "Hx" in
             inversion H as [|? ? Hx ?]; subst; clear H
         end.
  apply (pairwise_unrolled_closed (List.length rest)); auto.
Qed.

Lemma Forall_split {A : Type} (Q : A -> Prop) (n : nat) (l : list A) :
  Forall Q l -> Forall Q (firstn n l) /\ Forall Q (skipn n l).
Proof. intros H. apply Forall_app. rewrite firstn_skipn. exact H. Qed.

Lemma pairwise_sum_fuel_closed (fuel : nat) :
  forall a, Forall P a -> P (pairwise_sum_fuel fuel a).
Proof.
  induction fuel as [|fuel IH]; intros a Ha; cbn [pairwise_sum_fuel].
  - apply pairwise_block_closed, Ha.
  - destruct (PW_BLOCKSIZE <? List.length a)%nat.
    + apply P_add; apply IH; apply (Forall_split P _ a Ha).
    + apply pairwise_block_closed, Ha.
Qed.

Lemma np_sum_closed (a : list float) : Forall P a -> P (np_sum a).
Proof.
  intros Ha. unfold np_sum, pairwise_sum. apply P_add; [exact P_zero|].
  apply pairwise_sum_fuel_closed, Ha.
Qed.

Lemma sum_axis1_closed (cs : list Series) (n i : nat) :
  (i < n)%nat ->
  Forall P (fillna 0 (row_values cs i)) ->
  P (nth i (sum_axis1 cs n) nan).
Proof.
  intros Hi Hv. unfold sum_axis1. cbv zeta. rewrite nth_map_seq by exact Hi.
  destruct (_ || _).
  - apply np_sum_closed, Hv.
  - apply fold_add_closed; [exact P_zero | exact Hv].
Qed.

End SumClosed.

Lemma add_sign (x y : float) :
  sf_sign_ok false (Prim2SF x) -> sf_sign_ok false (Prim2SF y) ->
  sf_sign_ok false (Prim2SF (x + y)).
Proof. intros Hx Hy. rewrite add_spec. apply SFadd_sign; assumption. Qed.

Lemma add_zero (x y : float) :
  Prim2SF x = S754_zero false -> Prim2SF y = S754_zero false ->
  Prim2SF (x + y) = S754_zero false.
Proof. intros Hx Hy. rewrite add_spec, Hx, Hy. reflexivity. Qed.

(** Adding to the identity 0 changes no float but -0. *)
Lemma add_zero_l (x : float) : sf_sign_ok false (Prim2SF x) -> 0 + x = x.
Proof.
  intros H. apply Prim2SF_inj. rewrite add_spec.
  change (Prim2SF 0) with (S754_zero false).
  destruct (Prim2SF x) as [s|s| |s m e]; simpl in H; subst;
    try contradiction; reflexivity.
Qed.

(** Below 8 elements the pairwise sum is the sum from left to right. *)
Lemma np_sum_short (a : list float) :
  (List.length a < 8)%nat ->
  Forall (fun v => sf_sign_ok false (Prim2SF v)) a ->
  np_sum a = fold_left PrimFloat.add a 0.
Proof.
  intros Hn Ha.
  assert (E : pairwise_sum a = fold_left PrimFloat.add a 0).
  { unfold pairwise_sum.
    assert (B : pairwise_block a = fold_left PrimFloat.add a 0).
    { destruct a as [|a0 [|a1 [|a2 [|a3 [|a4 [|a5 [|a6 [|a7 rest]]]]]]]];
        try reflexivity. simpl in Hn. lia. }
    destruct (List.length a) as [|f] eqn:El; cbn [pairwise_sum_fuel]; [exact B|].
    rewrite El.
    replace (PW_BLOCKSIZE <? S f)%nat with false; [exact B|].
    symmetry. apply Nat.ltb_ge. unfold PW_BLOCKSIZE. lia. }
  unfold np_sum. rewrite E. apply add_zero_l.
  apply (fold_add_closed (fun v => sf_sign_ok false (Prim2SF v)));
    [exact add_sign | exact eq_refl | exact Ha].
Qed.

(** The fuel of the pairwise sum is never used up: any fuel of at least the
    length gives the same sum, which satisfies the recursive equation of
    numpy's [pairwise_sum]. *)
Lemma pairwise_sum_fuel_enough (f1 : nat) :
  forall (f2 : nat) (a : list float),
    (List.length a <= f1)%nat -> (List.length a <= f2)%nat ->
    pairwise_sum_fuel f1 a = pairwise_sum_fuel f2 a.
Proof.
  induction f1 as [|f1 IH]; intros f2 a H1 H2.
  - destruct a; [|simpl in H1; lia]. destruct f2; reflexivity.
  - destruct f2 as [|f2].
    + destruct a; [|simpl in H2; lia]. reflexivity.
    + cbn [pairwise_sum_fuel].
      destruct (PW_BLOCKSIZE <? List.length a)%nat eqn:E; [|reflexivity].
      apply Nat.ltb_lt in E. unfold PW_BLOCKSIZE in E.
      set (n := List.length a) in *.
      set (n2 := (n / 2 - (n / 2) mod 8)%nat).
      assert (Hn2 : (0 < n2 < n)%nat).
      { unfold n2. pose proof (Nat.Div0.mod_le (n / 2) 8).
        pose proof (Nat.mod_upper_bound (n / 2) 8).
        pose proof (Nat.Div0.div_le_upper_bound n 2 n).
        assert (64 <= n / 2)%nat by (apply Nat.div_le_lower_bound; lia).
        assert (n / 2 < n)%nat by (apply Nat.div_lt; lia). lia. }
      f_equal; apply IH; rewrite ?length_firstn, ?length_skipn; fold n; lia.
Qed.

Lemma pairwise_sum_eq (a : list float) :
  pairwise_sum a =
  let n := List.length a in
  if (PW_BLOCKSIZE <? n)%nat then
    let n2 := (n / 2 - (n / 2) mod 8)%nat in
    pairwise_sum (firstn n2 a) + pairwise_sum (skipn n2 a)
  else pairwise_block a.
Proof.
  unfold pairwise_sum at 1. cbv zeta.
  destruct (List.length a) as [|f] eqn:El.
  - reflexivity.
  - cbn [pairwise_sum_fuel]. rewrite El.
    destruct (PW_BLOCKSIZE <? S f)%nat eqn:E; [|reflexivity].
    apply Nat.ltb_lt in E. unfold PW_BLOCKSIZE in E.
    set (n2 := (S f / 2 - (S f / 2) mod 8)%nat).
    assert (Hn2 : (0 < n2 < S f)%nat).
    { unfold n2. pose proof (Nat.mod_upper_bound (S f / 2) 8).
      assert (64 <= S f / 2)%nat by (apply Nat.div_le_lower_bound; lia).
      assert (S f / 2 < S f)%nat by (apply Nat.div_lt; lia). lia. }
    unfold pairwise_sum.
    f_equal; apply pairwise_sum_fuel_enough;
      rewrite ?length_firstn, ?length_skipn, ?El; lia.
Qed.

Lemma sign_ok_leb (r : float) :
  sf_sign_ok false (Prim2SF r) -> (0 <=? r) = true.
Proof.
  rewrite leb_spec. change (Prim2SF 0) with (S754_zero false).
  destruct (Prim2SF r) as [s|s| |s m e]; simpl; intros H; subst;
    try contradiction; reflexivity.
Qed.

Lemma square_of_zero (x : float) :
  is_zero x = true \/ is_nan x = true ->
  Prim2SF (if is_nan (x * x) then 0 else x * x) = S754_zero false.
Proof.
  intros [H|H].
  - apply is_zero_Prim2SF in H. destruct H as [s Hs].
    assert (Hq : Prim2SF (x * x) = S754_zero false).
    { rewrite mul_spec, Hs. destruct s; reflexivity. }
    replace (is_nan (x * x)) with false; [exact Hq|].
    symmetry. apply is_nan_false_Prim2SF. congruence.
  - apply is_nan_Prim2SF in H.
    replace (is_nan (x * x)) with true; [reflexivity|].
    symmetry. apply is_nan_Prim2SF. rewrite mul_spec, H. reflexivity.
Qed.

(** The cells of a row of the squared block, unobserved ones set to 0. *)
Lemma squares_row (cs : list Series) (i : nat) :
  fillna 0 (row_values (map (map (fun x => x * x)) cs) i) =
  map (fun x => if is_nan (x * x) then 0 else x * x) (row_values cs i).
Proof.
  unfold fillna, row_values. rewrite !map_map. apply map_ext. intros c.
  change nan with ((fun x => x * x) nan) at 1 2. rewrite map_nth. reflexivity.
Qed.

Lemma squares_row_sign (cs : list Series) (i : nat) :
  Forall (fun v => sf_sign_ok false (Prim2SF v))
         (fillna 0 (row_values (map (map (fun x => x * x)) cs) i)).
Proof.
  rewrite squares_row. apply Forall_map, Forall_forall. intros x _.
  apply skipna_sign, square_sign.
Qed.

Lemma mapM_length {A B : Type} (f : A -> option B) (l : list A) (bs : list B) :
  mapM f l = Some bs -> List.length bs = List.length l.
Proof.
  revert bs. induction l as [|a l IH]; intros bs H; simpl in H.
  - injection H as <-. reflexivity.
  - destruct (f a) as [b|]; [|discriminate]. simpl in H.
    destruct (mapM f l) as [bs'|]; [|discriminate]. simpl in H.
    injection H as <-. simpl. rewrite (IH bs' eq_refl). reflexivity.
Qed.

(** Row [i] of a vector total. *)
Lemma vector_total_row (df : DataFrame) (cols : list string) (cs : list Series)
    (i : nat) :
  mapM (get_col df) cols = Some cs -> (i < nrows df)%nat ->
  exists s,
    get_vector_total df cols = Some s /\
    List.length s = nrows df /\
    nth i s nan =
      PrimFloat.sqrt
        (nth i (sum_axis1 (map (map (fun x => x * x)) cs) (nrows df)) nan).
Proof.
  intros Hcs Hi. unfold get_vector_total. rewrite Hcs. cbn [bind]. cbv zeta.
  eexists. split; [reflexivity|]. split.
  - unfold sum_axis1. rewrite !length_map, length_seq. reflexivity.
  - change nan with (PrimFloat.sqrt nan) at 1. apply map_nth.
Qed.

(** C6 (as stated, refuted): a one-column row holding the non-zero value
    2^-600 has magnitude 0, because its square underflows; so has a row
    holding an unobserved cell. *)
Lemma vector_total_zero_counterexample :
  get_vector_total frame_tiny_force ["fx_1"] = Some [0; 0] /\
  get_col frame_tiny_force "fx_1" = Some [0x1p-600; nan] /\
  (0x1p-600 =? 0) = false /\ (nan =? 0) = false.
Proof. repeat split. Qed.

(** C6 (amended): the vector total has one value per row; it is never
    negative (and never NaN), and it is 0 on every row whose listed cells
    are all 0 or unobserved.  With fewer than 8 listed columns it is, row
    by row, the square root of the sum of the squares of the observed
    cells, added from left to right; from 8 columns on numpy may add the
    same squares in another order. *)
Theorem vector_total_nonneg
    (df : DataFrame) (cols : list string) (cs : list Series) :
  mapM (get_col df) cols = Some cs ->
  exists s,
    get_vector_total df cols = Some s /\
    List.length s = nrows df /\
    forall i, i < nrows df ->
      (List.length cols < 8 ->
       nth i s nan =
         PrimFloat.sqrt
           (fold_left PrimFloat.add
              (map (fun x => if is_nan (x * x) then 0 else x * x) (row_values cs i))
              0)) /\
      (0 <=? nth i s nan) = true /\
      (Forall (fun v => is_zero v = true \/ is_nan v = true) (row_values cs i) ->
       nth i s nan = 0).
Proof.
  intros Hcs.
  assert (Hs : exists s, get_vector_total df cols = Some s /\
                         List.length s = nrows df).
  { unfold get_vector_total. rewrite Hcs. cbn [bind]. cbv zeta. eexists.
    split; [reflexivity|]. unfold sum_axis1.
    rewrite !length_map, length_seq. reflexivity. }
  destruct Hs as [s [Hs Hl]]. exists s. split; [exact Hs|]. split; [exact Hl|].
  intros i Hi.
  destruct (vector_total_row df cols cs i Hcs Hi) as [s' (Hs' & _ & Hrow)].
  assert (s' = s) by congruence. subst s'. rewrite Hrow.
  set (sq := map (map (fun x => x * x)) cs).
  split; [|split].
  - intros Hlen. f_equal. unfold sq, sum_axis1. cbv zeta.
    rewrite nth_map_seq by exact Hi.
    rewrite np_sum_short.
    + destruct (_ || _); rewrite squares_row; reflexivity.
    + unfold fillna, row_values. rewrite !length_map.
      pose proof (mapM_length _ _ _ Hcs) as E. unfold Series in *. lia.
    + apply squares_row_sign.
  - unfold sq. apply sign_ok_leb. rewrite sqrt_spec. apply SFsqrt_sign.
    apply (sum_axis1_closed (fun v => sf_sign_ok false (Prim2SF v)));
      [exact eq_refl | exact add_sign | exact Hi | apply squares_row_sign].
  - intros Hz. apply Prim2SF_inj. rewrite sqrt_spec.
    change (Prim2SF 0) with (S754_zero false).
    replace (Prim2SF (nth i (sum_axis1 sq (nrows df)) nan)) with (S754_zero false);
      [reflexivity|].
    symmetry.
    apply (sum_axis1_closed (fun v => Prim2SF v = S754_zero false));
      [reflexivity | exact add_zero | exact Hi|].
    unfold sq. rewrite squares_row. apply Forall_map. revert Hz.
    apply Forall_impl. intros x Hx. apply square_of_zero. exact Hx.
Qed.

Lemma vector_total_nonneg_witness :
  exists s,
    get_vector_total frame_force_345 ["fx_1"; "fy_1"; "fz_1"] = Some s /\
    List.length s = nrows frame_force_345 /\
    forall i, i < nrows frame_force_345 ->
      (List.length ["fx_1"; "fy_1"; "fz_1"] < 8 ->
       nth i s nan =
         PrimFloat.sqrt
           (fold_left PrimFloat.add
              (map (fun x => if is_nan (x * x) then 0 else x * x)
                   (row_values [[3; 0]; [4; 0]; [0; 0]] i))
              0)) /\
      (0 <=? nth i s nan) = true /\
      (Forall (fun v => is_zero v = true \/ is_nan v = true)
              (row_values [[3; 0]; [4; 0]; [0; 0]] i) ->
       nth i s nan = 0).
Proof.
  apply (vector_total_nonneg frame_force_345 ["fx_1"; "fy_1"; "fz_1"]).
  reflexivity.
Defined.

(** ** Gap filling *)

Section GapFill.

Lemma is_nan_eq (x : float) : is_nan x = true -> x = nan.
Proof.
  intros H. apply Prim2SF_inj. apply is_nan_Prim2SF in H. rewrite H. reflexivity.
Qed.

Lemma ffill_from_no_nan (last : option float) (s : Series) :
  no_nan s = true -> ffill_from last s = s.
Proof.
  revert last. induction s as [|x r IH]; intros last H; simpl in *; [reflexivity|].
  apply andb_true_iff in H. destruct H as [Hx Hr].
  destruct (is_nan x); [discriminate|]. rewrite IH by exact Hr. reflexivity.
Qed.

Lemma ffill_all_nan (s : Series) : all_nan s = true -> ffill_from None s = s.
Proof.
  induction s as [|x r IH]; intros H; simpl in *; [reflexivity|].
  apply andb_true_iff in H. destruct H as [Hx Hr].
  rewrite Hx, IH by exact Hr. reflexivity.
Qed.

Lemma bfill_no_nan (s : Series) : no_nan s = true -> bfill s = s.
Proof.
  induction s as [|x r IH]; intros H; simpl in *; [reflexivity|].
  apply andb_true_iff in H. destruct H as [Hx Hr].
  destruct (is_nan x); [discriminate|]. rewrite IH by exact Hr. reflexivity.
Qed.

Lemma bfill_all_nan (s : Series) : all_nan s = true -> bfill s = s.
Proof.
  induction s as [|x r IH]; intros H; simpl in *; [reflexivity|].
  apply andb_true_iff in H. destruct H as [Hx Hr].
  rewrite Hx, IH by exact Hr.
  destruct r as [|y r']; [reflexivity|].
  simpl in Hr. apply andb_true_iff in Hr. destruct Hr as [Hy _].
  rewrite (is_nan_eq x Hx), (is_nan_eq y Hy). reflexivity.
Qed.

Lemma ffill_from_some (v : float) (s : Series) :
  is_nan v = false -> no_nan (ffill_from (Some v) s) = true.
Proof.
  revert v. induction s as [|x r IH]; intros v Hv; simpl; [reflexivity|].
  destruct (is_nan x) eqn:Ex; simpl.
  - rewrite Hv. simpl. apply IH. exact Hv.
  - rewrite Ex. simpl. apply IH. exact Ex.
Qed.

Lemma ffill_nan_prefix (s : Series) : nan_prefix (ffill s) = true.
Proof.
  unfold ffill. induction s as [|x r IH]; simpl; [reflexivity|].
  destruct (is_nan x) eqn:Ex; simpl; rewrite Ex.
  - exact IH.
  - apply ffill_from_some. exact Ex.
Qed.

Lemma bfill_nan_prefix (s : Series) :
  nan_prefix s = true -> no_nan (bfill s) = true \/ all_nan (bfill s) = true.
Proof.
  induction s as [|x r IH]; intros H; simpl in *; [left; reflexivity|].
  destruct (is_nan x) eqn:Ex.
  - destruct (IH H) as [Hn|Ha].
    + destruct (bfill r) as [|y r'] eqn:Er.
      * right. simpl. rewrite Ex. reflexivity.
      * left. simpl in *. apply andb_true_iff in Hn. destruct Hn as [Hy Hr'].
        rewrite Hy, Hr'. reflexivity.
    + right. destruct (bfill r) as [|y r'] eqn:Er.
      * simpl. rewrite Ex. reflexivity.
      * simpl in *. apply andb_true_iff in Ha. destruct Ha as [Hy Hr'].
        rewrite Hy, Hr'. reflexivity.
  - left. rewrite (bfill_no_nan r H). simpl. rewrite Ex, H. reflexivity.
Qed.

(** One pass of forward then backward filling leaves a series with no
    unobserved cell, or with no observed one. *)
Lemma gap_fill_series_filled (s : Series) :
  no_nan (bfill (ffill s)) = true \/ all_nan (bfill (ffill s)) = true.
Proof. apply bfill_nan_prefix, ffill_nan_prefix. Qed.

Lemma gap_fill_series_idempotent (s : Series) :
  bfill (ffill (bfill (ffill s))) = bfill (ffill s).
Proof.
  destruct (gap_fill_series_filled s) as [H|H].
  - unfold ffill at 1. rewrite (ffill_from_no_nan None _ H). apply bfill_no_nan, H.
  - unfold ffill at 1. rewrite (ffill_all_nan _ H). apply bfill_all_nan, H.
Qed.

End GapFill.

(** C8: filling the gaps of a frame that went through the gap filler once
    gives back exactly that frame. *)
Theorem gap_filler_idempotent (df : DataFrame) :
  match_timestamps_with_measurements (match_timestamps_with_measurements df) =
  match_timestamps_with_measurements df.
Proof.
  unfold match_timestamps_with_measurements, frame_bfill, frame_ffill.
  destruct df as [t cols]. simpl. f_equal.
  rewrite !map_map. apply map_ext. intros [name s]. simpl.
  rewrite gap_fill_series_idempotent. reflexivity.
Qed.

(** ** Run partitioner *)

Section RunPartition.

Variable df : list Measurement.

Lemma existsb_N_In (x : N) (l : list N) : existsb (N.eqb x) l = true <-> In x l.
Proof.
  rewrite existsb_exists. split.
  - intros [y [Hy E]]. apply N.eqb_eq in E. subst. exact Hy.
  - intros H. exists x. split; [exact H | apply N.eqb_refl].
Qed.

Lemma unique_from_In (seen l : list N) (x : N) :
  In x (unique_from seen l) <-> In x l /\ ~ In x seen.
Proof.
  revert seen. induction l as [|y l IH]; intros seen; simpl; [tauto|].
  destruct (existsb (N.eqb y) seen) eqn:E.
  - apply existsb_N_In in E. rewrite IH. split.
    + intros [H1 H2]. tauto.
    + intros [[->|H1] H2]; tauto.
  - assert (Hy : ~ In y seen).
    { intros H. apply existsb_N_In in H. congruence. }
    simpl. rewrite IH. simpl. split.
    + intros [->|[H1 H2]]; tauto.
    + intros [[->|H1] H2]; [tauto|].
      destruct (N.eq_dec y x); [tauto|]. right. tauto.
Qed.

Lemma unique_from_NoDup (seen l : list N) : NoDup (unique_from seen l).
Proof.
  revert seen. induction l as [|y l IH]; intros seen; simpl; [constructor|].
  destruct (existsb (N.eqb y) seen); [apply IH|].
  constructor; [|apply IH].
  rewrite unique_from_In. simpl. tauto.
Qed.

Lemma unique_In (l : list N) (x : N) : In x (unique l) <-> In x l.
Proof. unfold unique. rewrite unique_from_In. simpl. tauto. Qed.

Lemma unique_NoDup (l : list N) : NoDup (unique l).
Proof. apply unique_from_NoDup. Qed.

Lemma dict_set_fresh {V : Type} (k : N) (v : V) (d : list (N * V)) :
  ~ In k (map fst d) -> dict_set k v d = d ++ [(k, v)].
Proof.
  induction d as [|[k' v'] d IH]; simpl; intros H; [reflexivity|].
  destruct (N.eqb_spec k' k) as [->|Hne]; [tauto|].
  rewrite IH by tauto. reflexivity.
Qed.

Lemma fold_dict_set_fresh {V : Type} (f : N -> V) (keys : list N) (d : list (N * V)) :
  NoDup keys -> (forall k, In k keys -> ~ In k (map fst d)) ->
  fold_left (fun data k => dict_set k (f k) data) keys d =
  d ++ map (fun k => (k, f k)) keys.
Proof.
  revert d. induction keys as [|k keys IH]; intros d Hnd Hfresh; simpl.
  - rewrite app_nil_r. reflexivity.
  - inversion Hnd as [|? ? Hk Hnd']; subst.
    rewrite dict_set_fresh by (apply Hfresh; left; reflexivity).
    rewrite IH; [rewrite <- app_assoc; reflexivity | exact Hnd' |].
    intros k' Hk' Hin. rewrite map_app, in_app_iff in Hin. simpl in Hin.
    destruct Hin as [Hin|[<-|[]]]; [|tauto].
    apply (Hfresh k'); [right; exact Hk' | exact Hin].
Qed.

(** The dict is the list of the distinct run ids, in order of first
    appearance, each with the rows of that run. *)
Lemma get_dfs_by_run_uuid_eq :
  get_dfs_by_run_uuid df =
  map (fun k => (k, filter (has_run k) df)) (unique (map run_uuid df)).
Proof.
  unfold get_dfs_by_run_uuid.
  rewrite (fold_dict_set_fresh (fun k => filter (has_run k) df)).
  - reflexivity.
  - apply unique_NoDup.
  - intros k _ [].
Qed.

Lemma filter_split_perm (p q : Measurement -> bool) (l : list Measurement) :
  (forall r, p r = true -> q r = false) ->
  Permutation (filter p l ++ filter q l) (filter (fun r => p r || q r) l).
Proof.
  intros Hpq. induction l as [|r l IH]; simpl; [constructor|].
  destruct (p r) eqn:Ep; simpl.
  - rewrite (Hpq r Ep). constructor. exact IH.
  - destruct (q r); [|exact IH].
    apply Permutation_sym, Permutation_cons_app, Permutation_sym, IH.
Qed.

Lemma concat_groups_perm (keys : list N) (l : list Measurement) :
  NoDup keys ->
  Permutation (List.concat (map (fun k => filter (has_run k) l) keys))
              (filter (fun r => existsb (N.eqb (run_uuid r)) keys) l).
Proof.
  induction keys as [|k keys IH]; intros Hnd; simpl.
  - induction l; simpl; [constructor | assumption].
  - inversion Hnd as [|? ? Hk Hnd']; subst.
    etransitivity; [apply Permutation_app_head, IH, Hnd'|].
    apply (filter_split_perm (has_run k)).
    intros r Hr. unfold has_run in Hr. apply N.eqb_eq in Hr.
    destruct (existsb (N.eqb (run_uuid r)) keys) eqn:E; [|reflexivity].
    apply existsb_N_In in E. congruence.
Qed.

Lemma filter_all {A : Type} (p : A -> bool) (l : list A) :
  (forall x, In x l -> p x = true) -> filter p l = l.
Proof.
  induction l as [|x l IH]; simpl; intros H; [reflexivity|].
  rewrite (H x) by tauto. rewrite IH; [reflexivity|]. intros y Hy. apply H. tauto.
Qed.

End RunPartition.

(** C9: the partitioner returns a dict with one entry per distinct run id;
    the entry of a run id holds exactly the rows of that id, in their
    original order; every row of the input is in the entry of its own id and
    in no other; and the entries together hold every input row exactly once. *)
Theorem run_partitioner_total_disjoint (df : list Measurement) :
  let data := get_dfs_by_run_uuid df in
  NoDup (map fst data) /\
  (forall k sub, In (k, sub) data ->
     dict_get k data = Some sub /\
     sub = filter (fun r => N.eqb (run_uuid r) k) df) /\
  (forall r, In r df ->
     exists sub, dict_get (run_uuid r) data = Some sub /\ In r sub) /\
  (forall r k sub, In (k, sub) data -> In r sub -> k = run_uuid r) /\
  Permutation (List.concat (map snd data)) df.
Proof.
  intros data. unfold data. rewrite get_dfs_by_run_uuid_eq.
  set (keys := unique (map run_uuid df)).
  assert (Hnd : NoDup keys) by apply unique_NoDup.
  assert (Hget : forall k, In k keys ->
            dict_get k (map (fun k => (k, filter (has_run k) df)) keys) =
            Some (filter (has_run k) df)).
  { intros k. clear Hnd. induction keys as [|k' keys' IH]; simpl; [tauto|].
    destruct (N.eqb_spec k' k) as [->|Hne]; [reflexivity|].
    intros [?|H]; [congruence | apply IH, H]. }
  repeat split.
  - rewrite map_map. simpl. rewrite map_id. exact Hnd.
  - apply in_map_iff in H. destruct H as [k' [E Hk']].
    injection E as -> <-. apply Hget, Hk'.
  - apply in_map_iff in H. destruct H as [k' [E Hk']].
    injection E as -> <-. reflexivity.
  - intros r Hr. exists (filter (has_run (run_uuid r)) df). split.
    + apply Hget. apply unique_In, in_map, Hr.
    + apply filter_In. split; [exact Hr | apply N.eqb_refl].
  - intros r k sub H Hin. apply in_map_iff in H. destruct H as [k' [E Hk']].
    injection E as -> <-. apply filter_In in Hin. destruct Hin as [_ Hin].
    apply N.eqb_eq in Hin. congruence.
  - rewrite map_map. simpl.
    etransitivity; [apply concat_groups_perm, Hnd|].
    rewrite filter_all; [reflexivity|].
    intros r Hr. apply existsb_N_In, unique_In, in_map, Hr.
Qed.

(** ** Preprocessing *)

Lemma preprocess_df_run_uuid_bound (df df' : list Measurement) :
  preprocess_df df = Some df' ->
  Forall (fun r => (run_uuid r < 2 ^ 64)%N) df.
Proof.
  revert df'. induction df as [|r df IH]; intros df' H; [constructor|].
  unfold preprocess_df in H. cbn [mapM] in H.
  change (dtype_of "robot_id" column_dtypes) with (Some uint64) in H.
  change (dtype_of "run_uuid" column_dtypes) with (Some uint64) in H.
  unfold astype_int in H.
  destruct (robot_id r <? 2 ^ 64)%N; [|discriminate H].
  destruct (run_uuid r <? 2 ^ 64)%N eqn:E; [|discriminate H].
  cbn [bind] in H.
  destruct (mapM _ df) as [rest|] eqn:Er; [|discriminate H].
  constructor.
  - apply N.ltb_lt in E. exact E.
  - apply (IH rest). exact Er.
Qed.

(** C1 (code evaluated at the failing input): [column_dtypes] gives
    [run_uuid] the 64-bit type [uint64]; a table holding a run id of 65 bits
    is refused as a whole by [preprocess_df], and a run id that fits is kept
    as a 64-bit value. *)
Lemma preprocess_df_narrows_run_uuid :
  dtype_of "run_uuid" column_dtypes = Some uint64 /\
  int_bits uint64 = Some 64%N /\
  preprocess_df [row_narrow_run; row_wide_run] = None /\
  preprocess_df [row_narrow_run] = Some [row_narrow_run].
Proof. repeat split. Qed.

(** ** Frames: columns, assignment, selection *)

Section FrameFacts.

Lemma mem_In (x : string) (l : list string) : Py.mem x l = true <-> In x l.
Proof.
  unfold Py.mem. rewrite existsb_exists. split.
  - intros [y [Hy E]]. apply String.eqb_eq in E. subst. exact Hy.
  - intros H. exists x. split; [exact H | apply String.eqb_refl].
Qed.

Lemma mem_false (x : string) (l : list string) : Py.mem x l = false <-> ~ In x l.
Proof.
  rewrite <- mem_In. destruct (Py.mem x l); split; congruence.
Qed.

Lemma lookup_In (c : string) (l : list (string * Series)) :
  In c (map fst l) <-> exists s, lookup c l = Some s.
Proof.
  induction l as [|[k v] l IH]; simpl.
  - split; [tauto | intros [s H]; discriminate].
  - destruct (String.eqb_spec k c) as [->|Hne].
    + split; eauto.
    + rewrite <- IH. tauto.
Qed.

Lemma lookup_None (c : string) (l : list (string * Series)) :
  ~ In c (map fst l) <-> lookup c l = None.
Proof.
  rewrite lookup_In. destruct (lookup c l) as [s|]; split; intros H.
  - exfalso. apply H. eauto.
  - discriminate.
  - reflexivity.
  - intros [s Hs]. discriminate.
Qed.

Lemma lookup_in_list (c : string) (s : Series) (l : list (string * Series)) :
  lookup c l = Some s -> In (c, s) l.
Proof.
  induction l as [|[k v] l IH]; simpl; [discriminate|].
  destruct (String.eqb_spec k c) as [->|Hne].
  - intros H. injection H as ->. left. reflexivity.
  - intros H. right. apply IH, H.
Qed.

Lemma lookup_assign_eq (c : string) (s : Series) (l : list (string * Series)) :
  lookup c (assign c s l) = Some s.
Proof.
  induction l as [|[k v] l IH]; simpl.
  - rewrite String.eqb_refl. reflexivity.
  - destruct (String.eqb k c) eqn:E; simpl; rewrite E; [reflexivity | exact IH].
Qed.

Lemma lookup_assign_neq (c c' : string) (s : Series) (l : list (string * Series)) :
  c' <> c -> lookup c' (assign c s l) = lookup c' l.
Proof.
  intros Hne. induction l as [|[k v] l IH]; simpl.
  - destruct (String.eqb_spec c c'); [congruence | reflexivity].
  - destruct (String.eqb_spec k c) as [->|Hk]; simpl.
    + destruct (String.eqb_spec c c'); [congruence | reflexivity].
    + rewrite IH. reflexivity.
Qed.

Lemma names_assign (c : string) (s : Series) (l : list (string * Series)) :
  map fst (assign c s l) =
  map fst l ++ (if Py.mem c (map fst l) then [] else [c]).
Proof.
  induction l as [|[k v] l IH]; simpl; [reflexivity|].
  rewrite (String.eqb_sym c k).
  destruct (String.eqb k c) eqn:E; simpl.
  - rewrite app_nil_r. reflexivity.
  - rewrite IH. reflexivity.
Qed.

Lemma lookup_app (c : string) (a b : list (string * Series)) :
  lookup c (a ++ b) =
  match lookup c a with
  | Some s => Some s
  | None => lookup c b
  end.
Proof.
  induction a as [|[k v] a IH]; simpl; [reflexivity|].
  destruct (String.eqb k c); [reflexivity | exact IH].
Qed.

Lemma lookup_filter_names (c : string) (p : string -> bool)
    (l : list (string * Series)) :
  lookup c (filter (fun e => p (fst e)) l) = if p c then lookup c l else None.
Proof.
  induction l as [|[k v] l IH]; simpl; [destruct (p c); reflexivity|].
  destruct (p k) eqn:Ek; simpl.
  - destruct (String.eqb_spec k c) as [->|Hne].
    + rewrite Ek. reflexivity.
    + exact IH.
  - destruct (String.eqb_spec k c) as [->|Hne].
    + rewrite Ek in *. exact IH.
    + exact IH.
Qed.

Lemma get_col_set_eq (df : DataFrame) (c : string) (s : Series) :
  get_col (set_col df c s) c = Some s.
Proof. apply lookup_assign_eq. Qed.

Lemma get_col_set_neq (df : DataFrame) (c c' : string) (s : Series) :
  c' <> c -> get_col (set_col df c s) c' = get_col df c'.
Proof. apply lookup_assign_neq. Qed.

Lemma get_col_In (df : DataFrame) (c : string) :
  In c (names df) <-> exists s, get_col df c = Some s.
Proof. apply lookup_In. Qed.

Lemma wf_get_col (df : DataFrame) (c : string) (s : Series) :
  wf df -> get_col df c = Some s -> List.length s = nrows df.
Proof.
  intros Hwf H. apply lookup_in_list in H.
  unfold wf in Hwf. rewrite Forall_forall in Hwf. apply (Hwf _ H).
Qed.

Lemma Forall_assign (Q : string * Series -> Prop) (c : string) (s : Series)
    (l : list (string * Series)) :
  Forall Q l -> Q (c, s) -> Forall Q (assign c s l).
Proof.
  intros Hl Hc. induction Hl as [|[k v] l Hk Hl IH]; simpl.
  - constructor; [exact Hc | constructor].
  - destruct (String.eqb_spec k c) as [->|Hne]; constructor; assumption.
Qed.

Lemma wf_set_col (df : DataFrame) (c : string) (s : Series) :
  wf df -> List.length s = nrows df -> wf (set_col df c s).
Proof. intros Hwf Hs. apply Forall_assign; assumption. Qed.

(** *** Extensions *)

Lemma ext_refl (W : string -> bool) (df : DataFrame) : wf df -> ext W df df.
Proof.
  intros Hwf. repeat split; auto.
  exists []. rewrite app_nil_r. split; [reflexivity | constructor].
Qed.

Lemma ext_trans (W : string -> bool) (a b c : DataFrame) :
  ext W a b -> ext W b c -> ext W a c.
Proof.
  intros (Ht1 & _ & (e1 & Hn1 & He1) & Hg1) (Ht2 & Hwf2 & (e2 & Hn2 & He2) & Hg2).
  repeat split.
  - congruence.
  - exact Hwf2.
  - exists (e1 ++ e2). split.
    + rewrite Hn2, Hn1, app_assoc. reflexivity.
    + apply Forall_app. split; assumption.
  - intros k Hk. rewrite Hg2, Hg1 by exact Hk. reflexivity.
Qed.

Lemma ext_weaken (W W' : string -> bool) (a b : DataFrame) :
  (forall c, W c = true -> W' c = true) -> ext W a b -> ext W' a b.
Proof.
  intros HW (Ht & Hwf & (e & Hn & He) & Hg). repeat split; auto.
  - exists e. split; [exact Hn|]. revert He. apply Forall_impl. exact HW.
  - intros c Hc. apply Hg. destruct (W c) eqn:E; [|reflexivity].
    rewrite (HW c E) in Hc. discriminate.
Qed.

Lemma ext_set_col (W : string -> bool) (df : DataFrame) (c : string) (s : Series) :
  wf df -> List.length s = nrows df -> W c = true -> ext W df (set_col df c s).
Proof.
  intros Hwf Hs HW. repeat split.
  - apply wf_set_col; assumption.
  - unfold names. simpl. rewrite names_assign. eexists. split; [reflexivity|].
    destruct (Py.mem c _); constructor; [exact HW | constructor].
  - intros k Hk. apply get_col_set_neq. intros ->. congruence.
Qed.

Lemma ext_names (W : string -> bool) (a b : DataFrame) (c : string) :
  ext W a b -> In c (names a) -> In c (names b).
Proof.
  intros (_ & _ & (e & Hn & _) & _) H. rewrite Hn. apply in_or_app. left. exact H.
Qed.

Lemma ext_nrows (W : string -> bool) (a b : DataFrame) :
  ext W a b -> nrows b = nrows a.
Proof. intros (Ht & _). unfold nrows. rewrite Ht. reflexivity. Qed.

Lemma ext_wf (W : string -> bool) (a b : DataFrame) : ext W a b -> wf b.
Proof. intros (_ & H & _). exact H. Qed.

Lemma ext_filter (W P : string -> bool) (a b : DataFrame) :
  (forall c, W c = true -> P c = false) ->
  ext W a b -> filter P (names b) = filter P (names a).
Proof.
  intros HP (_ & _ & (e & Hn & He) & _). rewrite Hn, filter_app.
  replace (filter P e) with (@nil string); [apply app_nil_r|].
  symmetry. clear Hn. induction He as [|x e Hx He IH]; simpl; [reflexivity|].
  rewrite (HP x Hx). exact IH.
Qed.

End FrameFacts.

(** ** The building blocks of the transforms succeed on well-formed frames *)

Section Blocks.

Lemma length_map2 {A B C : Type} (f : A -> B -> C) (a : list A) (b : list B) :
  List.length a = List.length b -> List.length (map2 f a b) = List.length a.
Proof.
  revert b. induction a as [|x a IH]; intros [|y b] H; simpl in *;
    try reflexivity; try discriminate.
  f_equal. apply IH. lia.
Qed.

Lemma length_removelast_cons {A : Type} (a : A) (l : list A) :
  List.length (removelast (a :: l)) = List.length l.
Proof.
  revert a. induction l as [|b l IH]; intros a; [reflexivity|].
  change (removelast (a :: b :: l)) with (a :: removelast (b :: l)).
  cbn [List.length]. rewrite IH. reflexivity.
Qed.

Lemma length_shift1 (s : Series) : List.length (shift1 s) = List.length s.
Proof.
  destruct s as [|x s]; [reflexivity|].
  unfold shift1. cbn [List.length]. rewrite length_removelast_cons. reflexivity.
Qed.

Lemma length_fillna (v : float) (s : Series) :
  List.length (fillna v s) = List.length s.
Proof. apply length_map. Qed.

Lemma length_delta (x : Series) :
  List.length (series_sub x (shift1 x)) = List.length x.
Proof. unfold series_sub. apply length_map2. rewrite length_shift1. reflexivity. Qed.

Lemma change_over_time_total (df : DataFrame) (c : string) :
  wf df -> In c (names df) -> In "dt" (names df) ->
  exists s, get_variable_change_over_time df c = Some s /\
            List.length s = nrows df.
Proof.
  intros Hwf Hc Hdt. apply get_col_In in Hc. apply get_col_In in Hdt.
  destruct Hc as [x Hx], Hdt as [dt Hd].
  unfold get_variable_change_over_time. rewrite Hx, Hd. simpl.
  eexists. split; [reflexivity|].
  pose proof (wf_get_col df c x Hwf Hx) as Lx.
  pose proof (wf_get_col df "dt" dt Hwf Hd) as Ld.
  rewrite length_fillna. unfold series_div.
  rewrite length_map2; rewrite length_delta; congruence.
Qed.

Lemma change_total (df : DataFrame) (c : string) :
  wf df -> In c (names df) -> In "dt" (names df) ->
  exists s, get_variable_change df c = Some s /\ List.length s = nrows df.
Proof.
  intros Hwf Hc _. apply get_col_In in Hc. destruct Hc as [x Hx].
  unfold get_variable_change. rewrite Hx. simpl.
  eexists. split; [reflexivity|].
  rewrite length_fillna, length_delta. apply (wf_get_col df c x Hwf Hx).
Qed.

Lemma mapM_total {A B : Type} (f : A -> option B) (l : list A) :
  (forall a, In a l -> exists b, f a = Some b) ->
  exists bs, mapM f l = Some bs /\ List.length bs = List.length l.
Proof.
  induction l as [|a l IH]; intros H; simpl.
  - exists []. split; reflexivity.
  - destruct (H a (or_introl eq_refl)) as [b Hb]. rewrite Hb. simpl.
    destruct IH as [bs [Hbs Hl]]; [intros x Hx; apply H; right; exact Hx|].
    rewrite Hbs. simpl. exists (b :: bs). split; [reflexivity | simpl; congruence].
Qed.

Lemma vector_total_total (df : DataFrame) (cols : list string) :
  (forall c, In c cols -> In c (names df)) ->
  exists s, get_vector_total df cols = Some s /\ List.length s = nrows df.
Proof.
  intros H. destruct (mapM_total (get_col df) cols) as [cs [Hcs _]].
  { intros c Hc. apply get_col_In, H, Hc. }
  unfold get_vector_total. rewrite Hcs. cbn [bind]. cbv zeta.
  eexists. split; [reflexivity|]. unfold sum_axis1.
  rewrite !length_map, length_seq. reflexivity.
Qed.

(** [add_total] appends the magnitude column of a non-empty group. *)
Lemma add_total_ok (W : string -> bool) (name : string) (df : DataFrame)
    (cols : list string) :
  wf df -> W name = true ->
  (forall c, In c cols -> In c (names df)) ->
  exists df',
    add_total name df cols = Some (df', with_total name cols) /\
    ext W df df' /\
    (forall c, In c (with_total name cols) -> In c (names df')) /\
    (cols <> [] -> exists s, get_vector_total df cols = Some s /\
                             get_col df' name = Some s).
Proof.
  intros Hwf HW Hcols. destruct cols as [|c0 cols].
  - exists df. split; [reflexivity|]. split; [apply ext_refl, Hwf|].
    split; [intros c []|]. intros H. congruence.
  - destruct (vector_total_total df (c0 :: cols) Hcols) as [s [Hs Hl]].
    unfold add_total. rewrite Hs. simpl.
    exists (set_col df name s).
    assert (Hext : ext W df (set_col df name s)) by (apply ext_set_col; assumption).
    repeat split; try apply Hext.
    + intros c Hc. change (In c ((c0 :: cols) ++ [name])) in Hc.
      apply in_app_or in Hc. destruct Hc as [Hc|[<-|[]]].
      * apply (ext_names W df); [exact Hext | apply Hcols, Hc].
      * apply get_col_In. exists s. apply get_col_set_eq.
    + intros _. exists s. split; [reflexivity | apply get_col_set_eq].
Qed.

Lemma lookup_mapM_select (df : DataFrame) (cols : list string)
    (cs : list (string * Series)) :
  mapM (fun c => s <- get_col df c ;; Some (c, s)) cols = Some cs ->
  map fst cs = cols /\
  (forall c s, In (c, s) cs -> get_col df c = Some s).
Proof.
  revert cs. induction cols as [|c cols IH]; intros cs H; simpl in H.
  - injection H as <-. split; [reflexivity | intros ? ? []].
  - destruct (get_col df c) as [s|] eqn:Es; [|discriminate]. simpl in H.
    destruct (mapM _ cols) as [cs'|] eqn:E; [|discriminate]. simpl in H.
    injection H as <-. destruct (IH cs' eq_refl) as [Hn Hv]. split.
    + simpl. rewrite Hn. reflexivity.
    + intros k v [Hk|Hk]; [injection Hk as <- <-; exact Es | apply Hv, Hk].
Qed.

(** [df[['time', *cols]]] succeeds when the names exist. *)
Lemma select_ok (df : DataFrame) (cols : list string) :
  wf df -> (forall c, In c cols -> In c (names df)) ->
  exists out, select df cols = Some out /\ sel out df /\ names out = cols.
Proof.
  intros Hwf Hcols.
  destruct (mapM_total (fun c => s <- get_col df c ;; Some (c, s)) cols)
    as [cs [Hcs _]].
  { intros c Hc. apply Hcols, get_col_In in Hc. destruct Hc as [s Hs].
    rewrite Hs. simpl. eauto. }
  unfold select. rewrite Hcs. simpl. eexists. split; [reflexivity|].
  destruct (lookup_mapM_select df cols cs Hcs) as [Hn Hv].
  split; [|exact Hn]. repeat split.
  - unfold wf. simpl. apply Forall_forall. intros [k v] Hk.
    simpl. apply (wf_get_col df k v Hwf). apply Hv, Hk.
  - intros c s Hs. apply Hv. apply lookup_in_list. exact Hs.
Qed.

Lemma classify_groups (n : string) (g : Groups) :
  classify n g = (fst g ++ group1 [n], snd g ++ group2 [n]).
Proof.
  unfold classify, group1, group2. simpl.
  destruct (Py.endswith n "1"); simpl.
  - rewrite app_nil_r. reflexivity.
  - destruct (Py.endswith n "2"); simpl; rewrite ?app_nil_r;
      destruct g; reflexivity.
Qed.

Lemma group1_app (a b : list string) : group1 (a ++ b) = group1 a ++ group1 b.
Proof. apply filter_app. Qed.

Lemma group2_app (a b : list string) : group2 (a ++ b) = group2 a ++ group2 b.
Proof. apply filter_app. Qed.

End Blocks.

(** ** The per-column loop *)

Section Loop.

Variable P : string -> bool.
Variable R : string -> string.
Variable F : DataFrame -> string -> option Series.
Variable W : string -> bool.

Hypothesis F_total : forall d c,
  wf d -> In c (names d) -> In "dt" (names d) ->
  exists s, F d c = Some s /\ List.length s = nrows d.

Hypothesis R_writes : forall c, P c = true -> W (R c) = true.

Lemma derive_loop_ok (cols : list string) (df : DataFrame) (g : Groups) :
  wf df -> In "dt" (names df) ->
  (forall c, In c cols -> P c = true -> In c (names df)) ->
  exists df',
    foldM (derive_step P R F) cols (df, g) =
      Some (df', (fst g ++ group1 (map R (filter P cols)),
                  snd g ++ group2 (map R (filter P cols)))) /\
    ext W df df' /\
    (forall c, In c cols -> P c = true -> In (R c) (names df')).
Proof.
  revert df g. induction cols as [|col cols IH]; intros df g Hwf Hdt Hcols.
  - exists df. simpl. rewrite !app_nil_r. destruct g.
    split; [reflexivity|]. split; [apply ext_refl, Hwf|]. intros c [].
  - simpl foldM. unfold derive_step at 1. simpl filter.
    destruct (P col) eqn:EP.
    + destruct (F_total df col Hwf (Hcols col (or_introl eq_refl) EP) Hdt)
        as [s [Hs Hl]].
      simpl fst. rewrite Hs. simpl bind.
      assert (Hext : ext W df (set_col df (R col) s)).
      { apply ext_set_col; auto. }
      destruct (IH (set_col df (R col) s) (classify (R col) g))
        as [df' (Hf & He & Hin)].
      * apply Hext.
      * apply (ext_names W df); assumption.
      * intros c Hc Pc. apply (ext_names W df); [exact Hext|].
        apply Hcols; [right; exact Hc | exact Pc].
      * exists df'. split; [|split].
        -- rewrite Hf. rewrite classify_groups. simpl fst. simpl snd.
           simpl map. change (R col :: map R (filter P cols))
             with ([R col] ++ map R (filter P cols)).
           rewrite group1_app, group2_app, <- !app_assoc. reflexivity.
        -- eapply ext_trans; eassumption.
        -- intros c [<-|Hc] Pc; [|apply Hin; assumption].
           apply (ext_names W (set_col df (R col) s)); [exact He|].
           apply get_col_In. exists s. apply get_col_set_eq.
    + simpl bind. destruct (IH df g Hwf Hdt) as [df' (Hf & He & Hin)].
      * intros c Hc Pc. apply Hcols; [right; exact Hc | exact Pc].
      * exists df'. split; [exact Hf|]. split; [exact He|].
        intros c [<-|Hc] Pc; [congruence | apply Hin; assumption].
Qed.

End Loop.

(** ** The transforms *)

Section Transform.

Variable P : string -> bool.
Variable R : string -> string.
Variable F : DataFrame -> string -> option Series.
Variable W : string -> bool.
Variables n1 n2 : string.

Hypothesis F_total : forall d c,
  wf d -> In c (names d) -> In "dt" (names d) ->
  exists s, F d c = Some s /\ List.length s = nrows d.
Hypothesis R_writes : forall c, P c = true -> W (R c) = true.
Hypothesis n1_writes : W n1 = true.
Hypothesis n2_writes : W n2 = true.
Hypothesis P_time : P "time" = false.

Lemma derive_transform_ok (df : DataFrame) :
  wf df -> In "dt" (names df) ->
  exists df' out,
    derive_transform P R F n1 n2 df = Some (df', out) /\
    ext W df df' /\
    sel out df' /\
    names out = grouped n1 n2 (map R (filter P (names df))).
Proof.
  intros Hwf Hdt. unfold derive_transform.
  destruct (derive_loop_ok P R F W F_total R_writes (columns df) df ([], []) Hwf Hdt)
    as [df0 (Hloop & He0 & Hin0)].
  { intros c [<-|Hc] Pc; [congruence | exact Hc]. }
  unfold Groups in *. rewrite Hloop. cbn [bind fst snd app].
  assert (Hcols : filter P (columns df) = filter P (names df)).
  { unfold columns. simpl. rewrite P_time. reflexivity. }
  rewrite Hcols in *. set (V := map R (filter P (names df))) in *.
  assert (HV : forall c, In c V -> In c (names df0)).
  { intros c Hc. apply in_map_iff in Hc. destruct Hc as [c0 [<- Hc0]].
    apply filter_In in Hc0. destruct Hc0 as [Hc0 Pc0].
    apply Hin0; [right; exact Hc0 | exact Pc0]. }
  destruct (add_total_ok W n1 df0 (group1 V) (ext_wf _ _ _ He0) n1_writes)
    as [df1 (H1 & He1 & Hin1 & _)].
  { intros c Hc. apply filter_In in Hc. apply HV, Hc. }
  rewrite H1. cbn [bind].
  destruct (add_total_ok W n2 df1 (group2 V) (ext_wf _ _ _ He1) n2_writes)
    as [df2 (H2 & He2 & Hin2 & _)].
  { intros c Hc. apply filter_In in Hc.
    apply (ext_names W df0); [exact He1 | apply HV, Hc]. }
  rewrite H2. cbn [bind].
  destruct (select_ok df2 (with_total n1 (group1 V) ++ with_total n2 (group2 V))
              (ext_wf _ _ _ He2)) as [out (Hs & Hsel & Hn)].
  { intros c Hc. apply in_app_or in Hc. destruct Hc as [Hc|Hc].
    - apply (ext_names W df1); [exact He2 | apply Hin1, Hc].
    - apply Hin2, Hc. }
  rewrite Hs. cbn [bind]. exists df2, out. split; [reflexivity|].
  split; [|split; [exact Hsel | exact Hn]].
  eapply ext_trans; [exact He0|]. eapply ext_trans; eassumption.
Qed.

End Transform.

Section Names.

Lemma startswith_cons (a : ascii) (s : string) :
  Py.startswith (String a s) (String a EmptyString) = true.
Proof.
  unfold Py.startswith. simpl. destruct (ascii_dec a a); [|congruence].
  destruct s; reflexivity.
Qed.

Lemma startswith_head (c : string) (a : ascii) :
  Py.startswith c (String a EmptyString) = true -> exists r, c = String a r.
Proof.
  unfold Py.startswith. destruct c as [|b r]; simpl; [discriminate|].
  destruct (ascii_dec a b) as [->|]; [eauto | discriminate].
Qed.

Lemma startswith_head2 (c : string) (a b : ascii) :
  Py.startswith c (String a (String b EmptyString)) = true ->
  exists r, c = String a (String b r).
Proof.
  unfold Py.startswith. destruct c as [|a' [|b' r]]; simpl; try discriminate.
  - destruct (ascii_dec a a'); discriminate.
  - destruct (ascii_dec a a') as [->|]; [|discriminate].
    destruct (ascii_dec b b') as [->|]; [eauto | discriminate].
Qed.

Lemma position_col_head (c : string) :
  is_position_col c = true ->
  exists r, c = String "x" r \/ c = String "y" r \/ c = String "z" r.
Proof.
  unfold is_position_col. intros H.
  apply orb_true_iff in H. destruct H as [H|H];
    [apply orb_true_iff in H; destruct H as [H|H]|];
    apply startswith_head in H; destruct H as [r ->]; eauto.
Qed.

Lemma force_col_head (c : string) :
  is_force_col c = true ->
  exists r, c = String "f" (String "x" r) \/ c = String "f" (String "y" r) \/
            c = String "f" (String "z" r).
Proof.
  unfold is_force_col. intros H.
  apply orb_true_iff in H. destruct H as [H|H];
    [apply orb_true_iff in H; destruct H as [H|H]|];
    apply startswith_head2 in H; destruct H as [r ->]; eauto.
Qed.

(** The name the force transform works under is the column's own name. *)
Lemma force_name_id (c : string) : is_force_col c = true -> force_name c = c.
Proof.
  intros H. apply force_col_head in H.
  destruct H as [r [->|[->| ->]]]; reflexivity.
Qed.

Lemma velocity_writes (c : string) :
  is_position_col c = true -> W_velocity ("v" ++ c) = true.
Proof. intros _. apply (startswith_cons "v" c). Qed.

Lemma delta_writes (c : string) :
  is_position_col c = true -> W_delta ("d" ++ c) = true.
Proof.
  intros H. unfold W_delta. apply andb_true_iff. split.
  - apply (startswith_cons "d" c).
  - apply position_col_head in H. destruct H as [r [->|[->| ->]]]; reflexivity.
Qed.

Lemma acceleration_writes (c : string) :
  is_velocity_col c = true -> W_acceleration (acceleration_name c) = true.
Proof. intros _. apply (startswith_cons "a" (Py.tail c)). Qed.

End Names.

Lemma velocity_ok (df : DataFrame) :
  wf df -> In "dt" (names df) ->
  exists df' out,
    add_velocity_features df = Some (df', out) /\
    ext W_velocity df df' /\
    sel out df' /\
    names out =
      grouped "v1" "v2" (map (String.append "v") (filter is_position_col (names df))).
Proof.
  apply (derive_transform_ok is_position_col (String.append "v")
           get_variable_change_over_time W_velocity "v1" "v2");
    auto using change_over_time_total, velocity_writes.
Qed.

Lemma position_ok (df : DataFrame) :
  wf df -> In "dt" (names df) ->
  exists df' out,
    add_position_change_features df = Some (df', out) /\
    ext W_delta df df' /\
    sel out df' /\
    names out =
      grouped "d1" "d2" (map (String.append "d") (filter is_position_col (names df))).
Proof.
  apply (derive_transform_ok is_position_col (String.append "d")
           get_variable_change W_delta "d1" "d2");
    auto using change_total, delta_writes.
Qed.

Section ForceAndAcceleration.

Lemma force_groups (cols : list string) (g : Groups) :
  fold_left force_step cols g =
  (fst g ++ group1 (filter is_force_col cols),
   snd g ++ group2 (filter is_force_col cols)).
Proof.
  revert g. induction cols as [|c cols IH]; intros g; simpl.
  - rewrite !app_nil_r. destruct g; reflexivity.
  - rewrite IH. unfold force_step. destruct (is_force_col c) eqn:E.
    + rewrite (force_name_id c E), classify_groups. simpl fst. simpl snd.
      change (c :: filter is_force_col cols) with ([c] ++ filter is_force_col cols).
      rewrite group1_app, group2_app, <- !app_assoc. reflexivity.
    + reflexivity.
Qed.

Lemma with_total_In (name : string) (cols : list string) :
  cols <> [] -> In name (with_total name cols).
Proof.
  destruct cols as [|c cols]; [congruence|]. intros _.
  unfold with_total. apply in_or_app. right. left. reflexivity.
Qed.

Lemma with_total_incl (name : string) (cols : list string) (c : string) :
  In c cols -> In c (with_total name cols).
Proof.
  destruct cols as [|c0 cols]; [intros []|]. intros H.
  unfold with_total. apply in_or_app. left. exact H.
Qed.

Lemma mapM_ext_in {A B : Type} (f g : A -> option B) (l : list A) :
  (forall a, In a l -> f a = g a) -> mapM f l = mapM g l.
Proof.
  induction l as [|a l IH]; intros H; simpl; [reflexivity|].
  rewrite (H a (or_introl eq_refl)), IH; [reflexivity|].
  intros x Hx. apply H. right. exact Hx.
Qed.

Lemma vector_total_ext (df df' : DataFrame) (cols : list string) :
  nrows df' = nrows df ->
  (forall c, In c cols -> get_col df' c = get_col df c) ->
  get_vector_total df' cols = get_vector_total df cols.
Proof.
  intros Hn Hc. unfold get_vector_total.
  rewrite (mapM_ext_in (get_col df') (get_col df) cols Hc), Hn. reflexivity.
Qed.

Lemma sel_get_col (out ref : DataFrame) (c : string) :
  sel out ref -> In c (names out) -> get_col out c = get_col ref c.
Proof.
  intros (_ & _ & H) Hin. apply get_col_In in Hin. destruct Hin as [s Hs].
  rewrite Hs. symmetry. apply H, Hs.
Qed.

(** The force transform: the groups are the force columns under their own
    names, the magnitudes are the vector totals of the groups in the frame
    the transform was given. *)
Lemma force_ok (df : DataFrame) :
  wf df ->
  let Fc := filter is_force_col (names df) in
  exists df' out,
    add_total_force_features df = Some (df', out) /\
    ext W_force df df' /\
    sel out df' /\
    names out = grouped "f1" "f2" Fc /\
    (group1 Fc <> [] ->
     exists s, get_vector_total df (group1 Fc) = Some s /\
               get_col out "f1" = Some s) /\
    (group2 Fc <> [] ->
     exists s, get_vector_total df (group2 Fc) = Some s /\
               get_col out "f2" = Some s).
Proof.
  intros Hwf Fc. unfold add_total_force_features.
  rewrite force_groups. cbn [fst snd app].
  change (filter is_force_col (columns df)) with Fc.
  assert (HFc : forall c, In c Fc -> In c (names df) /\ is_force_col c = true).
  { intros c Hc. apply filter_In in Hc. exact Hc. }
  destruct (add_total_ok (fun c => String.eqb c "f1") "f1" df (group1 Fc) Hwf eq_refl)
    as [df1 (H1 & He1 & Hin1 & Hv1)].
  { intros c Hc. apply filter_In in Hc. apply HFc, Hc. }
  rewrite H1. cbn [bind].
  destruct (add_total_ok (fun c => String.eqb c "f2") "f2" df1 (group2 Fc)
              (ext_wf _ _ _ He1) eq_refl) as [df2 (H2 & He2 & Hin2 & Hv2)].
  { intros c Hc. apply filter_In in Hc.
    eapply ext_names; [exact He1 | apply HFc, Hc]. }
  rewrite H2. cbn [bind].
  destruct (select_ok df2 (with_total "f1" (group1 Fc) ++ with_total "f2" (group2 Fc))
              (ext_wf _ _ _ He2)) as [out (Hs & Hsel & Hn)].
  { intros c Hc. apply in_app_or in Hc. destruct Hc as [Hc|Hc].
    - eapply ext_names; [exact He2 | apply Hin1, Hc].
    - apply Hin2, Hc. }
  rewrite Hs. cbn [bind]. exists df2, out. split; [reflexivity|].
  split; [|split; [exact Hsel | split; [exact Hn | split]]].
  - eapply ext_trans; eapply ext_weaken; try eassumption; unfold W_force;
      intros c ->; [reflexivity | apply orb_true_r].
  - intros Hne. destruct (Hv1 Hne) as [s [Hs1 Hg1]]. exists s. split; [exact Hs1|].
    rewrite (sel_get_col out df2 "f1" Hsel).
    + destruct He2 as (_ & _ & _ & Hk). rewrite Hk by reflexivity. exact Hg1.
    + rewrite Hn. apply in_or_app. left. apply with_total_In, Hne.
  - intros Hne. destruct (Hv2 Hne) as [s [Hs2 Hg2]]. exists s. split.
    + rewrite <- Hs2. symmetry. apply vector_total_ext.
      * apply (ext_nrows _ _ _ He1).
      * intros c Hc. destruct He1 as (_ & _ & _ & Hk). apply Hk.
        apply filter_In in Hc. destruct Hc as [Hc _]. apply HFc in Hc.
        destruct Hc as [_ Hc]. apply force_col_head in Hc.
        destruct Hc as [r [->|[->| ->]]]; reflexivity.
    + rewrite (sel_get_col out df2 "f2" Hsel); [exact Hg2|].
      rewrite Hn. apply in_or_app. right. apply with_total_In, Hne.
Qed.

(** The acceleration stage extends the frame it is given. *)
Lemma acceleration_ok (df : DataFrame) :
  wf df -> In "dt" (names df) ->
  let A := map acceleration_name (filter is_velocity_col (names df)) in
  exists df',
    add_acceleration_features df = Some df' /\
    ext W_acceleration df df' /\
    (forall c, In c (names df) -> is_velocity_col c = true ->
               In (acceleration_name c) (names df')) /\
    (group1 A <> [] -> In "a1" (names df')) /\
    (group2 A <> [] -> In "a2" (names df')).
Proof.
  intros Hwf Hdt A. unfold add_acceleration_features.
  destruct (derive_loop_ok is_velocity_col acceleration_name
              get_variable_change_over_time W_acceleration
              change_over_time_total acceleration_writes
              (columns df) df ([], []) Hwf Hdt) as [df0 (Hloop & He0 & Hin0)].
  { intros c [<-|Hc] Pc; [discriminate | exact Hc]. }
  assert (Estep : acceleration_step =
            derive_step is_velocity_col acceleration_name
              get_variable_change_over_time) by reflexivity.
  rewrite Estep. unfold Groups in *. rewrite Hloop. cbn [bind fst snd app].
  change (filter is_velocity_col (columns df))
    with (filter is_velocity_col (names df)).
  fold A.
  assert (HA : forall c, In c A -> In c (names df0)).
  { intros c Hc. apply in_map_iff in Hc. destruct Hc as [c0 [<- Hc0]].
    apply filter_In in Hc0. destruct Hc0 as [Hc0 Pc0].
    apply Hin0; [right; exact Hc0 | exact Pc0]. }
  destruct (add_total_ok W_acceleration "a1" df0 (group1 A) (ext_wf _ _ _ He0) eq_refl)
    as [df1 (H1 & He1 & Hin1 & _)].
  { intros c Hc. apply filter_In in Hc. apply HA, Hc. }
  rewrite H1. cbn [bind].
  destruct (add_total_ok W_acceleration "a2" df1 (group2 A) (ext_wf _ _ _ He1) eq_refl)
    as [df2 (H2 & He2 & Hin2 & _)].
  { intros c Hc. apply filter_In in Hc.
    eapply ext_names; [exact He1 | apply HA, Hc]. }
  rewrite H2. cbn [bind]. exists df2. split; [reflexivity|].
  split; [|split; [|split]].
  - eapply ext_trans; [exact He0|]. eapply ext_trans; eassumption.
  - intros c Hc Pc. eapply ext_names; [exact He2|].
    eapply ext_names; [exact He1|]. apply Hin0; [right; exact Hc | exact Pc].
  - intros Hne. eapply ext_names; [exact He2|].
    apply Hin1, with_total_In, Hne.
  - intros Hne. apply Hin2, with_total_In, Hne.
Qed.

End ForceAndAcceleration.

(** ** The inner join of two frames over the same rows *)

Section Merge.

Lemma key_eq_refl (x : float) : key_eq x x = true.
Proof.
  unfold key_eq, is_nan. destruct (x =? x); reflexivity.
Qed.

Lemma filter_none {A : Type} (f : A -> bool) (l : list A) :
  (forall x, In x l -> f x = false) -> filter f l = [].
Proof.
  induction l as [|x l IH]; intros H; simpl; [reflexivity|].
  rewrite (H x (or_introl eq_refl)). apply IH. intros y Hy. apply H. right. exact Hy.
Qed.

Lemma filter_seq_single (f : nat -> bool) (i n a : nat) :
  a <= i < a + n ->
  (forall j, a <= j < a + n -> (f j = true <-> j = i)) ->
  filter f (seq a n) = [i].
Proof.
  revert a. induction n as [|n IH]; intros a Hi Hf; [lia|].
  simpl. destruct (Nat.eq_dec a i) as [->|Hne].
  - replace (f i) with true by (symmetry; apply Hf; [lia | reflexivity]).
    f_equal. apply filter_none. intros j Hj. apply in_seq in Hj.
    destruct (f j) eqn:E; [|reflexivity]. apply Hf in E; lia.
  - replace (f a) with false.
    + apply IH; [lia|]. intros j Hj. apply Hf. lia.
    + symmetry. destruct (f a) eqn:E; [|reflexivity]. apply Hf in E; lia.
Qed.

Lemma flat_map_singletons {A B : Type} (f : A -> list B) (g : A -> B) (l : list A) :
  (forall a, In a l -> f a = [g a]) -> flat_map f l = map g l.
Proof.
  induction l as [|a l IH]; intros H; simpl; [reflexivity|].
  rewrite (H a (or_introl eq_refl)), IH; [reflexivity|].
  intros x Hx. apply H. right. exact Hx.
Qed.

Lemma map_nth_seq {A : Type} (l : list A) (d : A) :
  map (fun i => nth i l d) (seq 0 (List.length l)) = l.
Proof.
  induction l as [|a l IH]; [reflexivity|].
  cbn [List.length seq map nth]. f_equal.
  rewrite <- seq_shift, map_map. exact IH.
Qed.

Lemma mem_filter (x : string) (p : string -> bool) (l : list string) :
  Py.mem x (filter p l) = Py.mem x l && p x.
Proof.
  induction l as [|y l IH]; simpl; [reflexivity|].
  destruct (p y) eqn:Ey; simpl; rewrite IH.
  - destruct (String.eqb_spec x y) as [->|Hne]; simpl; [rewrite Ey|]; reflexivity.
  - destruct (String.eqb_spec x y) as [->|Hne]; simpl; [|reflexivity].
    rewrite Ey, andb_false_r. reflexivity.
Qed.

Variables l r : DataFrame.

Hypothesis wf_l : wf l.
Hypothesis wf_r : wf r.
Hypothesis same_time : df_time r = df_time l.
Hypothesis distinct : NoDup (df_time l).
Hypothesis agree : agrees l r.

Lemma common_cells (k : string) (i : nat) :
  In k (common_cols l r) -> cell l k i = cell r k i.
Proof.
  unfold common_cols. intros H. apply filter_In in H. destruct H as [Hl Hr].
  apply mem_In in Hr. apply lookup_In in Hl. apply lookup_In in Hr.
  destruct Hl as [s Hs], Hr as [s' Hs']. unfold cell, get_col.
  rewrite Hs, Hs'. rewrite (agree k s s' Hs Hs'). reflexivity.
Qed.

Lemma row_match_diag (i j : nat) :
  i < nrows l -> j < nrows l ->
  (row_match l r (common_cols l r) i j = true <-> j = i).
Proof.
  intros Hi Hj. unfold row_match. rewrite same_time. split.
  - intros H. apply andb_true_iff in H. destruct H as [H _].
    apply Z.eqb_eq in H. symmetry.
    apply (proj1 (NoDup_nth (df_time l) 0%Z) distinct); assumption.
  - intros ->. apply andb_true_iff. split; [apply Z.eqb_refl|].
    apply forallb_forall. intros k Hk.
    rewrite (common_cells k i Hk). apply key_eq_refl.
Qed.

Lemma merge_pairs_diag :
  merge_pairs l r (common_cols l r) = map (fun i => (i, i)) (seq 0 (nrows l)).
Proof.
  unfold merge_pairs. apply flat_map_singletons. intros i Hi.
  apply in_seq in Hi.
  replace (nrows r) with (nrows l) by (unfold nrows; rewrite same_time; reflexivity).
  rewrite (filter_seq_single _ i); [reflexivity | lia |].
  intros j Hj. apply row_match_diag; lia.
Qed.

(** Joined on their common columns, two frames over the same distinct time
    stamps that agree on these columns give the left frame followed by the
    columns only the right frame has: every row is matched with itself. *)
Lemma merge_same_rows :
  merge l r =
  mkDF (df_time l)
       (df_cols l ++
        filter (fun c => negb (Py.mem (fst c) (names l))) (df_cols r)).
Proof.
  unfold merge. rewrite merge_pairs_diag. rewrite !map_map. cbn [fst snd].
  f_equal.
  - apply map_nth_seq.
  - f_equal.
    + rewrite <- (map_id (df_cols l)) at 2. apply map_ext_in.
      intros [k v] Hk. cbn [fst snd]. f_equal.
      unfold wf in wf_l. rewrite Forall_forall in wf_l.
      specialize (wf_l _ Hk). cbn [snd] in wf_l.
      rewrite <- wf_l, map_map. apply map_nth_seq.
    + assert (Hkeys : forall c, In c (df_cols r) ->
                negb (Py.mem (fst c) (common_cols l r)) =
                negb (Py.mem (fst c) (names l))).
      { intros c Hc. unfold common_cols. rewrite mem_filter.
        replace (Py.mem (fst c) (map fst (df_cols r))) with true;
          [rewrite andb_true_r; reflexivity|].
        symmetry. apply mem_In, in_map, Hc. }
      rewrite (filter_ext_in _ _ _ Hkeys).
      rewrite <- (map_id (filter _ (df_cols r))) at 2. apply map_ext_in.
      intros [k v] Hk. apply filter_In in Hk. destruct Hk as [Hk _].
      cbn [fst snd]. f_equal.
      unfold wf in wf_r. rewrite Forall_forall in wf_r.
      specialize (wf_r _ Hk). cbn [snd] in wf_r.
      replace (nrows l) with (nrows r)
        by (unfold nrows; rewrite same_time; reflexivity).
      rewrite <- wf_r, map_map. apply map_nth_seq.
Qed.

Lemma merge_time : df_time (merge l r) = df_time l.
Proof. rewrite merge_same_rows. reflexivity. Qed.

Lemma merge_get_col (k : string) :
  get_col (merge l r) k =
  match get_col l k with
  | Some s => Some s
  | None => get_col r k
  end.
Proof.
  rewrite merge_same_rows. unfold get_col. cbn [df_cols].
  rewrite lookup_app.
  destruct (lookup k (df_cols l)) as [s|] eqn:E; [reflexivity|].
  rewrite (lookup_filter_names k (fun n => negb (Py.mem n (names l)))).
  apply lookup_None in E. apply mem_false in E. unfold names. rewrite E.
  reflexivity.
Qed.

Lemma merge_names :
  names (merge l r) =
  names l ++ filter (fun n => negb (Py.mem n (names l))) (names r).
Proof.
  rewrite merge_same_rows. unfold names. cbn [df_cols]. rewrite map_app.
  f_equal. induction (df_cols r) as [|[k v] cr IH]; simpl; [reflexivity|].
  destruct (Py.mem k (map fst (df_cols l))); simpl; rewrite IH; reflexivity.
Qed.

Lemma merge_wf : wf (merge l r).
Proof.
  rewrite merge_same_rows. unfold wf, nrows. cbn [df_cols df_time].
  apply Forall_app. split; [exact wf_l|].
  apply Forall_forall. intros c Hc. apply filter_In in Hc. destruct Hc as [Hc _].
  unfold wf in wf_r. rewrite Forall_forall in wf_r. specialize (wf_r _ Hc).
  unfold nrows in wf_r. rewrite same_time in wf_r. exact wf_r.
Qed.

Lemma merge_agrees (x : DataFrame) :
  agrees l x -> agrees r x -> agrees (merge l r) x.
Proof.
  intros Hl Hr k s s' Hs Hs'. rewrite merge_get_col in Hs.
  destruct (get_col l k) as [v|] eqn:E.
  - injection Hs as <-. apply (Hl k v s' E Hs').
  - apply (Hr k s s' Hs Hs').
Qed.

Lemma merge_names_incl_l (c : string) : In c (names l) -> In c (names (merge l r)).
Proof. intros H. rewrite merge_names. apply in_or_app. left. exact H. Qed.

Lemma merge_names_incl_r (c : string) : In c (names r) -> In c (names (merge l r)).
Proof.
  intros H. apply get_col_In. rewrite merge_get_col.
  destruct (get_col l c) as [s|]; [eauto|]. apply get_col_In, H.
Qed.

End Merge.

(** ** Name classes of the stages *)

Section Classes.

Lemma velocity_class (k : string) :
  W_velocity k = true ->
  W_force k = false /\ W_delta k = false /\ W_time k = false /\
  is_position_col k = false /\ is_force_col k = false /\
  Py.startswith k "f" = false.
Proof.
  intros H. apply startswith_head in H. destruct H as [r ->].
  repeat split; reflexivity.
Qed.

Lemma delta_class (k : string) :
  W_delta k = true ->
  W_force k = false /\ W_velocity k = false /\ W_time k = false /\
  is_position_col k = false /\ is_force_col k = false /\
  Py.startswith k "f" = false.
Proof.
  intros H. unfold W_delta in H. apply andb_true_iff in H. destruct H as [H Hdt].
  apply startswith_head in H. destruct H as [r ->].
  repeat split; try reflexivity.
  unfold W_time. apply negb_true_iff in Hdt. rewrite Hdt. reflexivity.
Qed.

Lemma force_class (k : string) :
  W_force k = true ->
  W_velocity k = false /\ W_delta k = false /\ W_time k = false /\
  is_position_col k = false /\ is_force_col k = false /\
  Py.startswith k "f" = true.
Proof.
  intros H. unfold W_force in H. apply orb_true_iff in H.
  destruct H as [H|H]; apply String.eqb_eq in H; subst k;
    repeat split; reflexivity.
Qed.

Lemma time_class (k : string) :
  W_time k = true ->
  W_stage2 k = false /\ is_position_col k = false /\ is_force_col k = false /\
  is_velocity_col k = false.
Proof.
  intros H. unfold W_time in H. apply orb_true_iff in H.
  destruct H as [H|H]; apply String.eqb_eq in H; subst k;
    repeat split; reflexivity.
Qed.

Lemma force_col_class (k : string) :
  is_force_col k = true ->
  Py.startswith k "f" = true /\ W_stage2 k = false /\ is_position_col k = false.
Proof.
  intros H. apply force_col_head in H.
  destruct H as [r [->|[->| ->]]]; repeat split; try reflexivity;
    destruct r as [|a r]; reflexivity.
Qed.

Lemma startswith_f_class (k : string) :
  Py.startswith k "f" = true -> W_velocity k = false /\ W_delta k = false.
Proof.
  intros H. apply startswith_head in H. destruct H as [r ->].
  split; reflexivity.
Qed.

Lemma stage2_split (k : string) :
  W_stage2 k = false ->
  W_velocity k = false /\ W_force k = false /\ W_delta k = false.
Proof.
  unfold W_stage2. intros H. apply orb_false_iff in H. destruct H as [H Hd].
  apply orb_false_iff in H. tauto.
Qed.

Lemma grouped_class (Q : string -> Prop) (n1 n2 : string) (ns : list string) :
  Q n1 -> Q n2 -> (forall n, In n ns -> Q n) ->
  forall c, In c (grouped n1 n2 ns) -> Q c.
Proof.
  intros H1 H2 Hns c Hc. unfold grouped in Hc. apply in_app_or in Hc.
  assert (G : forall n g, Q n -> (forall x, In x g -> Q x) ->
                          In c (with_total n g) -> Q c).
  { intros n g Hn Hg Hin. destruct g as [|x g]; [destruct Hin|].
    unfold with_total in Hin. apply in_app_or in Hin.
    destruct Hin as [Hin|[<-|[]]]; auto. }
  destruct Hc as [Hc|Hc].
  - apply (G n1 (group1 ns)); auto. intros x Hx. apply filter_In in Hx. apply Hns, Hx.
  - apply (G n2 (group2 ns)); auto. intros x Hx. apply filter_In in Hx. apply Hns, Hx.
Qed.

Lemma velocity_names_class (ps : list string) (c : string) :
  In c (grouped "v1" "v2" (map (String.append "v") ps)) -> W_velocity c = true.
Proof.
  apply (grouped_class (fun c => W_velocity c = true)); try reflexivity.
  intros n Hn. apply in_map_iff in Hn. destruct Hn as [p [<- _]].
  apply (startswith_cons "v" p).
Qed.

Lemma delta_names_class (ps : list string) (c : string) :
  (forall p, In p ps -> is_position_col p = true) ->
  In c (grouped "d1" "d2" (map (String.append "d") ps)) -> W_delta c = true.
Proof.
  intros Hps. apply (grouped_class (fun c => W_delta c = true)); try reflexivity.
  intros n Hn. apply in_map_iff in Hn. destruct Hn as [p [<- Hp]].
  apply delta_writes, Hps, Hp.
Qed.

Lemma force_names_class (fs : list string) (c : string) :
  (forall f, In f fs -> is_force_col f = true) ->
  In c (grouped "f1" "f2" fs) -> Py.startswith c "f" = true.
Proof.
  intros Hfs.
  apply (grouped_class (fun c => Py.startswith c "f" = true)); try reflexivity.
  intros n Hn. apply force_col_class, Hfs, Hn.
Qed.

Lemma agrees_sym (l r : DataFrame) : agrees l r -> agrees r l.
Proof. intros H k s s' Hs Hs'. symmetry. apply (H k s' s Hs' Hs). Qed.

Lemma agrees_disjoint (l r : DataFrame) :
  (forall k, In k (names l) -> In k (names r) -> False) -> agrees l r.
Proof.
  intros H k s s' Hs Hs'. exfalso. apply (H k); apply get_col_In; eauto.
Qed.

Lemma sel_agrees (base M out : DataFrame) :
  sel out M ->
  (forall k, In k (names base) -> In k (names out) -> get_col M k = get_col base k) ->
  agrees base out.
Proof.
  intros (_ & _ & Hsel) HM k s s' Hs Hs'.
  assert (E : get_col M k = get_col base k).
  { apply HM; apply get_col_In; eauto. }
  apply Hsel in Hs'. congruence.
Qed.

End Classes.
(** ** The kinematic deriver *)

Section Engineered.

Variable timestamp : Z -> float.
Variable df : DataFrame.

Hypothesis df_wf : wf df.

Lemma engineered_unfold :
  add_engineered_features timestamp df =
  (r <- bag_map stage2_transforms (with_clock timestamp df) ;;
   match r with
   | [vdf; adf; pdf] =>
       add_acceleration_features
         (merge (with_clock timestamp df) (merge (merge vdf adf) pdf))
   | _ => None
   end).
Proof.
  unfold add_engineered_features. cbv zeta. rewrite get_col_set_eq. reflexivity.
Qed.

Lemma clock_ext : ext W_time df (with_clock timestamp df).
Proof.
  unfold with_clock. cbv zeta.
  assert (L : List.length (map timestamp (df_time df)) = nrows df)
    by apply length_map.
  apply (ext_trans W_time df
           (set_col df "timestamp" (map timestamp (df_time df)))).
  - apply (ext_set_col W_time); [exact df_wf | exact L | reflexivity].
  - apply (ext_set_col W_time); [apply wf_set_col; assumption | | reflexivity].
    rewrite length_delta. exact L.
Qed.

Lemma clock_dt : In "dt" (names (with_clock timestamp df)).
Proof. apply get_col_In. eexists. apply get_col_set_eq. Qed.

Lemma clock_timestamp : In "timestamp" (names (with_clock timestamp df)).
Proof.
  apply get_col_In. unfold with_clock. cbv zeta.
  rewrite get_col_set_neq by discriminate. eexists. apply get_col_set_eq.
Qed.

Lemma clock_names (c : string) :
  In c (names (with_clock timestamp df)) <->
  In c (names df) \/ c = "timestamp" \/ c = "dt".
Proof.
  split.
  - intros H. destruct clock_ext as (_ & _ & (e & Hn & He) & _).
    rewrite Hn in H. apply in_app_or in H. destruct H as [H|H]; [left; exact H|].
    right. rewrite Forall_forall in He. apply He in H. unfold W_time in H.
    apply orb_true_iff in H. destruct H as [H|H]; apply String.eqb_eq in H; auto.
  - intros [H|[->| ->]].
    + eapply ext_names; [apply clock_ext | exact H].
    + apply clock_timestamp.
    + apply clock_dt.
Qed.

Lemma clock_filter (P : string -> bool) :
  (forall c, W_time c = true -> P c = false) ->
  filter P (names (with_clock timestamp df)) = filter P (names df).
Proof. intros H. apply (ext_filter W_time P _ _ H clock_ext). Qed.

(** The three transforms return on the stage-1 frame, and the bag hands
    back the three frames they return. *)
Lemma stage2_runs :
  let df1 := with_clock timestamp df in
  exists dfa vdf dfb adf dfc pdf,
    add_velocity_features df1 = Some (dfa, vdf) /\
    add_total_force_features df1 = Some (dfb, adf) /\
    add_position_change_features df1 = Some (dfc, pdf) /\
    bag_map stage2_transforms df1 = Some [vdf; adf; pdf] /\
    (ext W_velocity df1 dfa /\ sel vdf dfa /\
     names vdf = grouped "v1" "v2" (velocity_names df)) /\
    (ext W_force df1 dfb /\ sel adf dfb /\
     names adf = grouped "f1" "f2" (force_cols df)) /\
    (ext W_delta df1 dfc /\ sel pdf dfc /\
     names pdf = grouped "d1" "d2" (delta_names df)).
Proof.
  intros df1.
  pose proof clock_ext as He1. fold df1 in He1.
  pose proof (ext_wf _ _ _ He1) as Hwf1.
  pose proof clock_dt as Hdt1. fold df1 in Hdt1.
  assert (Hpos : filter is_position_col (names df1) = filter is_position_col (names df)).
  { apply clock_filter. intros c Hc. apply time_class in Hc. tauto. }
  assert (Hfor : filter is_force_col (names df1) = filter is_force_col (names df)).
  { apply clock_filter. intros c Hc. apply time_class in Hc. tauto. }
  destruct (velocity_ok df1 Hwf1 Hdt1) as [dfa [vdf (Hv & Eva & Sv & Nv)]].
  rewrite Hpos in Nv. fold (velocity_names df) in Nv.
  destruct (force_ok df1 Hwf1) as [dfb [adf (Hf & Efb & Sf & Nf & _)]].
  rewrite Hfor in Nf. fold (force_cols df) in Nf.
  destruct (position_ok df1 Hwf1 Hdt1) as [dfc [pdf (Hp & Epc & Sp & Np)]].
  rewrite Hpos in Np. fold (delta_names df) in Np.
  exists dfa, vdf, dfb, adf, dfc, pdf.
  split; [exact Hv|]. split; [exact Hf|]. split; [exact Hp|]. split.
  { unfold bag_map, stage2_transforms. cbn [mapM]. rewrite Hv, Hf, Hp. reflexivity. }
  tauto.
Qed.

End Engineered.

Section Assembly.

Lemma merge_facts (l r : DataFrame) :
  wf l -> wf r -> df_time r = df_time l -> NoDup (df_time l) -> agrees l r ->
  df_time (merge l r) = df_time l /\
  wf (merge l r) /\
  (forall x, agrees l x -> agrees r x -> agrees (merge l r) x) /\
  (forall c, In c (names l) -> In c (names (merge l r))) /\
  (forall c, In c (names r) -> In c (names (merge l r))) /\
  (exists extra, names (merge l r) = names l ++ extra) /\
  (forall k s, get_col l k = Some s -> get_col (merge l r) k = Some s) /\
  (forall c, In c (names (merge l r)) -> In c (names l) \/ In c (names r)).
Proof.
  intros Hl Hr Ht Hnd Ha. repeat split.
  - apply merge_time; assumption.
  - apply merge_wf; assumption.
  - intros x. apply merge_agrees; assumption.
  - intros c. apply merge_names_incl_l; assumption.
  - intros c. apply merge_names_incl_r; assumption.
  - eexists. apply merge_names; assumption.
  - intros k s Hs. rewrite merge_get_col by assumption. rewrite Hs. reflexivity.
  - intros c Hc. rewrite merge_names in Hc by assumption.
    apply in_app_or in Hc. destruct Hc as [Hc|Hc]; [left; exact Hc|].
    right. apply filter_In in Hc. apply Hc.
Qed.

Lemma endswith_cons (a b : ascii) (p q : string) :
  p <> EmptyString -> String.length q = 1%nat ->
  Py.endswith (String a p) q = Py.endswith (String b p) q.
Proof.
  intros Hp Hq. destruct p as [|c p]; [congruence|].
  unfold Py.endswith. rewrite Hq. reflexivity.
Qed.

Lemma velocity_name_facts (v : string) (ps : list string) :
  In v (map (String.append "v") (filter is_position_col ps)) ->
  is_velocity_col v = true /\
  Py.endswith (acceleration_name v) "1" = Py.endswith v "1" /\
  Py.endswith (acceleration_name v) "2" = Py.endswith v "2".
Proof.
  intros H. apply in_map_iff in H. destruct H as [p [<- Hp]].
  apply filter_In in Hp. destruct Hp as [_ Hp].
  assert (Hne : p <> EmptyString).
  { intros ->. discriminate. }
  split; [|split].
  - apply position_col_head in Hp.
    destruct Hp as [r [->|[->| ->]]]; destruct r; reflexivity.
  - apply (endswith_cons "a" "v" p "1" Hne eq_refl).
  - apply (endswith_cons "a" "v" p "2" Hne eq_refl).
Qed.

Lemma group_nonempty (p : string -> bool) (ns : list string) (n : string) :
  In n ns -> p n = true -> filter p ns <> [].
Proof.
  intros Hin Hp E. assert (H : In n (filter p ns)) by (apply filter_In; tauto).
  rewrite E in H. destruct H.
Qed.

End Assembly.

(** ** The force transform *)

(** C4 (as stated, refuted): the force transform takes ['f' + col[1:]] as
    the working name, which for a column beginning with [f] is the column's
    own name: [fx_1] stays [fx_1], the axis letter is not stripped, and the
    output carries the columns under their original names. *)
Lemma force_rename_counterexample :
  force_name "fx_1" = "fx_1" /\
  force_name "fx_1" <> "f_1" /\
  option_map (fun r => columns (snd r)) (add_total_force_features frame_run)
    = Some ["time"; "fx_1"; "fy_1"; "f1"].
Proof. repeat split. discriminate. Qed.

(** C4 (amended): every column whose name begins with [fx], [fy] or [fz] is
    processed under its own, unchanged name; the columns among them ending
    in 1 form group 1, those ending in 2 group 2; each non-empty group gets
    a magnitude column [f1] / [f2] equal to the vector total of the group's
    columns; the output keeps the rows and holds only [time], group 1 with
    [f1] and group 2 with [f2], the group columns with their cells. *)
Theorem force_transform_groups (df : DataFrame) :
  wf df ->
  (forall col, is_force_col col = true -> force_name col = col) /\
  exists df' out,
    add_total_force_features df = Some (df', out) /\
    df_time out = df_time df /\
    columns out = "time" :: grouped "f1" "f2" (force_cols df) /\
    (forall c, In c (group1 (force_cols df) ++ group2 (force_cols df)) ->
               get_col out c = get_col df c) /\
    (group1 (force_cols df) <> [] ->
     exists s, get_vector_total df (group1 (force_cols df)) = Some s /\
               get_col out "f1" = Some s) /\
    (group2 (force_cols df) <> [] ->
     exists s, get_vector_total df (group2 (force_cols df)) = Some s /\
               get_col out "f2" = Some s).
Proof.
  intros Hwf. split; [exact force_name_id|].
  destruct (force_ok df Hwf) as [df' [out (Hf & He & Hs & Hn & H1 & H2)]].
  exists df', out. split; [exact Hf|].
  split; [destruct Hs as (Ht & _); destruct He as (Ht' & _); congruence|].
  split; [unfold columns; fold (names out); rewrite Hn; reflexivity|].
  split; [|split; assumption].
  intros c Hc.
  assert (Hfc : In c (force_cols df)).
  { apply in_app_or in Hc. destruct Hc as [Hc|Hc]; apply filter_In in Hc; tauto. }
  rewrite (sel_get_col out df' c Hs).
  - destruct He as (_ & _ & _ & Hk). apply Hk.
    apply filter_In in Hfc. destruct Hfc as [_ Hfc].
    apply force_col_class in Hfc. destruct Hfc as (_ & Hfc & _).
    apply stage2_split in Hfc. tauto.
  - rewrite Hn. unfold grouped.
    apply in_app_or in Hc. destruct Hc as [Hc|Hc].
    + apply in_or_app. left. apply with_total_incl, Hc.
    + apply in_or_app. right. apply with_total_incl, Hc.
Qed.

Lemma force_transform_groups_witness :
  (forall col, is_force_col col = true -> force_name col = col) /\
  exists df' out,
    add_total_force_features frame_run = Some (df', out) /\
    df_time out = df_time frame_run /\
    columns out = "time" :: grouped "f1" "f2" (force_cols frame_run) /\
    (forall c, In c (group1 (force_cols frame_run) ++ group2 (force_cols frame_run)) ->
               get_col out c = get_col frame_run c) /\
    (group1 (force_cols frame_run) <> [] ->
     exists s, get_vector_total frame_run (group1 (force_cols frame_run)) = Some s /\
               get_col out "f1" = Some s) /\
    (group2 (force_cols frame_run) <> [] ->
     exists s, get_vector_total frame_run (group2 (force_cols frame_run)) = Some s /\
               get_col out "f2" = Some s).
Proof.
  apply (force_transform_groups frame_run).
  unfold wf. simpl. repeat constructor.
Defined.

(** ** The stage-2 transforms and the frame they are given *)





(** ** The wide pivot *)

Section SortUniq.

Variable A : Type.
Variable cmp : A -> A -> comparison.

Hypothesis cmp_eq : forall x y, cmp x y = Eq -> x = y.
Hypothesis cmp_antisym : forall x y, cmp y x = CompOpp (cmp x y).
Hypothesis cmp_trans : forall x y z, cmp x y = Lt -> cmp y z = Lt -> cmp x z = Lt.

Lemma cmp_gt_trans (x y z : A) : cmp x y = Gt -> cmp y z = Gt -> cmp x z = Gt.
Proof.
  intros H1 H2. rewrite (cmp_antisym z x).
  rewrite (cmp_trans z y x); [reflexivity | |].
  - rewrite (cmp_antisym y z), H2. reflexivity.
  - rewrite (cmp_antisym x y), H1. reflexivity.
Qed.

Lemma insert_uniq_comm (x y : A) (s : list A) :
  insert_uniq cmp x (insert_uniq cmp y s) = insert_uniq cmp y (insert_uniq cmp x s).
Proof.
  induction s as [|a s IH]; simpl.
  - rewrite (cmp_antisym x y). destruct (cmp x y) eqn:E; simpl; try reflexivity.
    apply cmp_eq in E. subst. reflexivity.
  - destruct (cmp x a) eqn:Exa, (cmp y a) eqn:Eya; simpl;
      rewrite ?Exa, ?Eya.
    + reflexivity.
    + (* x = a, y < a *)
      assert (E : cmp x y = Gt).
      { rewrite (cmp_antisym y x). rewrite (cmp_eq x a Exa), Eya. reflexivity. }
      rewrite E. simpl. rewrite ?Exa, ?Eya. reflexivity.
    + reflexivity.
    + (* x < a, y = a *)
      assert (E : cmp y x = Gt).
      { rewrite (cmp_antisym x y). rewrite (cmp_eq y a Eya), Exa. reflexivity. }
      rewrite E. simpl. rewrite ?Exa, ?Eya. reflexivity.
    + (* x < a, y < a *)
      rewrite (cmp_antisym x y). destruct (cmp x y) eqn:E; simpl;
        rewrite ?Exa, ?Eya; try reflexivity.
      apply cmp_eq in E. subst. reflexivity.
    + (* x < a, y > a *)
      assert (E : cmp y x = Gt).
      { apply (cmp_gt_trans y a x); [exact Eya|].
        rewrite (cmp_antisym x a), Exa. reflexivity. }
      rewrite E. simpl. rewrite ?Exa, ?Eya. reflexivity.
    + reflexivity.
    + (* x > a, y < a *)
      assert (E : cmp x y = Gt).
      { apply (cmp_gt_trans x a y); [exact Exa|].
        rewrite (cmp_antisym y a), Eya. reflexivity. }
      rewrite E. simpl. rewrite ?Exa, ?Eya. reflexivity.
    + (* x > a, y > a *)
      rewrite IH. reflexivity.
Qed.

(** The sorted distinct labels depend only on which labels occur. *)
Lemma sort_uniq_perm (l l' : list A) :
  Permutation l l' -> sort_uniq cmp l = sort_uniq cmp l'.
Proof.
  unfold sort_uniq. induction 1; simpl.
  - reflexivity.
  - rewrite IHPermutation. reflexivity.
  - apply insert_uniq_comm.
  - congruence.
Qed.

End SortUniq.

Section PivotFacts.

Lemma ascii_compare_refl (a : ascii) : Ascii.compare a a = Eq.
Proof. apply N.compare_refl. Qed.

Lemma string_compare_trans (x y z : string) :
  String.compare x y = Lt -> String.compare y z = Lt -> String.compare x z = Lt.
Proof.
  revert y z. induction x as [|a x IH]; intros [|b y] [|c z]; simpl;
    try discriminate; try reflexivity.
  destruct (Ascii.compare a b) eqn:Eab; try discriminate;
    destruct (Ascii.compare b c) eqn:Ebc; try discriminate; intros H1 H2.
  - apply Ascii.compare_eq_iff in Eab, Ebc. subst.
    rewrite ascii_compare_refl. apply (IH y z); assumption.
  - apply Ascii.compare_eq_iff in Eab. subst. rewrite Ebc. reflexivity.
  - apply Ascii.compare_eq_iff in Ebc. subst. rewrite Eab. reflexivity.
  - unfold Ascii.compare in *. rewrite N.compare_lt_iff in *.
    replace (N_of_ascii a ?= N_of_ascii c)%N with Lt; [reflexivity|].
    symmetry. apply N.compare_lt_iff. lia.
Qed.

Lemma key_compare_eq (a b : Key) : key_compare a b = Eq -> a = b.
Proof.
  destruct a as [f e], b as [f' e']. unfold key_compare. simpl.
  destruct (String.compare f f') eqn:E; try discriminate.
  intros H. apply String.compare_eq_iff in E. apply N.compare_eq in H. congruence.
Qed.

Lemma key_compare_antisym (a b : Key) : key_compare b a = CompOpp (key_compare a b).
Proof.
  destruct a as [f e], b as [f' e']. unfold key_compare. simpl.
  rewrite (String.compare_antisym f' f).
  destruct (String.compare f f'); simpl; try reflexivity.
  apply N.compare_antisym.
Qed.

Lemma string_compare_refl (s : string) : String.compare s s = Eq.
Proof.
  induction s as [|a s IH]; simpl; [reflexivity|].
  rewrite ascii_compare_refl. exact IH.
Qed.

Lemma key_compare_trans (a b c : Key) :
  key_compare a b = Lt -> key_compare b c = Lt -> key_compare a c = Lt.
Proof.
  destruct a as [f1 e1], b as [f2 e2], c as [f3 e3]. unfold key_compare. simpl.
  destruct (String.compare f1 f2) eqn:E12; try discriminate;
    destruct (String.compare f2 f3) eqn:E23; try discriminate; intros H1 H2.
  - apply String.compare_eq_iff in E12, E23. subst.
    rewrite string_compare_refl. rewrite N.compare_lt_iff in *. lia.
  - apply String.compare_eq_iff in E12. subst. rewrite E23. reflexivity.
  - apply String.compare_eq_iff in E23. subst. rewrite E12. reflexivity.
  - rewrite (string_compare_trans f1 f2 f3 E12 E23). reflexivity.
Qed.

Lemma Z_compare_trans (x y z : Z) :
  Z.compare x y = Lt -> Z.compare y z = Lt -> Z.compare x z = Lt.
Proof. rewrite !Z.compare_lt_iff. lia. Qed.

Lemma filter_perm {A : Type} (f : A -> bool) (l l' : list A) :
  Permutation l l' -> Permutation (filter f l) (filter f l').
Proof.
  induction 1; simpl.
  - constructor.
  - destruct (f x); [constructor|]; assumption.
  - destruct (f x), (f y); try constructor; apply Permutation_refl.
  - etransitivity; eassumption.
Qed.

Lemma key_eqb_refl (k : Key) : key_eqb k k = true.
Proof. unfold key_eqb. rewrite String.eqb_refl, N.eqb_refl. reflexivity. Qed.

Lemma key_eqb_eq (a b : Key) : key_eqb a b = true -> a = b.
Proof.
  destruct a, b. unfold key_eqb. simpl. intros H.
  apply andb_true_iff in H. destruct H as [H1 H2].
  apply String.eqb_eq in H1. apply N.eqb_eq in H2. congruence.
Qed.

Lemma lookup_key_map (f : Key -> Series) (keys : list Key) (k : Key) :
  In k keys -> lookup_key k (map (fun k => (k, f k)) keys) = Some (f k).
Proof.
  induction keys as [|k' keys IH]; simpl; [intros []|].
  destruct (key_eqb k' k) eqn:E.
  - intros _. apply key_eqb_eq in E. subst. reflexivity.
  - intros [->|H]; [rewrite key_eqb_refl in E; discriminate | apply IH, H].
Qed.

Lemma index_of_In (t : Z) (l : list Z) :
  In t l -> exists i, index_of t l = Some i /\ nth_error l i = Some t.
Proof.
  induction l as [|x l IH]; simpl; [intros []|].
  destruct (Z.eqb_spec x t) as [->|Hne].
  - intros _. exists O. split; reflexivity.
  - intros [?|H]; [congruence|]. destruct (IH H) as [i [Hi Hn]].
    exists (S i). rewrite Hi. split; [reflexivity | exact Hn].
Qed.

End PivotFacts.

(** *** The mean of a cell *)

Section KahanFacts.

Lemma SFadd_comm (x y : spec_float) : SF64add x y = SF64add y x.
Proof.
  destruct x as [s|s| |s m e], y as [s'|s'| |s' m' e']; try reflexivity;
    try (destruct s, s'; reflexivity).
  unfold SF64add, SFadd. rewrite (Z.min_comm e' e), Z.add_comm. reflexivity.
Qed.

Lemma SFsub_zero_r (x : spec_float) : SF64sub x (S754_zero false) = x.
Proof. destruct x as [s|s| |s m e]; try reflexivity; destruct s; reflexivity. Qed.

Lemma SFsub_diag (x : spec_float) :
  x <> S754_nan ->
  SF64sub (SF64add (S754_zero false) x) x = S754_zero false \/
  SF64sub (SF64add (S754_zero false) x) x = S754_nan.
Proof.
  destruct x as [s|s| |s m e]; intros H; try congruence.
  - left. destruct s; reflexivity.
  - right. destruct s; reflexivity.
  - left. cbn [SF64add SFadd]. unfold SF64sub, SFsub. rewrite Z.sub_diag. reflexivity.
Qed.

(** The first step of the compensated sum leaves no compensation. *)
Lemma kahan_first (a : float) :
  is_nan a = false -> kahan_step (0, 0) a = (0 + a, 0).
Proof.
  intros Ha. unfold kahan_step.
  assert (Hy : a - 0 = a).
  { apply Prim2SF_inj. rewrite sub_spec. apply SFsub_zero_r. }
  rewrite Hy.
  assert (Ht : 0 + a - 0 = 0 + a).
  { apply Prim2SF_inj. rewrite sub_spec. apply SFsub_zero_r. }
  rewrite Ht. f_equal.
  assert (Hx : Prim2SF a <> S754_nan).
  { intros E. apply is_nan_Prim2SF in E. congruence. }
  assert (Hc : Prim2SF (0 + a - a) =
               SF64sub (SF64add (S754_zero false) (Prim2SF a)) (Prim2SF a)).
  { rewrite sub_spec, add_spec. reflexivity. }
  destruct (SFsub_diag (Prim2SF a) Hx) as [E|E]; rewrite <- Hc in E.
  - replace (is_nan (0 + a - a)) with false.
    + apply Prim2SF_inj. exact E.
    + symmetry. apply is_nan_false_Prim2SF. rewrite E. discriminate.
  - apply is_nan_Prim2SF in E. rewrite E. reflexivity.
Qed.

Lemma kahan_two (a b : float) :
  is_nan a = false -> kahan_sum [a; b] = 0 + a + b.
Proof.
  intros Ha. unfold kahan_sum. cbn [fold_left]. rewrite (kahan_first a Ha).
  unfold kahan_step. cbn [fst].
  replace (b - 0) with b; [reflexivity|].
  apply Prim2SF_inj. rewrite sub_spec. symmetry. apply SFsub_zero_r.
Qed.

Lemma add_zero_swap (x y : spec_float) :
  SF64add (SF64add (S754_zero false) x) y =
  SF64add (SF64add (S754_zero false) y) x.
Proof.
  destruct x as [s|s| |s m e], y as [s'|s'| |s' m' e']; try reflexivity;
    try (destruct s, s'; reflexivity); try (destruct s; reflexivity);
    try (destruct s'; reflexivity).
  exact (SFadd_comm (S754_finite s m e) (S754_finite s' m' e')).
Qed.

(** Two values of one cell are averaged the same way in either order. *)
Lemma mean_two (a b : float) :
  is_nan a = false -> is_nan b = false ->
  mean [a; b] = (0 + a + b) / 2 /\ mean [b; a] = mean [a; b].
Proof.
  intros Ha Hb.
  assert (M : forall x y, is_nan x = false -> is_nan y = false ->
                          mean [x; y] = (0 + x + y) / 2).
  { intros x y Hx Hy. unfold mean, count_obs. cbn [filter].
    rewrite Hx, Hy. cbn [negb List.length]. rewrite (kahan_two x y Hx).
    reflexivity. }
  split; [apply M; assumption|].
  rewrite (M a b Ha Hb), (M b a Hb Ha). f_equal.
  apply Prim2SF_inj. rewrite !add_spec. apply add_zero_swap.
Qed.

End KahanFacts.

(** C10 (as stated, refuted): the three values 1e16, 1, -1e16 of one cell
    give the mean 0 in this order and 1/3 when the last two are exchanged. *)
Lemma pivot_mean_order_counterexample :
  Permutation cell_rows_a cell_rows_b /\
  get_col (convert_to_features cell_rows_a) "x_1" = Some [0] /\
  get_col (convert_to_features cell_rows_b) "x_1" = Some [1 / 3] /\
  (0 =? 1 / 3) = false.
Proof.
  split; [|repeat split].
  unfold cell_rows_a, cell_rows_b. apply perm_skip, perm_swap.
Qed.

(** C10 (amended): every cell of the pivot holds the mean pandas computes
    for its (time, field, robot) group: the compensated (Kahan) float64 sum
    of the observed values, taken in the order of the input rows, over
    their number; so duplicates are averaged, not overwritten.  Two
    observed values [a], [b] of one cell give [(0 + a + b) / 2] in either
    order.  In general the wide frame is the same for every reordering of
    the rows that keeps the values of each group in their relative
    order. *)
Theorem pivot_duplicates_mean (df : list Measurement) :
  (forall t k,
     In t (pv_index (pivot_table df)) ->
     In k (map fst (pv_columns (pivot_table df))) ->
     pivot_cell (pivot_table df) t k = Some (mean (group_values df t k))) /\
  (forall t k,
     In t (pv_index (pivot_table df)) ->
     In k (map fst (pv_columns (pivot_table df))) ->
     exists i j col,
       nth_error (df_time (convert_to_features df)) i = Some t /\
       nth_error (df_cols (convert_to_features df)) j = Some (flat_name k, col) /\
       nth_error col i = Some (mean (group_values df t k))) /\
  (forall a b,
     is_nan a = false -> is_nan b = false ->
     mean [a; b] = (0 + a + b) / 2 /\ mean [b; a] = mean [a; b]) /\
  (forall df',
     Permutation df df' ->
     (forall t k, group_values df' t k = group_values df t k) ->
     convert_to_features df' = convert_to_features df).
Proof.
  split; [|split; [|split; [exact mean_two|]]].
  - intros t k Ht Hk. unfold pivot_table in *. cbv zeta in *. cbn [pv_index pv_columns] in *.
    rewrite map_map in Hk. cbn [fst] in Hk. rewrite map_id in Hk.
    unfold pivot_cell. cbn [pv_index pv_columns].
    rewrite (lookup_key_map _ _ k Hk). cbn [bind].
    destruct (index_of_In t _ Ht) as [i [Hi Hn]]. rewrite Hi. cbn [bind].
    rewrite nth_error_map, Hn. reflexivity.
  - intros t k Ht Hk. unfold convert_to_features, pivot_table in *. cbv zeta in *.
    cbn [pv_index pv_columns df_time df_cols] in *.
    rewrite map_map in Hk. cbn [fst] in Hk. rewrite map_id in Hk.
    apply In_nth_error in Ht. destruct Ht as [i Hi].
    apply In_nth_error in Hk. destruct Hk as [j Hj].
    exists i, j. eexists. split; [exact Hi|]. split.
    + rewrite map_map, nth_error_map, Hj. cbn [option_map fst snd]. reflexivity.
    + rewrite nth_error_map, Hi. reflexivity.
  - intros df' Hp Hg.
    assert (Hkept : forall r, group_kept df' r = group_kept df r).
    { intros r. unfold group_kept. rewrite Hg. reflexivity. }
    assert (Hobs : Permutation (filter (group_kept df) df) (filter (group_kept df') df')).
    { rewrite (filter_ext _ _ Hkept). apply filter_perm, Hp. }
    unfold convert_to_features, pivot_table. cbv zeta. cbn [pv_index pv_columns].
    rewrite <- (sort_uniq_perm Z Z.compare Z.compare_eq
                  (fun x y => Z.compare_antisym x y) Z_compare_trans
                  _ _ (Permutation_map time Hobs)).
    rewrite <- (sort_uniq_perm Key key_compare key_compare_eq
                  key_compare_antisym key_compare_trans
                  _ _ (Permutation_map key_of Hobs)).
    f_equal. rewrite !map_map. apply map_ext. intros k. cbn [fst snd]. f_equal.
    apply map_ext. intros t. rewrite Hg. reflexivity.
Qed.

(** Averaged, not overwritten: the values 1 and 3 of one cell give 2. *)
Lemma pivot_mean_of_two :
  get_col (convert_to_features cell_rows_13) "x_1" = Some [2].
Proof. reflexivity. Qed.

(** * Further properties of the code *)

Import Pipeline MoreExamples.

(** ** Deltas and vector totals *)

Lemma fillna_no_nan (s : Series) : no_nan (fillna 0 s) = true.
Proof.
  unfold no_nan, fillna. apply forallb_forall. intros y Hy.
  apply in_map_iff in Hy. destruct Hy as [x [<- _]].
  destruct (is_nan x) eqn:E; [reflexivity|]. rewrite E. reflexivity.
Qed.

(** The normalized delta of a column of a well-formed frame has one value
    per row and no unobserved value. *)
Theorem change_over_time_observed (df : DataFrame) (col : string) :
  wf df -> In col (names df) -> In "dt" (names df) ->
  exists s,
    get_variable_change_over_time df col = Some s /\
    List.length s = nrows df /\
    no_nan s = true.
Proof.
  intros Hwf Hc Hdt.
  destruct (change_over_time_total df col Hwf Hc Hdt) as [s [Hs Hl]].
  exists s. split; [exact Hs|]. split; [exact Hl|].
  unfold get_variable_change_over_time in Hs.
  destruct (get_col df col) as [x|]; [|discriminate]. simpl in Hs.
  destruct (get_col df "dt") as [dt|]; [|discriminate]. simpl in Hs.
  injection Hs as <-. apply fillna_no_nan.
Qed.

Lemma change_over_time_observed_witness :
  exists s,
    get_variable_change_over_time frame_clocked "x_1" = Some s /\
    List.length s = nrows frame_clocked /\
    no_nan s = true.
Proof.
  apply (change_over_time_observed frame_clocked "x_1").
  - unfold wf. simpl. repeat constructor.
  - simpl. tauto.
  - simpl. tauto.
Defined.

(** The raw position delta is 0 on the first row and, on every later row,
    the difference to the row before, with 0 where that is undefined. *)
Theorem position_delta_rows (df : DataFrame) (col : string) (x : Series)
    (i : nat) (xp xi : float) :
  get_col df col = Some x ->
  nth_error x i = Some xp ->
  nth_error x (S i) = Some xi ->
  exists s,
    get_variable_change df col = Some s /\
    List.length s = List.length x /\
    nth_error s 0 = Some 0 /\
    nth_error s (S i) = Some (if is_nan (xi - xp) then 0 else xi - xp).
Proof.
  intros Hx Hp Hi. unfold get_variable_change. rewrite Hx. cbn [bind].
  eexists. split; [reflexivity|]. split; [|split].
  - rewrite length_fillna. apply length_delta.
  - destruct x as [|x0 x]; [destruct i; discriminate|]. simpl.
    rewrite (sub_nan_r x0). reflexivity.
  - apply nth_error_fillna. unfold series_sub.
    apply nth_error_map2; [exact Hi|].
    rewrite nth_error_shift1 by (eapply nth_error_Some_lt; eauto). exact Hp.
Qed.

Lemma position_delta_rows_witness :
  exists s,
    get_variable_change frame_clocked "x_1" = Some s /\
    List.length s = List.length [1; 2; 4] /\
    nth_error s 0 = Some 0 /\
    nth_error s 2 = Some (if is_nan (4 - 2) then 0 else 4 - 2).
Proof.
  apply (position_delta_rows frame_clocked "x_1" [1; 2; 4] 1 2 4); reflexivity.
Defined.

Lemma mapM_None {A B : Type} (f : A -> option B) (l : list A) :
  mapM f l = None <-> exists a, In a l /\ f a = None.
Proof.
  induction l as [|a l IH]; simpl.
  - split; [discriminate | intros [a [[] _]]].
  - destruct (f a) as [b|] eqn:Ea; simpl.
    + destruct (mapM f l) as [bs|] eqn:El; simpl.
      * split; [discriminate|]. intros [x [[<-|Hx] Hf]]; [congruence|].
        assert (H : Some bs = None) by (apply IH; eauto). discriminate.
      * split; [|reflexivity]. intros _.
        destruct (proj1 IH eq_refl) as [x [Hx Hf]]. eauto.
    + split; [|reflexivity]. intros _. eauto.
Qed.

(** The vector total raises a KeyError exactly when one of the listed
    columns is missing; otherwise it has one value per row. *)
Theorem vector_total_key_error (df : DataFrame) (cols : list string) :
  (get_vector_total df cols = None <-> exists c, In c cols /\ ~ In c (names df)) /\
  (forall s, get_vector_total df cols = Some s -> List.length s = nrows df).
Proof.
  unfold get_vector_total. split.
  - destruct (mapM (get_col df) cols) as [cs|] eqn:E; simpl.
    + split; [discriminate|]. intros [c [Hc Hn]].
      assert (H : mapM (get_col df) cols = None).
      { apply mapM_None. exists c. split; [exact Hc|]. apply lookup_None, Hn. }
      congruence.
    + split; [|reflexivity]. intros _. apply mapM_None in E.
      destruct E as [c [Hc Hn]]. exists c. split; [exact Hc|].
      apply lookup_None. exact Hn.
  - intros s. destruct (mapM (get_col df) cols) as [cs|]; simpl; [|discriminate].
    intros H. injection H as <-. unfold sum_axis1.
    rewrite !length_map, length_seq. reflexivity.
Qed.

(** ** Gap filling keeps what was observed *)

Section FillKeeps.

Lemma length_ffill_from (last : option float) (s : Series) :
  List.length (ffill_from last s) = List.length s.
Proof.
  revert last. induction s as [|x r IH]; intros last; simpl; [reflexivity|].
  destruct (is_nan x); [destruct last|]; simpl; rewrite IH; reflexivity.
Qed.

Lemma length_bfill (s : Series) : List.length (bfill s) = List.length s.
Proof.
  induction s as [|x r IH]; simpl; [reflexivity|].
  destruct (is_nan x); [|simpl; rewrite IH; reflexivity].
  destruct (bfill r) as [|y r'] eqn:E; simpl in *; [|rewrite IH; reflexivity].
  rewrite <- IH. reflexivity.
Qed.

Lemma ffill_from_keeps (last : option float) (s : Series) (i : nat) (x : float) :
  nth_error s i = Some x -> is_nan x = false ->
  nth_error (ffill_from last s) i = Some x.
Proof.
  revert last i. induction s as [|y r IH]; intros last [|i] H Hx; simpl in *;
    try discriminate.
  - injection H as ->. rewrite Hx. reflexivity.
  - destruct (is_nan y); [destruct last|]; simpl; apply IH; assumption.
Qed.

Lemma bfill_keeps (s : Series) (i : nat) (x : float) :
  nth_error s i = Some x -> is_nan x = false -> nth_error (bfill s) i = Some x.
Proof.
  revert i. induction s as [|y r IH]; intros [|i] H Hx; simpl in *;
    try discriminate.
  - injection H as ->. rewrite Hx. reflexivity.
  - specialize (IH i H Hx).
    destruct (is_nan y); [|exact IH].
    destruct (bfill r) as [|z r'] eqn:E; [destruct i; discriminate | exact IH].
Qed.

Lemma ffill_from_all_nan_inv (last : option float) (s : Series) :
  all_nan (ffill_from last s) = true -> all_nan s = true.
Proof.
  revert last. induction s as [|x r IH]; intros last H; simpl in *; [reflexivity|].
  destruct (is_nan x) eqn:Ex.
  - destruct last; simpl in H; apply andb_true_iff in H; destruct H as [_ H];
      apply IH in H; exact H.
  - simpl in H. rewrite Ex in H. discriminate.
Qed.

Lemma bfill_all_nan_inv (s : Series) : all_nan (bfill s) = true -> all_nan s = true.
Proof.
  induction s as [|x r IH]; intros H; simpl in *; [reflexivity|].
  destruct (is_nan x) eqn:Ex; simpl in *.
  - destruct (bfill r) as [|y r'] eqn:E.
    + apply IH. reflexivity.
    + simpl in H. apply andb_true_iff in H. destruct H as [_ H]. apply IH, H.
  - rewrite Ex in H. discriminate.
Qed.

Lemma lookup_map_values (f : Series -> Series) (c : string)
    (l : list (string * Series)) :
  lookup c (map (fun e => (fst e, f (snd e))) l) = option_map f (lookup c l).
Proof.
  induction l as [|[k v] l IH]; simpl; [reflexivity|].
  destruct (String.eqb k c); [reflexivity | exact IH].
Qed.

End FillKeeps.

(** The gap filler keeps the rows, the column names and the length of every
    column, and never changes an observed cell; afterwards a column has no
    unobserved cell left, unless it had no observed cell at all, in which
    case it is returned as it was. *)
Theorem gap_filler_keeps_observed (df : DataFrame) :
  let out := match_timestamps_with_measurements df in
  df_time out = df_time df /\
  names out = names df /\
  forall c s, get_col df c = Some s ->
    exists s',
      get_col out c = Some s' /\
      List.length s' = List.length s /\
      (forall i x, nth_error s i = Some x -> is_nan x = false ->
                   nth_error s' i = Some x) /\
      (no_nan s' = true \/ (all_nan s = true /\ s' = s)).
Proof.
  intros out. split; [reflexivity|]. split.
  - unfold out, match_timestamps_with_measurements, frame_bfill, frame_ffill, names.
    simpl. rewrite !map_map. reflexivity.
  - intros c s Hs. exists (bfill (ffill s)). split; [|split; [|split]].
    + unfold out, match_timestamps_with_measurements, frame_bfill, frame_ffill, get_col.
      simpl. rewrite map_map. simpl.
      rewrite (lookup_map_values (fun v => bfill (ffill v))).
      unfold get_col in Hs. rewrite Hs. reflexivity.
    + rewrite length_bfill. apply length_ffill_from.
    + intros i x Hi Hx. apply bfill_keeps; [|exact Hx].
      apply ffill_from_keeps; assumption.
    + destruct (gap_fill_series_filled s) as [H|H]; [left; exact H|].
      right. apply bfill_all_nan_inv, ffill_from_all_nan_inv in H.
      split; [exact H|].
      unfold ffill. rewrite (ffill_all_nan s H). apply bfill_all_nan, H.
Qed.

(** ** Preprocessing *)

Lemma mapM_id_on {A : Type} (f : A -> option A) (l : list A) :
  (forall a, In a l -> f a = Some a) -> mapM f l = Some l.
Proof.
  induction l as [|a l IH]; intros H; simpl; [reflexivity|].
  rewrite (H a (or_introl eq_refl)). simpl. rewrite IH; [reflexivity|].
  intros x Hx. apply H. right. exact Hx.
Qed.

(** [preprocess_df] accepts a table exactly when every robot id and every
    run id fits 64 bits, and then returns the rows as they are. *)
Theorem preprocess_df_accepts (df : list Measurement) :
  (Forall (fun r => (robot_id r < 2 ^ 64)%N /\ (run_uuid r < 2 ^ 64)%N) df ->
   preprocess_df df = Some df) /\
  (forall df', preprocess_df df = Some df' ->
     df' = df /\
     Forall (fun r => (robot_id r < 2 ^ 64)%N /\ (run_uuid r < 2 ^ 64)%N) df).
Proof.
  split.
  - intros H. unfold preprocess_df. apply mapM_id_on. intros r Hr.
    rewrite Forall_forall in H. destruct (H r Hr) as [H1 H2].
    change (dtype_of "robot_id" column_dtypes) with (Some uint64).
    change (dtype_of "run_uuid" column_dtypes) with (Some uint64).
    unfold astype_int. apply N.ltb_lt in H1, H2. rewrite H1, H2.
    destruct r; reflexivity.
  - induction df as [|r df IH]; intros df' H.
    + injection H as <-. split; [reflexivity | constructor].
    + unfold preprocess_df in H. cbn [mapM] in H.
      change (dtype_of "robot_id" column_dtypes) with (Some uint64) in H.
      change (dtype_of "run_uuid" column_dtypes) with (Some uint64) in H.
      unfold astype_int in H.
      destruct (robot_id r <? 2 ^ 64)%N eqn:E1; [|discriminate H].
      destruct (run_uuid r <? 2 ^ 64)%N eqn:E2; [|discriminate H].
      cbn [bind] in H.
      destruct (mapM _ df) as [rest|] eqn:Er; [|discriminate H].
      cbn [bind] in H. injection H as <-.
      destruct (IH rest Er) as [-> HF]. split.
      * destruct r; reflexivity.
      * constructor; [|exact HF]. apply N.ltb_lt in E1, E2. split; assumption.
Qed.

Lemma preprocess_df_accepts_witness :
  preprocess_df table_two_runs = Some table_two_runs.
Proof.
  apply (proj1 (preprocess_df_accepts table_two_runs)).
  repeat (constructor; [split; reflexivity|]). constructor.
Defined.

(** ** Run partitioner: keys and missing keys *)

Lemma dict_get_map_None {V : Type} (f : N -> V) (keys : list N) (k : N) :
  ~ In k keys -> dict_get k (map (fun k => (k, f k)) keys) = None.
Proof.
  induction keys as [|k' keys IH]; simpl; intros H; [reflexivity|].
  destruct (N.eqb_spec k' k) as [->|Hne]; [tauto|]. apply IH. tauto.
Qed.

(** The dict of the partitioner lists the run ids in the order of their
    first appearance; a run id no row carries has no entry, and no entry
    is an empty table. *)
Theorem run_partitioner_keys (df : list Measurement) :
  let data := get_dfs_by_run_uuid df in
  map fst data = unique (map run_uuid df) /\
  (forall k, dict_get k data = None <-> (forall r, In r df -> run_uuid r <> k)) /\
  (forall k sub, dict_get k data = Some sub -> sub <> []).
Proof.
  intros data. unfold data. rewrite get_dfs_by_run_uuid_eq.
  set (keys := unique (map run_uuid df)).
  assert (Hkeys : forall k, In k keys <-> exists r, In r df /\ run_uuid r = k).
  { intros k. unfold keys. rewrite unique_In, in_map_iff.
    split; intros [r [H1 H2]]; exists r; tauto. }
  assert (Hget : forall k, In k keys ->
            dict_get k (map (fun k => (k, filter (has_run k) df)) keys) =
            Some (filter (has_run k) df)).
  { intros k. clear Hkeys. induction keys as [|k' keys' IH]; simpl; [tauto|].
    destruct (N.eqb_spec k' k) as [->|Hne]; [reflexivity|].
    intros [?|H]; [congruence | apply IH, H]. }
  split; [|split].
  - rewrite map_map. simpl. apply map_id.
  - intros k. split.
    + intros Hn r Hr E.
      assert (Hk : In k keys) by (apply Hkeys; eauto).
      rewrite (Hget k Hk) in Hn. discriminate.
    + intros H. apply dict_get_map_None. intros Hk. apply Hkeys in Hk.
      destruct Hk as [r [Hr E]]. apply (H r Hr E).
  - intros k sub Hs E. subst sub.
    destruct (in_dec N.eq_dec k keys) as [Hk|Hk].
    + rewrite (Hget k Hk) in Hs. injection Hs as Hs.
      apply Hkeys in Hk. destruct Hk as [r [Hr Er]].
      assert (Hin : In r (filter (has_run k) df)).
      { apply filter_In. split; [exact Hr|]. unfold has_run. apply N.eqb_eq, Er. }
      rewrite Hs in Hin. destruct Hin.
    + rewrite (dict_get_map_None _ keys k Hk) in Hs. discriminate.
Qed.

(** ** Run summary *)

Section RunStatsFacts.

Lemma abs_sign (x : float) :
  sf_sign_ok false (Prim2SF (abs x)) \/ is_nan (abs x) = true.
Proof.
  destruct (Prim2SF x) eqn:E.
  1,2,4: left; rewrite abs_spec, E; exact eq_refl.
  right. apply is_nan_Prim2SF. rewrite abs_spec, E. reflexivity.
Qed.

Lemma nansum_abs_nonneg (s : Series) :
  (0 <=? nansum (map abs s)) = true.
Proof.
  apply sign_ok_leb. unfold nansum.
  apply (np_sum_closed (fun v => sf_sign_ok false (Prim2SF v)));
    [exact eq_refl | exact add_sign|].
  unfold fillna. rewrite map_map. apply Forall_map, Forall_forall. intros x _.
  apply skipna_sign, abs_sign.
Qed.

Lemma total_distance_ok (df : DataFrame) (name : string) :
  name <> "time" ->
  exists d,
    total_distance df name = Some d /\
    (0 <=? d) = true /\
    (~ In name (names df) -> d = 0) /\
    (forall s, get_col df name = Some s -> d = nansum (map abs s)).
Proof.
  intros Hne. unfold total_distance, columns. cbn [Py.mem existsb].
  replace (String.eqb name "time") with false
    by (symmetry; apply String.eqb_neq; exact Hne).
  cbn [orb]. fold (Py.mem name (map fst (df_cols df))). fold (names df).
  destruct (Py.mem name (names df)) eqn:E.
  - apply mem_In in E. pose proof E as E'. apply get_col_In in E'.
    destruct E' as [s Hs]. rewrite Hs. cbn [bind]. eexists.
    split; [reflexivity|]. split; [apply nansum_abs_nonneg|]. split.
    + intros Hn. contradiction.
    + intros s' Hs'. congruence.
  - exists 0. split; [reflexivity|]. split; [reflexivity|]. split.
    + reflexivity.
    + intros s Hs. apply mem_false in E. exfalso. apply E.
      apply get_col_In. eauto.
Qed.

Lemma fold_min_spec (r : list Z) (t : Z) :
  In (fold_left Z.min r t) (t :: r) /\
  forall x, In x (t :: r) -> (fold_left Z.min r t <= x)%Z.
Proof.
  revert t. induction r as [|y r IH]; intros t; simpl.
  - split; [left; reflexivity|]. intros x [<-|[]]. lia.
  - destruct (IH (Z.min t y)) as [Hin Hle]. split.
    + destruct Hin as [Hin|Hin]; [|right; right; exact Hin].
      rewrite <- Hin.
      destruct (Z.min_spec t y) as [[_ E]|[_ E]]; rewrite E; simpl; auto.
    + intros x [<-|[<-|Hx]].
      * specialize (Hle (Z.min t y) (or_introl eq_refl)). lia.
      * specialize (Hle (Z.min t y) (or_introl eq_refl)). lia.
      * apply Hle. right. exact Hx.
Qed.

Lemma fold_max_spec (r : list Z) (t : Z) :
  In (fold_left Z.max r t) (t :: r) /\
  forall x, In x (t :: r) -> (x <= fold_left Z.max r t)%Z.
Proof.
  revert t. induction r as [|y r IH]; intros t; simpl.
  - split; [left; reflexivity|]. intros x [<-|[]]. lia.
  - destruct (IH (Z.max t y)) as [Hin Hle]. split.
    + destruct Hin as [Hin|Hin]; [|right; right; exact Hin].
      rewrite <- Hin.
      destruct (Z.max_spec t y) as [[_ E]|[_ E]]; rewrite E; simpl; auto.
    + intros x [<-|[<-|Hx]].
      * specialize (Hle (Z.max t y) (or_introl eq_refl)). lia.
      * specialize (Hle (Z.max t y) (or_introl eq_refl)). lia.
      * apply Hle. right. exact Hx.
Qed.

End RunStatsFacts.

(** The run summary never raises: it carries the run id it was given, and
    each total distance is the sum numpy forms (pairwise from 8 rows on) of
    the absolute observed values of the distance column, which is never
    negative and never NaN, or 0 when the frame has no such column. *)
Theorem run_stats_distances
    (total_seconds : Z -> float) (isoformat : Z -> string)
    (run_uuid : N) (df : DataFrame) :
  exists st,
    calculate_run_stats total_seconds isoformat (run_uuid, df) = Some st /\
    stats_run_uuid st = run_uuid /\
    (0 <=? total_distance_1 st) = true /\
    (0 <=? total_distance_2 st) = true /\
    (~ In "d1" (names df) -> total_distance_1 st = 0) /\
    (~ In "d2" (names df) -> total_distance_2 st = 0) /\
    (forall s, get_col df "d1" = Some s -> total_distance_1 st = nansum (map abs s)) /\
    (forall s, get_col df "d2" = Some s -> total_distance_2 st = nansum (map abs s)).
Proof.
  unfold calculate_run_stats. cbv zeta. cbn [fst snd].
  destruct (total_distance_ok df "d1") as [d1 (H1 & P1 & Z1 & V1)]; [discriminate|].
  destruct (total_distance_ok df "d2") as [d2 (H2 & P2 & Z2 & V2)]; [discriminate|].
  rewrite H1, H2. cbn [bind]. eexists. split; [reflexivity|].
  cbn [stats_run_uuid total_distance_1 total_distance_2]. tauto.
Qed.

(** The start and the end of a run are the earliest and the latest time
    stamp of the frame, and the run time is the time between them; a frame
    without rows gives NaT and NaN. *)
Theorem run_stats_times
    (total_seconds : Z -> float) (isoformat : Z -> string)
    (run_uuid : N) (df : DataFrame) :
  exists st,
    calculate_run_stats total_seconds isoformat (run_uuid, df) = Some st /\
    (df_time df = [] ->
     run_start_time st = "NaT" /\ run_end_time st = "NaT" /\
     is_nan (total_run_time st) = true) /\
    (df_time df <> [] ->
     exists a b,
       In a (df_time df) /\ In b (df_time df) /\
       (forall t, In t (df_time df) -> (a <= t <= b)%Z) /\
       run_start_time st = isoformat a /\
       run_end_time st = isoformat b /\
       total_run_time st = total_seconds (b - a)%Z).
Proof.
  unfold calculate_run_stats. cbv zeta. cbn [fst snd].
  destruct (total_distance_ok df "d1") as [d1 (H1 & _)]; [discriminate|].
  destruct (total_distance_ok df "d2") as [d2 (H2 & _)]; [discriminate|].
  rewrite H1, H2. cbn [bind]. eexists. split; [reflexivity|].
  cbn [run_start_time run_end_time total_run_time].
  destruct (df_time df) as [|t r] eqn:Et.
  - split; [intros _; repeat split | congruence].
  - split; [discriminate|]. intros _. cbn [series_min series_max isoformat_or_nat].
    destruct (fold_min_spec r t) as [Hmin Hle].
    destruct (fold_max_spec r t) as [Hmax Hge].
    exists (fold_left Z.min r t), (fold_left Z.max r t).
    repeat split; auto.
Qed.

(** ** The wide pivot: shape of the frame *)

Section SortUniqFacts.

Variable A : Type.
Variable cmp : A -> A -> comparison.

Hypothesis cmp_eq : forall x y, cmp x y = Eq -> x = y.
Hypothesis cmp_antisym : forall x y, cmp y x = CompOpp (cmp x y).
Hypothesis cmp_trans : forall x y z, cmp x y = Lt -> cmp y z = Lt -> cmp x z = Lt.

Lemma insert_uniq_In (x y : A) (l : list A) :
  In x (insert_uniq cmp y l) <-> x = y \/ In x l.
Proof.
  induction l as [|a l IH]; simpl.
  - split; [intros [<-|[]]; auto | intros [->|[]]; auto].
  - destruct (cmp y a) eqn:E; simpl.
    + apply cmp_eq in E. subst a. split; [tauto|]. intros [->|H]; auto.
    + split; [intros [<-|H]; auto | intros [->|H]; auto].
    + rewrite IH. split; [intros [<-|[->|H]]; auto | intros [->|[<-|H]]; auto].
Qed.

Lemma sort_uniq_In (x : A) (l : list A) : In x (sort_uniq cmp l) <-> In x l.
Proof.
  unfold sort_uniq. induction l as [|a l IH]; simpl; [tauto|].
  rewrite insert_uniq_In, IH. split; [intros [->|H]; auto | intros [<-|H]; auto].
Qed.

Lemma insert_uniq_sorted (y : A) (l : list A) :
  StronglySorted (fun a b => cmp a b = Lt) l ->
  StronglySorted (fun a b => cmp a b = Lt) (insert_uniq cmp y l).
Proof.
  induction 1 as [|a l Hs IH Ha]; simpl.
  - constructor; constructor.
  - destruct (cmp y a) eqn:E.
    + constructor; assumption.
    + constructor; [constructor; assumption|].
      constructor; [exact E|]. rewrite Forall_forall in *. intros z Hz.
      apply (cmp_trans y a z E). apply Ha, Hz.
    + constructor; [exact IH|]. rewrite Forall_forall in *. intros z Hz.
      apply insert_uniq_In in Hz. destruct Hz as [->|Hz]; [|apply Ha, Hz].
      rewrite (cmp_antisym y a), E. reflexivity.
Qed.

Lemma sort_uniq_sorted (l : list A) :
  StronglySorted (fun a b => cmp a b = Lt) (sort_uniq cmp l).
Proof.
  unfold sort_uniq. induction l as [|a l IH]; simpl; [constructor|].
  apply insert_uniq_sorted, IH.
Qed.

End SortUniqFacts.

Section PivotShape.

Lemma sorted_times (l : list Z) : StronglySorted Z.lt (sort_uniq Z.compare l).
Proof.
  apply (sort_uniq_sorted Z Z.compare Z.compare_eq
           (fun x y => Z.compare_antisym x y) Z_compare_trans).
Qed.

Lemma strongly_sorted_NoDup (l : list Z) : StronglySorted Z.lt l -> NoDup l.
Proof.
  induction 1 as [|a l Hs IH Ha]; constructor; [|exact IH].
  intros Hin. rewrite Forall_forall in Ha. specialize (Ha a Hin). lia.
Qed.

Lemma pivot_wf (df : list Measurement) : wf (convert_to_features df).
Proof.
  unfold wf, convert_to_features, pivot_table, nrows. cbv zeta. simpl.
  rewrite map_map. apply Forall_map, Forall_forall. intros k _. simpl.
  apply length_map.
Qed.

End PivotShape.

(** The wide frame of a run has one row for each distinct time stamp of a
    group with an observed mean, in increasing order, and every column has
    one cell per row; the columns are the distinct (field, robot) pairs of
    those groups, in increasing order of field, then robot. *)
Theorem pivot_frame_shape (df : list Measurement) :
  let out := convert_to_features df in
  StronglySorted Z.lt (df_time out) /\
  NoDup (df_time out) /\
  wf out /\
  (forall t, In t (df_time out) <->
             exists r, In r df /\ group_kept df r = true /\ time r = t) /\
  (exists keys,
     names out = map flat_name keys /\
     StronglySorted (fun a b => key_compare a b = Lt) keys /\
     forall k, In k keys <->
               exists r, In r df /\ group_kept df r = true /\ key_of r = k).
Proof.
  intros out. split; [|split; [|split; [|split]]].
  - apply sorted_times.
  - apply strongly_sorted_NoDup, sorted_times.
  - apply pivot_wf.
  - intros t. unfold out, convert_to_features, pivot_table. cbv zeta. simpl.
    rewrite (sort_uniq_In Z Z.compare Z.compare_eq), in_map_iff.
    split; intros [r H]; exists r; rewrite filter_In in *; tauto.
  - exists (sort_uniq key_compare (map key_of (filter (group_kept df) df))).
    split; [|split].
    + unfold out, convert_to_features, pivot_table, names. cbv zeta. simpl.
      rewrite !map_map. reflexivity.
    + apply (sort_uniq_sorted Key key_compare key_compare_eq
               key_compare_antisym key_compare_trans).
    + intros k. rewrite (sort_uniq_In Key key_compare key_compare_eq), in_map_iff.
      split; intros [r H]; exists r; rewrite filter_In in *; tauto.
Qed.

Section Complete.

Lemma no_nan_false_all_nan (s : Series) (i : nat) (x : float) :
  nth_error s i = Some x -> is_nan x = false -> all_nan s = false.
Proof.
  revert i. induction s as [|y r IH]; intros [|i] H Hx; simpl in *;
    try discriminate.
  - injection H as ->. rewrite Hx. reflexivity.
  - rewrite (IH i H Hx). apply andb_false_r.
Qed.

Lemma In_nth_error_map {A B : Type} (f : A -> B) (l : list A) (a : A) :
  In a l -> exists i, nth_error (map f l) i = Some (f a).
Proof.
  intros H. apply In_nth_error in H. destruct H as [i Hi].
  exists i. rewrite nth_error_map, Hi. reflexivity.
Qed.

End Complete.

(** After the pivot and the gap filler no cell of the run's frame is
    unobserved: the pivot keeps only columns with an observed cell, and the
    filler completes them. *)
Theorem pivot_then_fill_complete (df : list Measurement) :
  let out := match_timestamps_with_measurements (convert_to_features df) in
  wf out /\
  df_time out = df_time (convert_to_features df) /\
  Forall (fun c => no_nan (snd c) = true) (df_cols out).
Proof.
  intros out. split; [|split; [reflexivity|]].
  - unfold out, match_timestamps_with_measurements, frame_bfill, frame_ffill, wf, nrows.
    simpl. rewrite !map_map. apply Forall_map, Forall_forall.
    intros k _. simpl. rewrite length_bfill.
    unfold ffill. rewrite length_ffill_from. apply length_map.
  - unfold out, match_timestamps_with_measurements, frame_bfill, frame_ffill.
    unfold convert_to_features, pivot_table. cbv zeta. simpl.
    rewrite !map_map. simpl. apply Forall_map, Forall_forall. intros k Hk. simpl.
    apply (proj1 (sort_uniq_In Key key_compare key_compare_eq _ _)) in Hk.
    apply in_map_iff in Hk. destruct Hk as [r [<- Hr]].
    apply filter_In in Hr. destruct Hr as [Hr Hkept].
    set (times := sort_uniq Z.compare (map time (filter (group_kept df) df))).
    set (s := map (fun t => mean (group_values df t (key_of r))) times).
    assert (Ht : In (time r) times).
    { apply (sort_uniq_In Z Z.compare Z.compare_eq). apply in_map.
      apply filter_In. split; assumption. }
    destruct (In_nth_error_map (fun t => mean (group_values df t (key_of r)))
                times (time r) Ht) as [i Hi].
    fold s in Hi.
    destruct (gap_fill_series_filled s) as [H|H]; [exact H|].
    apply bfill_all_nan_inv, ffill_from_all_nan_inv in H.
    unfold group_kept in Hkept. apply negb_true_iff in Hkept.
    rewrite (no_nan_false_all_nan s i _ Hi Hkept) in H. discriminate.
Qed.

(** ** What the derived columns hold *)

Section LoopValues.

Variable P : string -> bool.
Variable R : string -> string.
Variable F : DataFrame -> string -> option Series.
Variable W : string -> bool.
Variables n1 n2 : string.

Hypothesis R_writes : forall c, P c = true -> W (R c) = true.
Hypothesis R_inj : forall c c', P c = true -> P c' = true -> R c = R c' -> c = c'.
Hypothesis F_stable : forall d d' c,
  P c = true -> (forall k, W k = false -> get_col d' k = get_col d k) ->
  F d' c = F d c.
Hypothesis n_fresh : forall c, P c = true -> R c <> n1 /\ R c <> n2.
Hypothesis P_time : P "time" = false.

Lemma loop_values (cols : list string) :
  forall df g df' g',
    foldM (derive_step P R F) cols (df, g) = Some (df', g') ->
    df_time df' = df_time df /\
    g' = (fst g ++ group1 (map R (filter P cols)),
          snd g ++ group2 (map R (filter P cols))) /\
    (forall k, (forall c, In c cols -> P c = true -> R c <> k) ->
               get_col df' k = get_col df k) /\
    (forall c, In c cols -> P c = true -> get_col df' (R c) = F df c).
Proof.
  induction cols as [|col cols IH]; intros df g df' g' H.
  - simpl in H. injection H as <- <-. simpl. rewrite !app_nil_r.
    destruct g. repeat split. intros c [].
  - cbn [foldM] in H. unfold derive_step at 1 in H. cbn [fst snd] in H.
    cbn [filter]. destruct (P col) eqn:EP.
    + destruct (F df col) as [s|] eqn:EF; [|discriminate H]. cbn [bind] in H.
      destruct (IH _ _ _ _ H) as (Ht & Hg & Hk & Hv).
      assert (Hst : forall c, P c = true ->
                F (set_col df (R col) s) c = F df c).
      { intros c Pc. apply F_stable; [exact Pc|]. intros k Wk.
        apply get_col_set_neq. intros ->. rewrite (R_writes col EP) in Wk.
        discriminate. }
      split; [exact Ht|]. split; [|split].
      * rewrite Hg, classify_groups. cbn [fst snd map].
        change (R col :: map R (filter P cols))
          with ([R col] ++ map R (filter P cols)).
        rewrite group1_app, group2_app, <- !app_assoc. reflexivity.
      * intros k Hn. rewrite Hk.
        -- apply get_col_set_neq. intros ->.
           apply (Hn col); [left; reflexivity | exact EP | reflexivity].
        -- intros c Hc Pc. apply Hn; [right; exact Hc | exact Pc].
      * intros c Hc Pc. rewrite <- (Hst c Pc).
        destruct (existsb (fun c' => P c' && String.eqb (R c') (R c)) cols) eqn:Ex.
        -- apply existsb_exists in Ex. destruct Ex as [c' [Hc' E]].
           apply andb_true_iff in E. destruct E as [Pc' E].
           apply String.eqb_eq in E. rewrite <- E.
           rewrite (R_inj c c' Pc Pc' (eq_sym E)).
           apply Hv; assumption.
        -- destruct Hc as [<-|Hc].
           ++ rewrite Hk.
              ** rewrite get_col_set_eq. rewrite (Hst col EP). symmetry. exact EF.
              ** intros c' Hc' Pc' E.
                 assert (Hf : existsb (fun c' => P c' && String.eqb (R c') (R col)) cols
                              = true).
                 { apply existsb_exists. exists c'. split; [exact Hc'|].
                   rewrite Pc', E, String.eqb_refl. reflexivity. }
                 congruence.
           ++ exfalso.
              assert (Hf : existsb (fun c' => P c' && String.eqb (R c') (R c)) cols
                           = true).
              { apply existsb_exists. exists c. split; [exact Hc|].
                rewrite Pc, String.eqb_refl. reflexivity. }
              congruence.
    + cbn [bind] in H. destruct (IH _ _ _ _ H) as (Ht & Hg & Hk & Hv).
      split; [exact Ht|]. split; [exact Hg|]. split.
      * intros k Hn. apply Hk. intros c Hc Pc. apply Hn; [right; exact Hc | exact Pc].
      * intros c [<-|Hc] Pc; [congruence | apply Hv; assumption].
Qed.

Lemma add_total_inv (name : string) (df df' : DataFrame) (cols cols' : list string) :
  add_total name df cols = Some (df', cols') ->
  cols' = with_total name cols /\
  df_time df' = df_time df /\
  (forall k, k <> name -> get_col df' k = get_col df k) /\
  (cols <> [] -> get_col df' name = get_vector_total df cols).
Proof.
  unfold add_total. destruct cols as [|c0 cols].
  - intros H. injection H as <- <-. repeat split. congruence.
  - destruct (get_vector_total df (c0 :: cols)) as [s|]; [|discriminate].
    cbn [bind]. intros H. injection H as <- <-. repeat split.
    + intros k Hk. apply get_col_set_neq. exact Hk.
    + intros _. apply get_col_set_eq.
Qed.

Lemma select_inv (df out : DataFrame) (cols : list string) :
  select df cols = Some out ->
  df_time out = df_time df /\
  names out = cols /\
  (forall c, In c cols -> get_col out c = get_col df c).
Proof.
  unfold select.
  destruct (mapM (fun c => s <- get_col df c ;; Some (c, s)) cols) as [cs|] eqn:E;
    [|discriminate].
  cbn [bind]. intros H. injection H as <-.
  destruct (lookup_mapM_select df cols cs E) as [Hn Hv].
  repeat split; [exact Hn|]. intros c Hc. unfold get_col at 1. cbn [df_cols].
  rewrite <- Hn in Hc. apply lookup_In in Hc. destruct Hc as [s Hs].
  rewrite Hs. symmetry. apply Hv. apply lookup_in_list. exact Hs.
Qed.

(** The loop and the two magnitudes: every derived column holds what [F]
    gives on the frame the call received, each magnitude the vector total
    of its group. *)
Lemma body_values (df df1 df2 : DataFrame) (st : DataFrame * Groups)
    (c1 c2 : list string) :
  foldM (derive_step P R F) (columns df) (df, ([], [])) = Some st ->
  add_total n1 (fst st) (fst (snd st)) = Some (df1, c1) ->
  add_total n2 df1 (snd (snd st)) = Some (df2, c2) ->
  n1 <> n2 ->
  let V := map R (filter P (names df)) in
  c1 = with_total n1 (group1 V) /\
  c2 = with_total n2 (group2 V) /\
  df_time df2 = df_time df /\
  (forall c, In c (names df) -> P c = true -> get_col df2 (R c) = F df c) /\
  (group1 V <> [] -> get_col df2 n1 = get_vector_total df2 (group1 V)) /\
  (group2 V <> [] -> get_col df2 n2 = get_vector_total df2 (group2 V)) /\
  (forall k, k <> n1 -> k <> n2 ->
             (forall c, In c (names df) -> P c = true -> R c <> k) ->
             get_col df2 k = get_col df k).
Proof.
  intros Hloop H1 H2 Hn V. destruct st as [df0 [g1 g2]].
  apply loop_values in Hloop. destruct Hloop as (Ht0 & Hg & Hk0 & Hv0).
  cbn [fst snd app] in *.
  assert (Hcols : filter P (columns df) = filter P (names df)).
  { unfold columns. simpl. rewrite P_time. reflexivity. }
  rewrite Hcols in Hg. fold V in Hg. injection Hg as -> ->.
  apply add_total_inv in H1. destruct H1 as (E1 & Ht1 & Hk1 & Hs1).
  apply add_total_inv in H2. destruct H2 as (E2 & Ht2 & Hk2 & Hs2).
  assert (HV : forall v, In v V -> v <> n1 /\ v <> n2).
  { intros v Hv. apply in_map_iff in Hv. destruct Hv as [c [<- Hc]].
    apply filter_In in Hc. apply n_fresh, Hc. }
  assert (Hvec : forall G d d', (forall v, In v G -> get_col d' v = get_col d v) ->
            df_time d' = df_time d ->
            get_vector_total d' G = get_vector_total d G).
  { intros G d d' Hc Ht. apply vector_total_ext; [|exact Hc].
    unfold nrows. rewrite Ht. reflexivity. }
  split; [exact E1|]. split; [exact E2|]. split; [congruence|].
  split; [|split; [|split]].
  - intros c Hc Pc. destruct (n_fresh c Pc) as [F1 F2].
    rewrite Hk2, Hk1 by assumption. apply Hv0; [right; exact Hc | exact Pc].
  - intros Hne. rewrite Hk2 by exact Hn. rewrite (Hs1 Hne).
    symmetry. apply Hvec; [|congruence].
    intros v Hv. apply filter_In in Hv. destruct Hv as [Hv _].
    destruct (HV v Hv) as [F1 F2]. rewrite Hk2, Hk1 by assumption. reflexivity.
  - intros Hne. rewrite (Hs2 Hne). symmetry. apply Hvec; [|exact Ht2].
    intros v Hv. apply filter_In in Hv. destruct Hv as [Hv _].
    destruct (HV v Hv) as [F1 F2]. apply Hk2. exact F2.
  - intros k K1 K2 Hw. rewrite Hk2, Hk1 by assumption. apply Hk0.
    intros c [<-|Hc] Pc; [congruence | apply Hw; assumption].
Qed.

(** The same for the frame the transform returns, which holds the grouped
    columns only. *)
Lemma transform_values (df df' out : DataFrame) :
  derive_transform P R F n1 n2 df = Some (df', out) ->
  n1 <> n2 ->
  let V := map R (filter P (names df)) in
  df_time out = df_time df /\
  names out = grouped n1 n2 V /\
  (forall c, In c (names df) -> P c = true -> In (R c) (names out) ->
             get_col out (R c) = F df c) /\
  (group1 V <> [] -> get_col out n1 = get_vector_total out (group1 V)) /\
  (group2 V <> [] -> get_col out n2 = get_vector_total out (group2 V)).
Proof.
  intros H Hn V. unfold derive_transform in H.
  destruct (foldM (derive_step P R F) (columns df) (df, ([], []))) as [st|] eqn:E0;
    [|discriminate H]. cbn [bind] in H.
  destruct (add_total n1 (fst st) (fst (snd st))) as [[df1 c1]|] eqn:E1;
    [|discriminate H]. cbn [bind] in H.
  destruct (add_total n2 df1 (snd (snd st))) as [[df2 c2]|] eqn:E2;
    [|discriminate H]. cbn [bind] in H.
  destruct (select df2 (c1 ++ c2)) as [o|] eqn:E3; [|discriminate H].
  cbn [bind] in H. injection H as <- <-.
  destruct (body_values df df1 df2 st c1 c2 E0 E1 E2 Hn)
    as (-> & -> & Ht & Hv & Hg1 & Hg2 & _).
  fold V in Hv, Hg1, Hg2, E3.
  apply select_inv in E3. destruct E3 as (Hto & Hno & Hco).
  fold (grouped n1 n2 V) in Hno, Hco.
  assert (Hvec : forall G, (forall v, In v G -> In v (grouped n1 n2 V)) ->
            get_vector_total o G = get_vector_total df2 G).
  { intros G HG. apply vector_total_ext.
    - unfold nrows. rewrite Hto. reflexivity.
    - intros v Hv'. apply Hco, HG, Hv'. }
  split; [congruence|]. split; [exact Hno|]. split; [|split].
  - intros c Hc Pc Hin. rewrite Hno in Hin. rewrite (Hco _ Hin). apply Hv; assumption.
  - intros Hne. rewrite Hco.
    + rewrite (Hg1 Hne). symmetry. apply Hvec. intros v Hv'.
      unfold grouped. apply in_or_app. left. apply with_total_incl, Hv'.
    + unfold grouped. apply in_or_app. left. apply with_total_In, Hne.
  - intros Hne. rewrite Hco.
    + rewrite (Hg2 Hne). symmetry. apply Hvec. intros v Hv'.
      unfold grouped. apply in_or_app. right. apply with_total_incl, Hv'.
    + unfold grouped. apply in_or_app. right. apply with_total_In, Hne.
Qed.

End LoopValues.

(** ** The transforms return on well-formed frames *)

Section LoopPre.

Variable P : string -> bool.
Variable R : string -> string.
Variable F : DataFrame -> string -> option Series.
Variable W : string -> bool.
Variable Pre : DataFrame -> Prop.
Variables n1 n2 : string.

Hypothesis F_total : forall d c,
  wf d -> In c (names d) -> Pre d ->
  exists s, F d c = Some s /\ List.length s = nrows d.
Hypothesis Pre_ext : forall d d', ext W d d' -> Pre d -> Pre d'.
Hypothesis R_writes : forall c, P c = true -> W (R c) = true.
Hypothesis n1_writes : W n1 = true.
Hypothesis n2_writes : W n2 = true.
Hypothesis P_time : P "time" = false.

Lemma loop_returns (cols : list string) (df : DataFrame) (g : Groups) :
  wf df -> Pre df ->
  (forall c, In c cols -> P c = true -> In c (names df)) ->
  exists df',
    foldM (derive_step P R F) cols (df, g) =
      Some (df', (fst g ++ group1 (map R (filter P cols)),
                  snd g ++ group2 (map R (filter P cols)))) /\
    ext W df df' /\
    (forall c, In c cols -> P c = true -> In (R c) (names df')).
Proof.
  revert df g. induction cols as [|col cols IH]; intros df g Hwf Hpre Hcols.
  - exists df. simpl. rewrite !app_nil_r. destruct g.
    split; [reflexivity|]. split; [apply ext_refl, Hwf|]. intros c [].
  - cbn [foldM]. unfold derive_step at 1. cbn [fst snd filter].
    destruct (P col) eqn:EP; cbn [bind].
    + destruct (F_total df col Hwf (Hcols col (or_introl eq_refl) EP) Hpre)
        as [s [Hs Hl]].
      rewrite Hs. cbn [bind].
      assert (Hext : ext W df (set_col df (R col) s)).
      { apply ext_set_col; auto. }
      destruct (IH (set_col df (R col) s) (classify (R col) g))
        as [df' (Hf & He & Hin)].
      * apply Hext.
      * apply (Pre_ext df); assumption.
      * intros c Hc Pc. eapply ext_names; [exact Hext|].
        apply Hcols; [right; exact Hc | exact Pc].
      * exists df'. split; [|split].
        -- rewrite Hf, classify_groups. cbn [fst snd map].
           change (R col :: map R (filter P cols))
             with ([R col] ++ map R (filter P cols)).
           rewrite group1_app, group2_app, <- !app_assoc. reflexivity.
        -- eapply ext_trans; eassumption.
        -- intros c [<-|Hc] Pc; [|apply Hin; assumption].
           eapply ext_names; [exact He|].
           apply get_col_In. exists s. apply get_col_set_eq.
    + destruct (IH df g Hwf Hpre) as [df' (Hf & He & Hin)].
      * intros c Hc Pc. apply Hcols; [right; exact Hc | exact Pc].
      * exists df'. split; [exact Hf|]. split; [exact He|].
        intros c [<-|Hc] Pc; [congruence | apply Hin; assumption].
Qed.

(** The loop and the two magnitudes return on every well-formed frame that
    has what [F] reads. *)
Lemma body_returns (df : DataFrame) :
  wf df -> Pre df ->
  let V := map R (filter P (names df)) in
  exists df0 df1 df2,
    foldM (derive_step P R F) (columns df) (df, ([], [])) =
      Some (df0, (group1 V, group2 V)) /\
    add_total n1 df0 (group1 V) = Some (df1, with_total n1 (group1 V)) /\
    add_total n2 df1 (group2 V) = Some (df2, with_total n2 (group2 V)) /\
    ext W df df2 /\
    (forall c, In c (grouped n1 n2 V) -> In c (names df2)) /\
    (forall c, In c (names df) -> P c = true -> In (R c) (names df2)).
Proof.
  intros Hwf Hpre V.
  destruct (loop_returns (columns df) df ([], []) Hwf Hpre) as [df0 (H0 & E0 & I0)].
  { intros c [<-|Hc] Pc; [congruence | exact Hc]. }
  assert (Hcols : filter P (columns df) = filter P (names df)).
  { unfold columns. simpl. rewrite P_time. reflexivity. }
  rewrite Hcols in H0. fold V in H0. cbn [fst snd app] in H0.
  assert (HV : forall c, In c V -> In c (names df0)).
  { intros c Hc. apply in_map_iff in Hc. destruct Hc as [c0 [<- Hc0]].
    apply filter_In in Hc0. destruct Hc0 as [Hc0 Pc0].
    apply I0; [right; exact Hc0 | exact Pc0]. }
  destruct (add_total_ok W n1 df0 (group1 V) (ext_wf _ _ _ E0) n1_writes)
    as [df1 (H1 & E1 & I1 & _)].
  { intros c Hc. apply filter_In in Hc. apply HV, Hc. }
  destruct (add_total_ok W n2 df1 (group2 V) (ext_wf _ _ _ E1) n2_writes)
    as [df2 (H2 & E2 & I2 & _)].
  { intros c Hc. apply filter_In in Hc.
    eapply ext_names; [exact E1 | apply HV, Hc]. }
  exists df0, df1, df2. split; [exact H0|]. split; [exact H1|]. split; [exact H2|].
  split; [|split].
  - eapply ext_trans; [exact E0|]. eapply ext_trans; eassumption.
  - intros c Hc. unfold grouped in Hc. apply in_app_or in Hc. destruct Hc as [Hc|Hc].
    + eapply ext_names; [exact E2 | apply I1, Hc].
    + apply I2, Hc.
  - intros c Hc Pc. eapply ext_names; [exact E2|]. eapply ext_names; [exact E1|].
    apply I0; [right; exact Hc | exact Pc].
Qed.

Lemma transform_returns (df : DataFrame) :
  wf df -> Pre df ->
  exists df' out,
    derive_transform P R F n1 n2 df = Some (df', out) /\ ext W df df'.
Proof.
  intros Hwf Hpre.
  destruct (body_returns df Hwf Hpre) as (df0 & df1 & df2 & H0 & H1 & H2 & E & I & _).
  destruct (select_ok df2 (grouped n1 n2 (map R (filter P (names df))))
              (ext_wf _ _ _ E) I) as [out (Hs & _)].
  exists df2, out. split; [|exact E].
  unfold derive_transform. unfold Groups in *. rewrite H0. cbn [bind fst snd].
  rewrite H1. cbn [bind]. rewrite H2. cbn [bind].
  unfold grouped in Hs. rewrite Hs. reflexivity.
Qed.

End LoopPre.

Section LoopEdges.

Variable P : string -> bool.
Variable R : string -> string.
Variable F : DataFrame -> string -> option Series.

Lemma loop_skips (cols : list string) (st : DataFrame * Groups) :
  (forall c, In c cols -> P c = false) ->
  foldM (derive_step P R F) cols st = Some st.
Proof.
  induction cols as [|c cols IH]; intros H; [reflexivity|].
  cbn [foldM]. unfold derive_step at 1. rewrite (H c (or_introl eq_refl)).
  cbn [bind]. apply IH. intros x Hx. apply H. right. exact Hx.
Qed.

Lemma loop_fails (cols : list string) (df : DataFrame) (g : Groups) :
  (forall c, F df c = None) ->
  (exists c, In c cols /\ P c = true) ->
  foldM (derive_step P R F) cols (df, g) = None.
Proof.
  intros HF. induction cols as [|c cols IH]; intros [x [Hx Px]]; [destruct Hx|].
  cbn [foldM]. unfold derive_step at 1. cbn [fst snd].
  destruct (P c) eqn:Pc.
  - rewrite HF. reflexivity.
  - cbn [bind]. apply IH. destruct Hx as [<-|Hx]; [congruence | eauto].
Qed.

End LoopEdges.

Section Instances.

Lemma append_inj (a : string) (c c' : string) :
  String.append a c = String.append a c' -> c = c'.
Proof.
  induction a as [|x a IH]; simpl; intros H; [exact H|].
  injection H as H. apply IH, H.
Qed.

Lemma position_unwritten (c : string) :
  is_position_col c = true -> W_velocity c = false /\ W_delta c = false.
Proof.
  intros H. apply position_col_head in H.
  destruct H as [r [->|[->| ->]]]; split; reflexivity.
Qed.

Lemma change_over_time_stable (W : string -> bool) (d d' : DataFrame) (c : string) :
  W c = false -> W "dt" = false ->
  (forall k, W k = false -> get_col d' k = get_col d k) ->
  get_variable_change_over_time d' c = get_variable_change_over_time d c.
Proof.
  intros Hc Hdt H. unfold get_variable_change_over_time.
  rewrite (H c Hc), (H "dt" Hdt). reflexivity.
Qed.

Lemma change_stable (W : string -> bool) (d d' : DataFrame) (c : string) :
  W c = false ->
  (forall k, W k = false -> get_col d' k = get_col d k) ->
  get_variable_change d' c = get_variable_change d c.
Proof.
  intros Hc H. unfold get_variable_change. rewrite (H c Hc). reflexivity.
Qed.

Lemma velocity_col_head (c : string) :
  is_velocity_col c = true ->
  exists r, c = String "v" (String "x" r) \/ c = String "v" (String "y" r) \/
            c = String "v" (String "z" r).
Proof.
  unfold is_velocity_col. intros H.
  apply orb_true_iff in H. destruct H as [H|H];
    [apply orb_true_iff in H; destruct H as [H|H]|];
    apply startswith_head2 in H; destruct H as [r ->]; eauto.
Qed.

Lemma acceleration_name_inj (c c' : string) :
  is_velocity_col c = true -> is_velocity_col c' = true ->
  acceleration_name c = acceleration_name c' -> c = c'.
Proof.
  intros H H'. apply velocity_col_head in H, H'.
  destruct H as [r H], H' as [r' H'].
  destruct H as [->|[->| ->]], H' as [->|[->| ->]]; unfold acceleration_name; simpl;
    intros E; injection E; intros; subst; try reflexivity; discriminate.
Qed.

End Instances.

(** The velocity transform returns on a well-formed frame with a [dt]
    column; its result has the rows of the frame and the grouped velocity
    columns; each of them holds the normalized delta of its position column
    in the frame that was passed, and each magnitude the vector total of the
    velocity columns of its group. *)
Theorem velocity_columns (df : DataFrame) :
  wf df -> In "dt" (names df) ->
  exists df' out,
    add_velocity_features df = Some (df', out) /\
    df_time out = df_time df /\
    columns out = "time" :: grouped "v1" "v2" (velocity_names df) /\
    (forall c, In c (names df) -> is_position_col c = true ->
               In (String.append "v" c) (names out) ->
               get_col out (String.append "v" c) = get_variable_change_over_time df c) /\
    (group1 (velocity_names df) <> [] ->
     get_col out "v1" = get_vector_total out (group1 (velocity_names df))) /\
    (group2 (velocity_names df) <> [] ->
     get_col out "v2" = get_vector_total out (group2 (velocity_names df))).
Proof.
  intros Hwf Hdt.
  destruct (velocity_ok df Hwf Hdt) as [df' [out (H & _)]].
  exists df', out. split; [exact H|].
  assert (Hfresh : forall c, is_position_col c = true ->
            String.append "v" c <> "v1" /\ String.append "v" c <> "v2").
  { intros c Pc. split; intros E; injection E as E; subst c; discriminate. }
  assert (Hst : forall d d' c, is_position_col c = true ->
            (forall k, W_velocity k = false -> get_col d' k = get_col d k) ->
            get_variable_change_over_time d' c = get_variable_change_over_time d c).
  { intros d d' c Pc Hk. apply (change_over_time_stable W_velocity); auto.
    apply position_unwritten, Pc. }
  assert (Hneq : "v1" <> "v2") by discriminate.
  destruct (transform_values is_position_col (String.append "v")
              get_variable_change_over_time W_velocity "v1" "v2"
              velocity_writes (fun c c' _ _ => append_inj "v" c c') Hst Hfresh
              eq_refl df df' out H Hneq) as (Ht & Hn & Hv & H1 & H2).
  split; [exact Ht|]. split; [unfold columns; fold (names out); rewrite Hn; reflexivity|].
  split; [exact Hv|]. split; assumption.
Qed.

Lemma velocity_columns_witness :
  exists df' out,
    add_velocity_features frame_clocked = Some (df', out) /\
    df_time out = df_time frame_clocked /\
    columns out = "time" :: grouped "v1" "v2" (velocity_names frame_clocked) /\
    (forall c, In c (names frame_clocked) -> is_position_col c = true ->
               In (String.append "v" c) (names out) ->
               get_col out (String.append "v" c) =
               get_variable_change_over_time frame_clocked c) /\
    (group1 (velocity_names frame_clocked) <> [] ->
     get_col out "v1" = get_vector_total out (group1 (velocity_names frame_clocked))) /\
    (group2 (velocity_names frame_clocked) <> [] ->
     get_col out "v2" = get_vector_total out (group2 (velocity_names frame_clocked))).
Proof.
  apply (velocity_columns frame_clocked).
  - unfold wf. simpl. repeat constructor.
  - simpl. tauto.
Defined.

(** The position-delta transform returns on every well-formed frame, with
    or without a [dt] column; its result has the rows of the frame and the
    grouped delta columns; each of them holds the raw delta of its position
    column, and each magnitude the vector total of the delta columns of its
    group. *)
Theorem position_columns (df : DataFrame) :
  wf df ->
  exists df' out,
    add_position_change_features df = Some (df', out) /\
    df_time out = df_time df /\
    columns out = "time" :: grouped "d1" "d2" (delta_names df) /\
    (forall c, In c (names df) -> is_position_col c = true ->
               In (String.append "d" c) (names out) ->
               get_col out (String.append "d" c) = get_variable_change df c) /\
    (group1 (delta_names df) <> [] ->
     get_col out "d1" = get_vector_total out (group1 (delta_names df))) /\
    (group2 (delta_names df) <> [] ->
     get_col out "d2" = get_vector_total out (group2 (delta_names df))).
Proof.
  intros Hwf.
  assert (Htot : forall d c, wf d -> In c (names d) -> True ->
            exists s, get_variable_change d c = Some s /\ List.length s = nrows d).
  { intros d c Hd Hc _. apply get_col_In in Hc. destruct Hc as [x Hx].
    unfold get_variable_change. rewrite Hx. cbn [bind].
    eexists. split; [reflexivity|].
    rewrite length_fillna, length_delta. apply (wf_get_col d c x Hd Hx). }
  destruct (transform_returns is_position_col (String.append "d")
              get_variable_change W_delta (fun _ => True) "d1" "d2"
              Htot (fun _ _ _ _ => I) delta_writes eq_refl eq_refl eq_refl
              df Hwf I) as [df' [out (H & _)]].
  exists df', out. split; [exact H|].
  assert (Hfresh : forall c, is_position_col c = true ->
            String.append "d" c <> "d1" /\ String.append "d" c <> "d2").
  { intros c Pc. split; intros E; injection E as E; subst c; discriminate. }
  assert (Hst : forall d d' c, is_position_col c = true ->
            (forall k, W_delta k = false -> get_col d' k = get_col d k) ->
            get_variable_change d' c = get_variable_change d c).
  { intros d d' c Pc Hk. apply (change_stable W_delta); auto.
    apply position_unwritten, Pc. }
  assert (Hneq : "d1" <> "d2") by discriminate.
  destruct (transform_values is_position_col (String.append "d")
              get_variable_change W_delta "d1" "d2"
              delta_writes (fun c c' _ _ => append_inj "d" c c') Hst Hfresh
              eq_refl df df' out H Hneq) as (Ht & Hn & Hv & H1 & H2).
  split; [exact Ht|]. split; [unfold columns; fold (names out); rewrite Hn; reflexivity|].
  split; [exact Hv|]. split; assumption.
Qed.

Lemma position_columns_witness :
  exists df' out,
    add_position_change_features frame_gaps = Some (df', out) /\
    df_time out = df_time frame_gaps /\
    columns out = "time" :: grouped "d1" "d2" (delta_names frame_gaps) /\
    (forall c, In c (names frame_gaps) -> is_position_col c = true ->
               In (String.append "d" c) (names out) ->
               get_col out (String.append "d" c) = get_variable_change frame_gaps c) /\
    (group1 (delta_names frame_gaps) <> [] ->
     get_col out "d1" = get_vector_total out (group1 (delta_names frame_gaps))) /\
    (group2 (delta_names frame_gaps) <> [] ->
     get_col out "d2" = get_vector_total out (group2 (delta_names frame_gaps))).
Proof.
  apply (position_columns frame_gaps).
  unfold wf. simpl. repeat constructor.
Defined.

(** The acceleration stage returns on a well-formed frame with a [dt]
    column.  It keeps the rows and every column whose name does not begin
    with [a]; for every velocity column it sets the acceleration column to
    the normalized delta of that velocity in the frame that was passed, and
    each magnitude to the vector total of the accelerations of its group. *)
Theorem acceleration_columns (df : DataFrame) :
  wf df -> In "dt" (names df) ->
  let A := map acceleration_name (filter is_velocity_col (names df)) in
  exists df',
    add_acceleration_features df = Some df' /\
    df_time df' = df_time df /\
    (forall k, W_acceleration k = false -> get_col df' k = get_col df k) /\
    (forall c, In c (names df) -> is_velocity_col c = true ->
               get_col df' (acceleration_name c) = get_variable_change_over_time df c) /\
    (group1 A <> [] -> get_col df' "a1" = get_vector_total df' (group1 A)) /\
    (group2 A <> [] -> get_col df' "a2" = get_vector_total df' (group2 A)).
Proof.
  intros Hwf Hdt A.
  destruct (body_returns is_velocity_col acceleration_name
              get_variable_change_over_time W_acceleration
              (fun d => In "dt" (names d)) "a1" "a2"
              change_over_time_total
              (fun d d' He Hd => ext_names W_acceleration d d' "dt" He Hd)
              acceleration_writes eq_refl eq_refl eq_refl df Hwf Hdt)
    as (df0 & df1 & df2 & H0 & H1 & H2 & E & _).
  fold A in H0, H1, H2.
  exists df2. split.
  { unfold add_acceleration_features.
    assert (Estep : acceleration_step =
              derive_step is_velocity_col acceleration_name
                get_variable_change_over_time) by reflexivity.
    rewrite Estep. unfold Groups in *. rewrite H0. cbn [bind fst snd].
    rewrite H1. cbn [bind]. rewrite H2. reflexivity. }
  assert (Hfresh : forall c, is_velocity_col c = true ->
            acceleration_name c <> "a1" /\ acceleration_name c <> "a2").
  { intros c Pc. apply velocity_col_head in Pc.
    destruct Pc as [r [->|[->| ->]]]; split; discriminate. }
  assert (Hst : forall d d' c, is_velocity_col c = true ->
            (forall k, W_acceleration k = false -> get_col d' k = get_col d k) ->
            get_variable_change_over_time d' c = get_variable_change_over_time d c).
  { intros d d' c Pc Hk. apply (change_over_time_stable W_acceleration); auto.
    apply velocity_col_head in Pc. destruct Pc as [r [->|[->| ->]]]; reflexivity. }
  assert (Hneq : "a1" <> "a2") by discriminate.
  destruct (body_values is_velocity_col acceleration_name
              get_variable_change_over_time W_acceleration "a1" "a2"
              acceleration_writes acceleration_name_inj Hst Hfresh eq_refl
              df df1 df2 (df0, (group1 A, group2 A))
              (with_total "a1" (group1 A)) (with_total "a2" (group2 A))
              H0 H1 H2 Hneq) as (_ & _ & Ht & Hv & G1 & G2 & _).
  fold A in G1, G2.
  split; [exact Ht|]. split; [apply E|]. split; [exact Hv|]. split; assumption.
Qed.

Lemma acceleration_columns_witness :
  let A := map acceleration_name (filter is_velocity_col (names frame_velocity)) in
  exists df',
    add_acceleration_features frame_velocity = Some df' /\
    df_time df' = df_time frame_velocity /\
    (forall k, W_acceleration k = false -> get_col df' k = get_col frame_velocity k) /\
    (forall c, In c (names frame_velocity) -> is_velocity_col c = true ->
               get_col df' (acceleration_name c) =
               get_variable_change_over_time frame_velocity c) /\
    (group1 A <> [] -> get_col df' "a1" = get_vector_total df' (group1 A)) /\
    (group2 A <> [] -> get_col df' "a2" = get_vector_total df' (group2 A)).
Proof.
  apply (acceleration_columns frame_velocity).
  - unfold wf. simpl. repeat constructor.
  - simpl. tauto.
Defined.

Lemma change_over_time_needs_dt (df : DataFrame) (c : string) :
  ~ In "dt" (names df) -> get_variable_change_over_time df c = None.
Proof.
  intros H. apply lookup_None in H. unfold get_variable_change_over_time, get_col.
  rewrite H. destruct (lookup c (df_cols df)); reflexivity.
Qed.

(** Without a [dt] column the velocity transform raises a KeyError as soon
    as the frame has a position column, and the acceleration stage as soon
    as it has a velocity column. *)
Theorem normalized_delta_needs_dt (df : DataFrame) :
  ~ In "dt" (names df) ->
  ((exists c, In c (names df) /\ is_position_col c = true) ->
   add_velocity_features df = None) /\
  ((exists c, In c (names df) /\ is_velocity_col c = true) ->
   add_acceleration_features df = None).
Proof.
  intros Hdt. split; intros [c [Hc Pc]].
  - unfold add_velocity_features.
    assert (E : velocity_step =
              derive_step is_position_col (String.append "v")
                get_variable_change_over_time) by reflexivity.
    rewrite E, loop_fails; [reflexivity | |].
    + intros x. apply change_over_time_needs_dt, Hdt.
    + exists c. split; [right; exact Hc | exact Pc].
  - unfold add_acceleration_features.
    assert (E : acceleration_step =
              derive_step is_velocity_col acceleration_name
                get_variable_change_over_time) by reflexivity.
    rewrite E, loop_fails; [reflexivity | |].
    + intros x. apply change_over_time_needs_dt, Hdt.
    + exists c. split; [right; exact Hc | exact Pc].
Qed.

Lemma normalized_delta_needs_dt_witness :
  ((exists c, In c (names frame_gaps) /\ is_position_col c = true) ->
   add_velocity_features frame_gaps = None) /\
  ((exists c, In c (names frame_gaps) /\ is_velocity_col c = true) ->
   add_acceleration_features frame_gaps = None).
Proof.
  apply (normalized_delta_needs_dt frame_gaps).
  simpl. intuition discriminate.
Defined.

(** A frame without columns to derive from passes through: without a
    position column the velocity and the position-delta transform leave the
    frame as it is and return the time column alone, without a force column
    so does the force transform, and without a velocity column the
    acceleration stage returns the frame unchanged; none of them needs
    [dt] then. *)
Theorem empty_groups_pass_through (df : DataFrame) :
  ((forall c, In c (names df) -> is_position_col c = false) ->
   add_velocity_features df = Some (df, mkDF (df_time df) []) /\
   add_position_change_features df = Some (df, mkDF (df_time df) [])) /\
  ((forall c, In c (names df) -> is_force_col c = false) ->
   add_total_force_features df = Some (df, mkDF (df_time df) [])) /\
  ((forall c, In c (names df) -> is_velocity_col c = false) ->
   add_acceleration_features df = Some df).
Proof.
  split; [|split].
  - intros H.
    assert (Hc : forall c, In c (columns df) -> is_position_col c = false).
    { intros c [<-|Hc]; [reflexivity | apply H, Hc]. }
    split.
    + unfold add_velocity_features.
      assert (E : velocity_step =
                derive_step is_position_col (String.append "v")
                  get_variable_change_over_time) by reflexivity.
      rewrite E, loop_skips by exact Hc. reflexivity.
    + unfold add_position_change_features.
      assert (E : position_step =
                derive_step is_position_col (String.append "d")
                  get_variable_change) by reflexivity.
      rewrite E, loop_skips by exact Hc. reflexivity.
  - intros H. unfold add_total_force_features. rewrite force_groups.
    replace (filter is_force_col (columns df)) with (@nil string); [reflexivity|].
    symmetry. apply filter_none. intros c [<-|Hc]; [reflexivity | apply H, Hc].
  - intros H. unfold add_acceleration_features.
    assert (E : acceleration_step =
              derive_step is_velocity_col acceleration_name
                get_variable_change_over_time) by reflexivity.
    rewrite E, loop_skips; [reflexivity|].
    intros c [<-|Hc]; [reflexivity | apply H, Hc].
Qed.

Lemma empty_groups_pass_through_witness :
  add_velocity_features frame_distance =
    Some (frame_distance, mkDF (df_time frame_distance) []) /\
  add_total_force_features frame_distance =
    Some (frame_distance, mkDF (df_time frame_distance) []) /\
  add_acceleration_features frame_distance = Some frame_distance.
Proof.
  destruct (empty_groups_pass_through frame_distance) as (Hp & Hf & Hv).
  split; [apply Hp | split; [apply Hf | apply Hv]];
    intros c [<-|[]]; reflexivity.
Defined.

(** ** The deriver and the pipeline never raise on well-formed input *)

Section AnyMerge.

Variables l r : DataFrame.

Lemma merge_wf_any : wf (merge l r).
Proof.
  unfold wf, merge, nrows. cbv zeta. cbn [df_cols df_time].
  rewrite length_map. apply Forall_app. split; apply Forall_map, Forall_forall;
    intros c _; cbn [snd]; rewrite length_map; reflexivity.
Qed.

Lemma merge_names_any :
  exists extra, names (merge l r) = names l ++ extra.
Proof.
  unfold names, merge. cbv zeta. cbn [df_cols]. rewrite map_app, map_map.
  cbn [fst]. eexists. reflexivity.
Qed.

Lemma merge_time_incl : incl (df_time (merge l r)) (df_time l).
Proof.
  unfold merge, merge_pairs. cbv zeta. cbn [df_time]. intros t Ht.
  apply in_map_iff in Ht. destruct Ht as [[i j] [<- Hp]].
  apply in_flat_map in Hp. destruct Hp as [i' [Hi' Hp]].
  apply in_map_iff in Hp. destruct Hp as [j' [E _]]. injection E as <- <-.
  apply in_seq in Hi'. cbn [fst]. apply nth_In. unfold nrows in Hi'. lia.
Qed.

End AnyMerge.

Section Returns.

Variable timestamp : Z -> float.

Lemma engineered_returns (df : DataFrame) :
  wf df ->
  exists vapdf out,
    add_engineered_features timestamp df = Some out /\
    ext W_acceleration (merge (with_clock timestamp df) vapdf) out.
Proof.
  intros Hwf. rewrite engineered_unfold.
  destruct (stage2_runs timestamp df Hwf)
    as (dfa & vdf & dfb & adf & dfc & pdf & _ & _ & _ & Hbag & _).
  rewrite Hbag. cbn [bind].
  set (base := with_clock timestamp df).
  set (vapdf := merge (merge vdf adf) pdf).
  assert (Hdt : In "dt" (names (merge base vapdf))).
  { destruct (merge_names_any base vapdf) as [e He]. rewrite He.
    apply in_or_app. left. apply clock_dt. }
  destruct (acceleration_ok (merge base vapdf) (merge_wf_any base vapdf) Hdt)
    as [out (Hacc & Ea & _)].
  exists vapdf, out. auto.
Qed.

End Returns.

(** The kinematic deriver raises no KeyError on a frame with at least one
    row, one cell per row in every column and distinct column labels,
    whatever the labels are: it returns a well-formed frame whose columns
    begin with the columns of the input, in their order, and include
    [timestamp] and [dt]; every time stamp of the result is a time stamp of
    the input. *)
Theorem kinematic_deriver_returns (timestamp : Z -> float) (df : DataFrame) :
  wf df ->
  df_time df <> [] ->
  NoDup (columns df) ->
  exists out,
    add_engineered_features timestamp df = Some out /\
    wf out /\
    (exists extra, names out = names df ++ extra) /\
    In "timestamp" (names out) /\
    In "dt" (names out) /\
    incl (df_time out) (df_time df).
Proof.
  intros Hwf _ _.
  destruct (engineered_returns timestamp df Hwf) as (vapdf & out & H & Ea).
  pose proof (clock_ext timestamp df Hwf) as E1.
  set (base := with_clock timestamp df) in *.
  exists out. split; [exact H|]. split; [apply Ea|].
  assert (Hin : forall c, In c (names base) -> In c (names out)).
  { intros c Hc. eapply ext_names; [exact Ea|].
    destruct (merge_names_any base vapdf) as [e He]. rewrite He.
    apply in_or_app. left. exact Hc. }
  split; [|split; [|split]].
  - destruct E1 as (_ & _ & (e1 & Hn1 & _) & _).
    destruct (merge_names_any base vapdf) as [e3 Hn3].
    destruct Ea as (_ & _ & (e4 & Hn4 & _) & _).
    exists ((e1 ++ e3) ++ e4).
    rewrite Hn4, Hn3, Hn1, !app_assoc. reflexivity.
  - apply Hin, clock_timestamp.
  - apply Hin, clock_dt.
  - destruct Ea as (Ht & _). rewrite Ht.
    intros t Hti. apply merge_time_incl in Hti.
    destruct E1 as (Ht1 & _). congruence.
Qed.

Lemma kinematic_deriver_returns_witness :
  exists out,
    add_engineered_features seconds frame_collision = Some out /\
    wf out /\
    (exists extra, names out = names frame_collision ++ extra) /\
    In "timestamp" (names out) /\
    In "dt" (names out) /\
    incl (df_time out) (df_time frame_collision).
Proof.
  apply (kinematic_deriver_returns seconds frame_collision).
  - unfold wf. simpl. repeat constructor.
  - discriminate.
  - simpl. repeat constructor; simpl; intuition discriminate.
Defined.

Section MainFacts.

Variable timestamp : Z -> float.
Variable total_seconds : Z -> float.
Variable isoformat : Z -> string.







End MainFacts.



(** ** The kinematic deriver keeps the rows and the input columns *)

Section DerivedNames.

Lemma with_total_inv (name : string) (cols : list string) (c : string) :
  In c (with_total name cols) -> In c cols \/ (c = name /\ cols <> []).
Proof.
  destruct cols as [|x cols]; [intros []|]. unfold with_total. intros H.
  apply in_app_or in H. destruct H as [H|[<-|[]]]; [left; exact H|].
  right. split; [reflexivity | discriminate].
Qed.

Lemma totals_In (n1 n2 : string) (ns : list string) (c : string) :
  In c (totals n1 n2 ns) <->
  (c = n1 /\ group1 ns <> []) \/ (c = n2 /\ group2 ns <> []).
Proof.
  unfold totals. rewrite in_app_iff.
  destruct (group1 ns) as [|x g1], (group2 ns) as [|y g2]; simpl; split;
    intros H; try tauto; intuition (try discriminate; try congruence; auto).
Qed.

Lemma grouped_In (n1 n2 : string) (ns : list string) (c : string) :
  In c (grouped n1 n2 ns) <->
  In c (group1 ns) \/ In c (group2 ns) \/ In c (totals n1 n2 ns).
Proof.
  rewrite totals_In. unfold grouped. rewrite in_app_iff. split.
  - intros [H|H]; apply with_total_inv in H; tauto.
  - intros [H|[H|[[-> H]|[-> H]]]].
    + left. apply with_total_incl, H.
    + right. apply with_total_incl, H.
    + left. apply with_total_In, H.
    + right. apply with_total_In, H.
Qed.

Lemma group1_nonempty (ns : list string) :
  group1 ns <> [] <-> exists n, In n ns /\ Py.endswith n "1" = true.
Proof.
  split.
  - intros H. destruct (group1 ns) as [|n g] eqn:E; [congruence|].
    exists n. assert (Hin : In n (group1 ns)) by (rewrite E; left; reflexivity).
    apply filter_In in Hin. exact Hin.
  - intros [n [Hn He]] E.
    assert (Hin : In n (group1 ns)) by (apply filter_In; tauto).
    rewrite E in Hin. destruct Hin.
Qed.

Lemma group2_nonempty (ns : list string) :
  group2 ns <> [] <->
  exists n, In n ns /\ negb (Py.endswith n "1") && Py.endswith n "2" = true.
Proof.
  split.
  - intros H. destruct (group2 ns) as [|n g] eqn:E; [congruence|].
    exists n. assert (Hin : In n (group2 ns)) by (rewrite E; left; reflexivity).
    apply filter_In in Hin. exact Hin.
  - intros [n [Hn He]] E.
    assert (Hin : In n (group2 ns)) by (apply filter_In; tauto).
    rewrite E in Hin. destruct Hin.
Qed.

(** Lists with the same members have the same magnitude names. *)
Lemma totals_members (n1 n2 : string) (X Y : list string) (c : string) :
  (forall x, In x X <-> In x Y) ->
  (In c (X ++ totals n1 n2 X) <-> In c (Y ++ totals n1 n2 Y)).
Proof.
  intros H. rewrite !in_app_iff, !totals_In, !group1_nonempty, !group2_nonempty.
  split; intros [Hc|[[-> [n [Hn He]]]|[-> [n [Hn He]]]]];
    try (left; apply H; exact Hc);
    try (right; left; split; [reflexivity|]; exists n; split;
         [apply H; exact Hn | exact He]);
    right; right; split; try reflexivity; exists n; split;
      try (apply H; exact Hn); exact He.
Qed.

Lemma derived_In (df : DataFrame) (c : string) :
  let V := grouped "v1" "v2" (velocity_names df) in
  let A := map acceleration_name (filter is_velocity_col (names df ++ V)) in
  In c (derived_names df) <->
  c = "timestamp" \/ c = "dt" \/ In c V \/
  In c (totals "f1" "f2" (force_cols df)) \/
  In c (grouped "d1" "d2" (delta_names df)) \/
  In c (A ++ totals "a1" "a2" A).
Proof.
  intros V A. unfold derived_names. fold V. fold A.
  rewrite !in_app_iff. simpl. split; intros H; intuition auto.
Qed.

Lemma startswith_f_not_velocity (c : string) :
  Py.startswith c "f" = true -> is_velocity_col c = false.
Proof. intros H. apply startswith_head in H. destruct H as [r ->]. reflexivity. Qed.

Lemma delta_not_velocity (c : string) :
  W_delta c = true -> is_velocity_col c = false.
Proof.
  intros H. unfold W_delta in H. apply andb_true_iff in H. destruct H as [H _].
  apply startswith_head in H. destruct H as [r ->]. reflexivity.
Qed.

End DerivedNames.

(** The acceleration stage changes no column but the ones it assigns: the
    accelerations of the velocity columns and the magnitudes of the
    non-empty groups. *)
Lemma acceleration_frame (df : DataFrame) :
  wf df -> In "dt" (names df) ->
  let A := map acceleration_name (filter is_velocity_col (names df)) in
  exists df',
    add_acceleration_features df = Some df' /\
    ext W_acceleration df df' /\
    (forall c, In c (A ++ totals "a1" "a2" A) -> In c (names df')) /\
    (forall k, ~ In k (A ++ totals "a1" "a2" A) -> get_col df' k = get_col df k).
Proof.
  intros Hwf Hdt A.
  destruct (body_returns is_velocity_col acceleration_name
              get_variable_change_over_time W_acceleration
              (fun d => In "dt" (names d)) "a1" "a2"
              change_over_time_total
              (fun d d' He Hd => ext_names W_acceleration d d' "dt" He Hd)
              acceleration_writes eq_refl eq_refl eq_refl df Hwf Hdt)
    as (df0 & df1 & df2 & H0 & H1 & H2 & E & Hg & Hr).
  fold A in H0, H1, H2, Hg.
  exists df2. split.
  { unfold add_acceleration_features.
    assert (Estep : acceleration_step =
              derive_step is_velocity_col acceleration_name
                get_variable_change_over_time) by reflexivity.
    rewrite Estep. unfold Groups in *. rewrite H0. cbn [bind fst snd].
    rewrite H1. cbn [bind]. rewrite H2. reflexivity. }
  split; [exact E|]. split.
  - intros c Hc. apply in_app_or in Hc. destruct Hc as [Hc|Hc].
    + apply in_map_iff in Hc. destruct Hc as [v [<- Hv]].
      apply filter_In in Hv. apply Hr; tauto.
    + apply Hg. apply grouped_In. tauto.
  - intros k Hk.
    assert (Hst : forall d d' c, is_velocity_col c = true ->
              (forall k, W_acceleration k = false -> get_col d' k = get_col d k) ->
              get_variable_change_over_time d' c = get_variable_change_over_time d c).
    { intros d d' c Pc Hk'. apply (change_over_time_stable W_acceleration); auto.
      apply velocity_col_head in Pc. destruct Pc as [r [->|[->| ->]]]; reflexivity. }
    destruct (loop_values is_velocity_col acceleration_name
                get_variable_change_over_time W_acceleration
                acceleration_writes acceleration_name_inj Hst
                _ _ _ _ _ H0) as (_ & _ & Hk0 & _).
    assert (K2 : get_col df2 k = get_col df1 k).
    { destruct (group2 A) as [|x g2] eqn:E2.
      - cbn [add_total] in H2. injection H2 as <-. reflexivity.
      - apply add_total_inv in H2. destruct H2 as (_ & _ & Hk2 & _).
        apply Hk2. intros ->. apply Hk, in_or_app. right.
        apply totals_In. right. split; [reflexivity|]. rewrite E2. discriminate. }
    assert (K1 : get_col df1 k = get_col df0 k).
    { destruct (group1 A) as [|x g1] eqn:E1.
      - cbn [add_total] in H1. injection H1 as <-. reflexivity.
      - apply add_total_inv in H1. destruct H1 as (_ & _ & Hk1 & _).
        apply Hk1. intros ->. apply Hk, in_or_app. right.
        apply totals_In. left. split; [reflexivity|]. rewrite E1. discriminate. }
    rewrite K2, K1. apply Hk0. intros c Hc Pc Ek. apply Hk, in_or_app. left.
    rewrite <- Ek. apply in_map, filter_In. split; [|exact Pc].
    destruct Hc as [<-|Hc]; [discriminate Pc | exact Hc].
Qed.

(** C3 (as stated, refuted): a wide frame with a position column [x_1] and
    a measured column named [vx_1].  The final join finds no row whose
    measured [vx_1] equals the derived one, and every row is dropped. *)
Lemma kinematic_deriver_collision_counterexample :
  option_map df_time (add_engineered_features seconds frame_collision)
    = Some [] /\
  get_col frame_collision "vx_1" = Some [5; 5] /\
  df_time frame_collision = [0%Z; 1%Z] /\
  In "vx_1" (derived_names frame_collision).
Proof. repeat split. simpl. tauto. Qed.

(** C3 (amended): for a wide frame with at least one row, distinct time
    stamps, one cell per row in every column and distinct column labels,
    none of which is the name of a column the deriver adds, the kinematic
    deriver returns a frame with exactly the rows of the input; the input
    columns come first, in their order and with their cells; the other
    columns of the result are exactly the derived ones: [timestamp], [dt],
    the grouped velocity columns with [v1]/[v2], the force magnitudes
    [f1]/[f2], the grouped position deltas with [d1]/[d2], and the
    accelerations of the velocity columns with [a1]/[a2]. *)
Theorem kinematic_deriver_keeps_rows
    (timestamp : Z -> float) (df : DataFrame) :
  wf df ->
  df_time df <> [] ->
  NoDup (df_time df) ->
  NoDup (columns df) ->
  (forall c, In c (names df) -> ~ In c (derived_names df)) ->
  exists out,
    add_engineered_features timestamp df = Some out /\
    df_time out = df_time df /\
    wf out /\
    (exists extra, names out = names df ++ extra) /\
    (forall c s, get_col df c = Some s -> get_col out c = Some s) /\
    (forall c, In c (names out) <-> In c (names df) \/ In c (derived_names df)).
Proof.
  intros df_wf _ df_times _ df_free.
  rewrite (engineered_unfold timestamp df).
  destruct (stage2_runs timestamp df df_wf)
    as (dfa & vdf & dfb & adf & dfc & pdf & _ & _ & _ & Hbag &
        (Ev & Sv & Nv) & (Ef & Sf & Nf) & (Ep & Sp & Np)).
  rewrite Hbag. cbn [bind].
  pose proof (clock_ext timestamp df df_wf) as E1.
  pose proof (clock_names timestamp df df_wf) as N1.
  set (df1 := with_clock timestamp df) in *.
  set (V := grouped "v1" "v2" (velocity_names df)) in *.
  set (AD := map acceleration_name (filter is_velocity_col (names df ++ V))).
  pose proof (fun c => derived_In df c) as HD. cbv zeta in HD. fold V AD in HD.
  assert (T1 : df_time df1 = df_time df) by apply E1.
  assert (Hwf1 : wf df1) by apply E1.
  assert (Hnd1 : NoDup (df_time df1)) by (rewrite T1; exact df_times).
  assert (Tv : df_time vdf = df_time df1).
  { destruct Sv as (Ht & _). destruct Ev as (Ht' & _). congruence. }
  assert (Tf : df_time adf = df_time df1).
  { destruct Sf as (Ht & _). destruct Ef as (Ht' & _). congruence. }
  assert (Tp : df_time pdf = df_time df1).
  { destruct Sp as (Ht & _). destruct Ep as (Ht' & _). congruence. }
  assert (Wv : wf vdf) by apply Sv. assert (Wf : wf adf) by apply Sf.
  assert (Wp : wf pdf) by apply Sp.
  assert (Hforce : forall f, In f (force_cols df) -> is_force_col f = true).
  { intros f Hf. apply filter_In in Hf. apply Hf. }
  assert (Hposn : forall p, In p (filter is_position_col (names df)) ->
                            is_position_col p = true).
  { intros p Hp. apply filter_In in Hp. apply Hp. }
  (* the three frames agree with the stage-1 frame *)
  assert (Av : agrees vdf df1).
  { apply agrees_disjoint. intros k Hk Hk1. rewrite Nv in Hk.
    apply N1 in Hk1.
    pose proof (velocity_names_class _ _ Hk) as Hc. apply velocity_class in Hc.
    destruct Hk1 as [Hk1|[->| ->]]; [|destruct Hc as (_&_&Hc&_); discriminate ..].
    apply (df_free k Hk1), HD. tauto. }
  assert (Ap : agrees pdf df1).
  { apply agrees_disjoint. intros k Hk Hk1. rewrite Np in Hk.
    apply N1 in Hk1.
    pose proof (delta_names_class _ _ Hposn Hk) as Hc. apply delta_class in Hc.
    destruct Hk1 as [Hk1|[->| ->]]; [|destruct Hc as (_&_&Hc&_); discriminate ..].
    apply (df_free k Hk1), HD. tauto. }
  assert (Af : agrees adf df1).
  { intros k s s' Hs Hs'.
    assert (Hk : In k (names adf)) by (apply get_col_In; eauto).
    assert (Hk1 : In k (names df1)) by (apply get_col_In; eauto).
    rewrite Nf in Hk. apply grouped_In in Hk.
    assert (Hfc : is_force_col k = true).
    { destruct Hk as [Hk|[Hk|Hk]].
      - apply filter_In in Hk. apply Hforce, Hk.
      - apply filter_In in Hk. apply Hforce, Hk.
      - exfalso. apply N1 in Hk1. destruct Hk1 as [Hk1|Hk1].
        + apply (df_free k Hk1), HD. tauto.
        + apply totals_In in Hk.
          destruct Hk as [[-> _]|[-> _]], Hk1 as [Hk1|Hk1]; discriminate. }
    apply force_col_class in Hfc. destruct Hfc as (_ & Hfc & _).
    apply stage2_split in Hfc. destruct Hfc as (_ & Hfc & _).
    destruct Sf as (_ & _ & Hsel). apply Hsel in Hs.
    destruct Ef as (_ & _ & _ & Hkeep). rewrite (Hkeep k Hfc) in Hs. congruence. }
  assert (Avf : agrees vdf adf).
  { apply agrees_disjoint. intros k Hk Hk'. rewrite Nv in Hk. rewrite Nf in Hk'.
    apply velocity_names_class, velocity_class in Hk.
    apply force_names_class in Hk'; [destruct Hk as (_&_&_&_&_&Hk); congruence|].
    exact Hforce. }
  assert (Avp : agrees vdf pdf).
  { apply agrees_disjoint. intros k Hk Hk'. rewrite Nv in Hk. rewrite Np in Hk'.
    apply velocity_names_class in Hk. apply delta_names_class in Hk'; [|exact Hposn].
    apply delta_class in Hk'. destruct Hk' as (_&Hk'&_). congruence. }
  assert (Afp : agrees adf pdf).
  { apply agrees_disjoint. intros k Hk Hk'. rewrite Nf in Hk. rewrite Np in Hk'.
    apply force_names_class in Hk; [|exact Hforce].
    apply delta_names_class in Hk'; [|exact Hposn].
    apply delta_class in Hk'. destruct Hk' as (_&_&_&_&_&Hk'). congruence. }
  (* the three joins keep every row *)
  destruct (merge_facts vdf adf Wv Wf)
    as (M1t & M1w & M1a & M1l & M1r & _ & _ & M1i);
    [congruence | rewrite Tv; exact Hnd1 | exact Avf |].
  set (vadf := merge vdf adf) in *.
  destruct (merge_facts vadf pdf M1w Wp)
    as (M2t & M2w & M2a & M2l & M2r & _ & _ & M2i);
    [congruence | rewrite M1t, Tv; exact Hnd1 | apply M1a; assumption |].
  set (vapdf := merge vadf pdf) in *.
  assert (A1 : agrees df1 vapdf).
  { apply agrees_sym, M2a; [apply M1a; assumption | assumption]. }
  destruct (merge_facts df1 vapdf Hwf1 M2w)
    as (M3t & M3w & _ & M3l & M3r & (e3 & M3n) & M3g & M3i);
    [congruence | exact Hnd1 | exact A1 |].
  set (M := merge df1 vapdf) in *.
  assert (Hdt : In "dt" (names M)) by (apply M3l, N1; tauto).
  destruct (acceleration_frame M M3w Hdt) as [out (Hacc & Ea & HinA & Hkeep)].
  set (AM := map acceleration_name (filter is_velocity_col (names M))) in *.
  (* the columns of the merged frame *)
  assert (NM : forall c, In c (names M) <->
             In c (names df) \/ c = "timestamp" \/ c = "dt" \/ In c V \/
             In c (grouped "f1" "f2" (force_cols df)) \/
             In c (grouped "d1" "d2" (delta_names df))).
  { intros c. split.
    - intros H. apply M3i in H. destruct H as [H|H]; [apply N1 in H; tauto|].
      apply M2i in H. destruct H as [H|H]; [|rewrite Np in H; tauto].
      apply M1i in H. destruct H as [H|H]; [rewrite Nv in H | rewrite Nf in H]; tauto.
    - intros [H|[H|[H|[H|[H|H]]]]].
      + apply M3l, N1. tauto.
      + apply M3l, N1. tauto.
      + apply M3l, N1. tauto.
      + apply M3r, M2l, M1l. rewrite Nv. exact H.
      + apply M3r, M2l, M1r. rewrite Nf. exact H.
      + apply M3r, M2r. rewrite Np. exact H. }
  assert (HA : forall a, In a AM <-> In a AD).
  { intros a. unfold AM, AD. rewrite !in_map_iff. split; intros [v [<- Hv]];
      exists v; (split; [reflexivity|]); apply filter_In in Hv;
      destruct Hv as [Hv Pv]; apply filter_In; (split; [|exact Pv]).
    - apply NM in Hv. apply in_or_app.
      destruct Hv as [H|[->|[->|[H|[H|H]]]]]; try tauto; try discriminate Pv.
      + apply force_names_class, startswith_f_not_velocity in H; [|exact Hforce].
        congruence.
      + apply delta_names_class, delta_not_velocity in H; [|exact Hposn].
        congruence.
    - apply NM. apply in_app_or in Hv. tauto. }
  assert (HW : forall c, In c (AM ++ totals "a1" "a2" AM) <->
                         In c (AD ++ totals "a1" "a2" AD)).
  { intros c. apply totals_members, HA. }
  exists out. split; [exact Hacc|].
  split; [|split; [|split; [|split]]].
  - destruct Ea as (Ht & _). congruence.
  - apply Ea.
  - destruct E1 as (_ & _ & (e1 & Hn1 & _) & _).
    destruct Ea as (_ & _ & (e4 & Hn4 & _) & _).
    exists ((e1 ++ e3) ++ e4). rewrite Hn4, M3n, Hn1, !app_assoc. reflexivity.
  - intros c s Hs.
    assert (Hc : In c (names df)) by (apply get_col_In; eauto).
    pose proof (df_free c Hc) as Hfree.
    rewrite Hkeep.
    + apply M3g. destruct E1 as (_ & _ & _ & G1). rewrite G1; [exact Hs|].
      unfold W_time. apply orb_false_iff.
      split; apply String.eqb_neq; intros ->; apply Hfree, HD; tauto.
    + intros Hw. apply Hfree, HD. apply HW in Hw. tauto.
  - intros c. split.
    + intros Hc.
      destruct (in_dec string_dec c (AM ++ totals "a1" "a2" AM)) as [Hw|Hw].
      * right. apply HD. apply HW in Hw. tauto.
      * assert (HcM : In c (names M)).
        { apply get_col_In in Hc. destruct Hc as [s Hs].
          rewrite (Hkeep c Hw) in Hs. apply get_col_In. eauto. }
        apply NM in HcM.
        destruct HcM as [H|[H|[H|[H|[H|H]]]]]; try (right; apply HD; tauto);
          [left; exact H|].
        apply grouped_In in H. destruct H as [H|[H|H]].
        -- left. apply filter_In in H. destruct H as [H _].
           apply filter_In in H. apply H.
        -- left. apply filter_In in H. destruct H as [H _].
           apply filter_In in H. apply H.
        -- right. apply HD. tauto.
    + assert (Hin : forall c, In c (names M) -> In c (names out)).
      { intros c' Hc'. eapply ext_names; [exact Ea | exact Hc']. }
      intros [Hc|Hc]; [apply Hin, NM; tauto|].
      apply HD in Hc. destruct Hc as [H|[H|[H|[H|[H|H]]]]].
      * apply Hin, NM. tauto.
      * apply Hin, NM. tauto.
      * apply Hin, NM. tauto.
      * apply Hin, NM. right. right. right. right. left.
        apply grouped_In. tauto.
      * apply Hin, NM. tauto.
      * apply HinA, HW, H.
Qed.

Lemma kinematic_deriver_keeps_rows_witness :
  exists out,
    add_engineered_features seconds frame_depth = Some out /\
    df_time out = df_time frame_depth /\
    wf out /\
    (exists extra, names out = names frame_depth ++ extra) /\
    (forall c s, get_col frame_depth c = Some s -> get_col out c = Some s) /\
    (forall c, In c (names out) <->
               In c (names frame_depth) \/ In c (derived_names frame_depth)).
Proof.
  apply (kinematic_deriver_keeps_rows seconds frame_depth).
  - unfold wf. simpl. repeat constructor.
  - discriminate.
  - simpl. repeat constructor; simpl; intuition discriminate.
  - simpl. repeat constructor; simpl; intuition discriminate.
  - intros c H Hd. simpl in H. vm_compute in Hd.
    repeat (destruct H as [<-|H];
            [repeat (destruct Hd as [Hd|Hd]; [discriminate Hd|]); exact Hd|]).
    exact H.
Defined.
